(** * EchPlus: the client proxy engine and the relay server

    A shallow embedding of the Go sources of EchPlus
    ([apps/client/core]: traffic statistics and the proxy engine;
    [apps/server/main.go]: the relay), and the properties of its
    specification checked against it.

    Conventions of the embedding.
    - A Go [string] is a byte sequence: it is a Rocq [string] (a list of
      8-bit [ascii]); no UTF-8 interpretation takes place anywhere.
    - A Go [[]byte] holding binary data (DNS messages, ECH lists, IP
      addresses) is a [list byte].
    - [int] offsets and lengths are [nat]: they are bounded by the length
      of a buffer held in memory, far below 2^63.
    - [int64] counters are [Z] with the two's complement wrap-around
      written out ([wrap64]); [uint32] values are [Z] in [0, 2^32).
    - [time.Time] is a [Z] (nanoseconds); the zero time is [None] where
      the code uses it to mean "no deadline".
    - The network, the resolver, the clock and the libraries outside the
      repository (gorilla/websocket, net.ParseIP, ...) are parameters or
      explicit oracle arguments of the functions that use them. *)

From Stdlib Require Import ZArith NArith List String Ascii Bool Lia.
From Stdlib Require Import Strings.Byte.
From stdpp Require Import gmap strings list pretty sorting.
Import ListNotations.

Local Open Scope string_scope.
Local Open Scope nat_scope.
Local Open Scope list_scope.

(** ** Part I. Definitions *)

(** *** The functions of Go's [strings] package used by the sources *)

Module GoStrings.

(** [strings.HasPrefix(s, p)]. *)
Definition HasPrefix (s p : string) : bool := String.prefix p s.

(** [s[n:]]. *)
Fixpoint from (n : nat) (s : string) : string :=
  match n, s with
  | O, _ => s
  | S n', String _ s' => from n' s'
  | S _, EmptyString => EmptyString
  end.

(** [s[:n]]. *)
Fixpoint upto (n : nat) (s : string) : string :=
  match n, s with
  | O, _ => EmptyString
  | S n', String c s' => String c (upto n' s')
  | S _, EmptyString => EmptyString
  end.

(** [s[a:b]]. *)
Definition slice (a b : nat) (s : string) : string := upto (b - a) (from a s).

(** [strings.Index(s, sep)] for a separator of one byte, which is how
    every call of the sources uses it; [None] is Go's [-1]. *)
Fixpoint IndexByte (s : string) (c : ascii) : option nat :=
  match s with
  | EmptyString => None
  | String d s' => if Ascii.eqb d c then Some O else option_map S (IndexByte s' c)
  end.

(** [strings.LastIndex(s, sep)] for a separator of one byte. *)
Fixpoint LastIndexByte (s : string) (c : ascii) : option nat :=
  match s with
  | EmptyString => None
  | String d s' =>
      match LastIndexByte s' c with
      | Some i => Some (S i)
      | None => if Ascii.eqb d c then Some O else None
      end
  end.

(** [strings.Contains(s, sep)] for a separator of one byte. *)
Definition ContainsByte (s : string) (c : ascii) : bool :=
  match IndexByte s c with Some _ => true | None => false end.

(** [strings.TrimPrefix(s, p)]. *)
Definition TrimPrefix (s p : string) : string :=
  if HasPrefix s p then from (String.length p) s else s.

(** [strings.Split(s, sep)[0]] for a separator of one byte: the part
    before the first separator, the whole string when there is none. *)
Definition SplitHead (s : string) (c : ascii) : string :=
  match IndexByte s c with Some i => upto i s | None => s end.

(** The strings whose bytes are all below 0x80.  On these Go's
    [TrimSpace], [Fields] and [ToLower] take their ASCII paths, which
    are the functions below.  On a string with a byte from 0x80 on Go
    decodes UTF-8 and works with Unicode white space (U+0085, U+00A0
    and others) and the Unicode case mapping: that is not modelled, and
    what is proved about these three functions is stated for the
    strings the sources give them when the input is ASCII. *)
Fixpoint isASCII (s : string) : bool :=
  match s with
  | EmptyString => true
  | String c s' => (nat_of_ascii c <? 128) && isASCII s'
  end.

(** White space as [strings.TrimSpace] and [strings.Fields] see it on
    ASCII input: tab, line feed, vertical tab, form feed, carriage
    return and space. *)
Definition isSpace (c : ascii) : bool :=
  let n := nat_of_ascii c in
  ((9 <=? n) && (n <=? 13)) || (n =? 32).

Fixpoint TrimLeftFunc (f : ascii -> bool) (s : string) : string :=
  match s with
  | String c s' => if f c then TrimLeftFunc f s' else s
  | EmptyString => EmptyString
  end.

Fixpoint TrimRightFunc (f : ascii -> bool) (s : string) : string :=
  match s with
  | EmptyString => EmptyString
  | String c s' =>
      match TrimRightFunc f s' with
      | EmptyString => if f c then EmptyString else String c EmptyString
      | t => String c t
      end
  end.

(** [strings.TrimSpace(s)] for an ASCII [s]. *)
Definition TrimSpace (s : string) : string :=
  TrimRightFunc isSpace (TrimLeftFunc isSpace s).

(** [strings.TrimRight(s, "\r\n")]. *)
Definition isCRLF (c : ascii) : bool :=
  let n := nat_of_ascii c in (n =? 13) || (n =? 10).

Definition TrimRightCRLF (s : string) : string := TrimRightFunc isCRLF s.

(** [strings.Fields(s)] for an ASCII [s]: the maximal runs of
    non-space bytes.  [cur] is the field being read, in reverse. *)
Fixpoint FieldsFrom (cur : list ascii) (s : string) : list string :=
  let flush :=
    match cur with
    | [] => []
    | _ => [string_of_list_ascii (rev cur)]
    end in
  match s with
  | EmptyString => flush
  | String c s' =>
      if isSpace c then flush ++ FieldsFrom [] s'
      else FieldsFrom (c :: cur) s'
  end.

Definition Fields (s : string) : list string := FieldsFrom [] s.

(** [strings.ToLower(s)] for an ASCII [s]: the letters A to Z are
    mapped, other bytes are kept. *)
Definition lowerByte (c : ascii) : ascii :=
  let n := nat_of_ascii c in
  if (65 <=? n) && (n <=? 90) then ascii_of_nat (n + 32) else c.

Fixpoint ToLower (s : string) : string :=
  match s with
  | EmptyString => EmptyString
  | String c s' => String (lowerByte c) (ToLower s')
  end.

(** The byte at index [i], [None] out of range. *)
Definition at_ (s : string) (i : nat) : option ascii := String.get i s.

End GoStrings.

Import GoStrings.

(** *** [net.SplitHostPort] and [net.JoinHostPort] *)

Module GoNet.

Inductive AddrError : Type :=
| missingPort
| tooManyColons
| missingBracket
| unexpectedOpen
| unexpectedClose.

(** [net.SplitHostPort(hostport)]: the branches of the library
    function, in its order. *)
Definition SplitHostPort (hostport : string) : (string * string) + AddrError :=
  match LastIndexByte hostport ":" with
  | None => inr missingPort
  | Some i =>
      let finish (host : string) (j k : nat) :=
        if ContainsByte (from j hostport) "[" then inr unexpectedOpen
        else if ContainsByte (from k hostport) "]" then inr unexpectedClose
        else inl (host, from (i + 1) hostport) in
      if HasPrefix hostport "[" then
        match IndexByte hostport "]" with
        | None => inr missingBracket
        | Some e =>
            if e + 1 =? String.length hostport then inr missingPort
            else if e + 1 =? i then finish (slice 1 e hostport) 1 (e + 1)
            else match at_ hostport (e + 1) with
                 | Some ":"%char => inr tooManyColons
                 | _ => inr missingPort
                 end
        end
      else
        let host := upto i hostport in
        if ContainsByte host ":" then inr tooManyColons
        else finish host 0 0
  end.

(** [net.JoinHostPort(host, port)]. *)
Definition JoinHostPort (host port : string) : string :=
  if ContainsByte host ":" then "[" +:+ host +:+ "]:" +:+ port
  else host +:+ ":" +:+ port.

End GoNet.

Import GoNet.

(** *** Traffic statistics ([TrafficStats], traffic_stats.go) *)

Module Stats.

Local Open Scope Z_scope.

(** An [int64] result: the value modulo 2^64, in [-2^63, 2^63). *)
Definition wrap64 (z : Z) : Z := (z + 2 ^ 63) mod 2 ^ 64 - 2 ^ 63.

Definition add64 (a b : Z) : Z := wrap64 (a + b).

Record SiteStats : Type := mkSite {
  Host : string;
  Upload : Z;
  Download : Z;
  Connections : Z;
  LastAccess : Z;
  FirstAccess : Z
}.

Record TrafficStats : Type := mkStats {
  sites : gmap string SiteStats;
  storeDir : string;
  totalUpload : Z;
  totalDownload : Z
}.

(** The struct that [Save] serialises to traffic_stats.json and that
    [load] reads back. *)
Record Snapshot : Type := mkSnapshot {
  snapSites : gmap string SiteStats;
  snapTotalUpload : Z;
  snapTotalDownload : Z;
  snapSavedAt : Z
}.

Definition withSites (ts : TrafficStats) (m : gmap string SiteStats) : TrafficStats :=
  mkStats m (storeDir ts) (totalUpload ts) (totalDownload ts).

(** [RecordConnection(host)], at time [now]. *)
Definition RecordConnection (now : Z) (host : string) (ts : TrafficStats) : TrafficStats :=
  match sites ts !! host with
  | Some stats =>
      withSites ts
        (<[host := mkSite (Host stats) (Upload stats) (Download stats)
                     (add64 (Connections stats) 1) now (FirstAccess stats)]>
           (sites ts))
  | None =>
      withSites ts (<[host := mkSite host 0 0 1 now now]> (sites ts))
  end.

(** [RecordUpload(host, bytes)]: the total always grows, the site only
    when it has an entry. *)
Definition RecordUpload (now : Z) (host : string) (bytes : Z) (ts : TrafficStats) : TrafficStats :=
  let total := add64 (totalUpload ts) bytes in
  match sites ts !! host with
  | Some stats =>
      mkStats
        (<[host := mkSite (Host stats) (add64 (Upload stats) bytes) (Download stats)
                     (Connections stats) now (FirstAccess stats)]>
           (sites ts))
        (storeDir ts) total (totalDownload ts)
  | None => mkStats (sites ts) (storeDir ts) total (totalDownload ts)
  end.

(** [RecordDownload(host, bytes)]. *)
Definition RecordDownload (now : Z) (host : string) (bytes : Z) (ts : TrafficStats) : TrafficStats :=
  let total := add64 (totalDownload ts) bytes in
  match sites ts !! host with
  | Some stats =>
      mkStats
        (<[host := mkSite (Host stats) (Upload stats) (add64 (Download stats) bytes)
                     (Connections stats) now (FirstAccess stats)]>
           (sites ts))
        (storeDir ts) (totalUpload ts) total
  | None => mkStats (sites ts) (storeDir ts) (totalUpload ts) total
  end.

(** [GetSiteStats(host)]: a copy of the entry, [None] for Go's [nil]. *)
Definition GetSiteStats (host : string) (ts : TrafficStats) : option SiteStats :=
  match sites ts !! host with
  | Some stats =>
      Some (mkSite (Host stats) (Upload stats) (Download stats) (Connections stats)
              (LastAccess stats) (FirstAccess stats))
  | None => None
  end.



Definition minSaveThreshold : Z := 10 * 1024.

(** [Save()]: the snapshot that is handed to [json.MarshalIndent];
    sites below the threshold are left out, the totals are kept whole.
    The bytes of the file are not modelled: [encoding/json] rewrites a
    host that is not valid UTF-8. *)
Definition Save (now : Z) (ts : TrafficStats) : Snapshot :=
  mkSnapshot
    (filter (fun kv => minSaveThreshold <= add64 (Upload kv.2) (Download kv.2)) (sites ts))
    (totalUpload ts) (totalDownload ts) now.

(** [load()]: [file] is what [json.Unmarshal] has decoded of
    traffic_stats.json, [None] when the file is missing or does not
    decode.  The decoded value has a map of sites with an entry behind
    every key: a file without the field [sites], which leaves the Go
    map nil, and a site that is [null] are not modelled. *)
Definition load (file : option Snapshot) (ts : TrafficStats) : TrafficStats :=
  match file with
  | None => ts
  | Some saved =>
      mkStats (snapSites saved) (storeDir ts) (snapTotalUpload saved) (snapTotalDownload saved)
  end.

(** [NewTrafficStats(storeDir)]. *)
Definition NewTrafficStats (dir : string) (file : option Snapshot) : TrafficStats :=
  load file (mkStats ∅ dir 0 0).

(** The sums of the [Upload] and [Download] fields over the map, as
    integers. *)
Definition sumUpload (m : gmap string SiteStats) : Z :=
  map_fold (fun _ s acc => Upload s + acc) 0 m.

Definition sumDownload (m : gmap string SiteStats) : Z :=
  map_fold (fun _ s acc => Download s + acc) 0 m.

(** The invariant of the specification, with the sums taken in [int64]
    arithmetic as the totals are. *)
Definition totalsMatch (ts : TrafficStats) : Prop :=
  totalUpload ts = wrap64 (sumUpload (sites ts)) /\
  totalDownload ts = wrap64 (sumDownload (sites ts)).

(** The counters of an entry hold [int64] values. *)
Definition int64Site (s : SiteStats) : Prop :=
wrap64 (Upload s) = Upload s /\ wrap64 (Download s) = Download s
/\ wrap64 (Connections s) = Connections s.

(** The calls a session makes on the store. *)
Inductive Op : Type :=
| OpConnection (host : string)
| OpUpload (host : string) (bytes : Z)
| OpDownload (host : string) (bytes : Z).


Definition apply (now : Z) (o : Op) (ts : TrafficStats) : TrafficStats :=
  match o with
  | OpConnection h => RecordConnection now h ts
  | OpUpload h n => RecordUpload now h n ts
  | OpDownload h n => RecordDownload now h n ts
  end.

(** The calls of [ops] from left to right; the clock is [clock i] at
    the [i]-th call. *)
Fixpoint run (clock : nat -> Z) (i : nat) (ops : list Op) (ts : TrafficStats) : TrafficStats :=
  match ops with
  | [] => ts
  | o :: rest => run clock (S i) rest (apply (clock i) o ts)
  end.


(** The bytes that [ops] record for [host] in each direction, and the
    connections. *)
Fixpoint uploaded (host : string) (ops : list Op) : Z :=
  match ops with
  | [] => 0
  | OpUpload h n :: rest => (if decide (h = host) then n else 0) + uploaded host rest
  | _ :: rest => uploaded host rest
  end.

Fixpoint downloaded (host : string) (ops : list Op) : Z :=
  match ops with
  | [] => 0
  | OpDownload h n :: rest => (if decide (h = host) then n else 0) + downloaded host rest
  | _ :: rest => downloaded host rest
  end.

Fixpoint connections (host : string) (ops : list Op) : Z :=
  match ops with
  | [] => 0
  | OpConnection h :: rest => (if decide (h = host) then 1 else 0) + connections host rest
  | _ :: rest => connections host rest
  end.

End Stats.

(** *** The relay server (apps/server/main.go) *)

Module Relay.

(** A data message as [ws.ReadMessage] returns it and [ws.WriteMessage]
    sends it. *)
Inductive WsMessage : Type :=
| TextMessage (data : string)
| BinaryMessage (data : string).

(** **** The upgrade handler *)

(** [http.Header]: the values of each key. *)
Abbreviation Header := (gmap string (list string)).










(** **** The session *)

(** The TCP connection to the target: the address dialed and the
    writes made on it, oldest first. *)
Record Remote : Type := mkRemote {
  remoteAddr : string;
  remoteWritten : list string
}.

(** The state the read loop of [handleSession] works on: the variables
    [remoteConn] and [closed] of the closure, and the messages the
    loop itself has sent on the WebSocket, oldest first.  The two
    goroutines of a session are not modelled: the ping ticker, and
    [pumpRemoteToWS], which sends what the target answers as binary
    frames and the text [CLOSE] when the target is done.  What is
    stated below is about the read loop and its own messages. *)
Record Session : Type := mkSession {
  remoteConn : option Remote;
  closed : bool;
  wsSent : list WsMessage
}.

(** The outcome of [dialer.Dial] for an address: an error, or a
    connection together with the error of the first write on it, if
    that write fails. *)
Inductive DialResult : Type :=
| DialError (err : string)
| DialOk (firstWriteErr : option string).

Definition send (m : WsMessage) (st : Session) : Session :=
  mkSession (remoteConn st) (closed st) (wsSent st ++ [m]).

(** The closure [parseAddress]. *)
Definition parseAddress (addr : string) : string * string :=
  if HasPrefix addr "[" then
    match IndexByte addr "]" with
    | None => (addr, "")
    | Some e =>
        if String.length addr <? e + 3 then (addr, "")
        else (slice 1 e addr, from (e + 2) addr)
    end
  else
    match LastIndexByte addr ":" with
    | None => (addr, "")
    | Some sep => (upto sep addr, from (sep + 1) addr)
    end.

(** The closure [connectToRemote]: the new state and the error
    returned, if any.  [remoteConn] is the one variable of the source:
    a second successful CONNECT overwrites it, and the connection it
    held before, which the source does not close, is no longer in the
    state. *)
Definition connectToRemote (dial : string -> DialResult)
    (targetAddr firstFrame : string) (st : Session) : Session * option string :=
  let '(host, port) := parseAddress targetAddr in
  if String.eqb host "" || String.eqb port "" then
    (st, Some ("invalid address: " +:+ targetAddr))
  else
    let address := JoinHostPort host port in
    match dial address with
    | DialError err => (st, Some err)
    | DialOk werr =>
        let connected (written : list string) :=
          (send (TextMessage "CONNECTED")
             (mkSession (Some (mkRemote address written)) (closed st) (wsSent st)), None) in
        if negb (String.eqb firstFrame "") then
          match werr with
          | Some err => (st, Some err)
          | None => connected [firstFrame]
          end
        else connected []
    end.

(** [remoteConn.Write(data)] when a target is connected. *)
Definition writeRemote (data : string) (st : Session) : Session :=
  match remoteConn st with
  | Some r =>
      mkSession (Some (mkRemote (remoteAddr r) (remoteWritten r ++ [data])))
        (closed st) (wsSent st)
  | None => st
  end.

(** How one turn of the read loop ends: with the next [ReadMessage]
    ([continue], or the end of the switch), or with the end of the
    session ([return], [break]). *)
Inductive Control : Type :=
| Continue
| Return.

(** One turn of the loop of [handleSession] on the message read. *)
Definition handleMessage (dial : string -> DialResult) (m : WsMessage) (st : Session)
    : Session * Control :=
  if closed st then (st, Return)
  else
    match m with
    | TextMessage msg =>
        if HasPrefix msg "CONNECT:" then
          let rest := from 8 msg in
          match IndexByte rest "|" with
          | None => (send (TextMessage "ERROR:invalid CONNECT format") st, Continue)
          | Some sep =>
              let addr := upto sep rest in
              let firstFrame := from (sep + 1) rest in
              match connectToRemote dial addr firstFrame st with
              | (st', Some err) => (send (TextMessage ("ERROR:" +:+ err)) st', Return)
              | (st', None) => (st', Continue)
              end
          end
        else if HasPrefix msg "DATA:" then (writeRemote (from 5 msg) st, Continue)
        else if String.eqb msg "CLOSE" then (st, Return)
        else (st, Continue)
    | BinaryMessage data => (writeRemote data st, Continue)
    end.

(** The deferred [cleanup]: one-shot. *)
Definition cleanup (st : Session) : Session :=
  if closed st then st else mkSession None true (wsSent st).

(** The read loop of [handleSession] on the messages that
    [ReadMessage] delivers before it fails. *)
Fixpoint readLoop (dial : string -> DialResult) (msgs : list WsMessage) (st : Session) : Session :=
  match msgs with
  | [] => st
  | m :: rest =>
      match handleMessage dial m st with
      | (st', Continue) => readLoop dial rest st'
      | (st', Return) => st'
      end
  end.

End Relay.

(** *** The client: addresses and the China IP database (proxy.go) *)

Module IPAddr.

(** [net.IP]: a byte slice, of length 4 or 16 when it is an address. *)
Definition IP : Type := list byte.

Definition byteZ (b : byte) : Z := Z.of_N (Byte.to_N b).

Definition isZeros (p : list byte) : bool := forallb (Byte.eqb x00) p.

(** [ip.To4()]: the 4-byte form of an IPv4 address, also when it is
    held as an IPv4-mapped IPv6 address; [None] is Go's [nil]. *)
Definition To4 (ip : IP) : option IP :=
  if length ip =? 4 then Some ip
  else if (length ip =? 16) && isZeros (take 10 ip)
          && Byte.eqb (nth 10 ip x00) xff && Byte.eqb (nth 11 ip x00) xff
  then Some (take 4 (drop 12 ip))
  else None.

Definition v4InV6Prefix : list byte :=
  [x00; x00; x00; x00; x00; x00; x00; x00; x00; x00; xff; xff].

(** [ip.To16()]. *)
Definition To16 (ip : IP) : option IP :=
  if length ip =? 4 then Some (v4InV6Prefix ++ ip)
  else if length ip =? 16 then Some ip
  else None.

(** [ip.IsLoopback()], [ip.IsPrivate()], [ip.IsLinkLocalUnicast()] and
    [ip.IsLinkLocalMulticast()] of package [net]. *)
Definition IsLoopback (ip : IP) : bool :=
  match To4 ip with
  | Some ip4 => (byteZ (nth 0 ip4 x00) =? 127)%Z
  | None =>
      (length ip =? 16) && isZeros (take 15 ip) && Byte.eqb (nth 15 ip x00) x01
  end.

Definition IsPrivate (ip : IP) : bool :=
  match To4 ip with
  | Some ip4 =>
      let a := byteZ (nth 0 ip4 x00) in
      let b := byteZ (nth 1 ip4 x00) in
      ((a =? 10) || ((a =? 172) && (Z.land b 240 =? 16)) || ((a =? 192) && (b =? 168)))%Z
  | None => (length ip =? 16) && (Z.land (byteZ (nth 0 ip x00)) 254 =? 252)%Z
  end.

Definition IsLinkLocalUnicast (ip : IP) : bool :=
  match To4 ip with
  | Some ip4 => ((byteZ (nth 0 ip4 x00) =? 169) && (byteZ (nth 1 ip4 x00) =? 254))%Z
  | None =>
      (length ip =? 16) && (byteZ (nth 0 ip x00) =? 254)%Z
      && (Z.land (byteZ (nth 1 ip x00)) 192 =? 128)%Z
  end.

Definition IsLinkLocalMulticast (ip : IP) : bool :=
  match To4 ip with
  | Some ip4 =>
      ((byteZ (nth 0 ip4 x00) =? 224) && (byteZ (nth 1 ip4 x00) =? 0)
       && (byteZ (nth 2 ip4 x00) =? 0))%Z
  | None =>
      (length ip =? 16) && (byteZ (nth 0 ip x00) =? 255)%Z
      && (Z.land (byteZ (nth 1 ip x00)) 15 =? 2)%Z
  end.

(** [isPrivateIPAddress(ip)]; a [nil] address is the empty slice. *)
Definition isPrivateIPAddress (ip : IP) : bool :=
  match ip with
  | [] => false
  | _ => IsLoopback ip || IsLinkLocalUnicast ip || IsLinkLocalMulticast ip || IsPrivate ip
  end.

(** [ipToUint32(ip)]. *)
Definition ipToUint32 (ip : IP) : Z :=
  match To4 ip with
  | Some [a; b; c; d] =>
      Z.lor (Z.lor (Z.lor (Z.shiftl (byteZ a) 24) (Z.shiftl (byteZ b) 16))
               (Z.shiftl (byteZ c) 8)) (byteZ d)
  | _ => 0%Z
  end.

(** A [[16]byte] array filled by [copy] from a slice. *)
Definition toArray16 (p : list byte) : list byte := take 16 (p ++ replicate 16 x00).

(** [compareIPv6(a, b)]: -1, 0 or 1. *)
Fixpoint compareIPv6 (a b : list byte) : Z :=
  match a, b with
  | x :: a', y :: b' =>
      if (byteZ x <? byteZ y)%Z then (-1)%Z
      else if (byteZ y <? byteZ x)%Z then 1%Z
      else compareIPv6 a' b'
  | _, _ => 0%Z
  end.

Record ipRange : Type := mkRange { rstart : Z; rend : Z }.

Record ipRangeV6 : Type := mkRangeV6 { rstart6 : list byte; rend6 : list byte }.

(** The ranges that the IPv4 loader keeps: both ends above zero, in
    order. *)
Definition keptRange (r : ipRange) : Prop :=
(0 < rstart r /\ 0 < rend r /\ rstart r <= rend r)%Z.

(** Some range of the list holds the address. *)
Definition containsV4 (ranges : list ipRange) (ipUint32 : Z) : Prop :=
exists i r, ranges !! i = Some r /\ (rstart r <= ipUint32 <= rend r)%Z.

(** The invariant of the data model: every range is in order, and each
    one ends before the next ones start. *)
Definition sortedDisjoint (ranges : list ipRange) : Prop :=
(forall i r, ranges !! i = Some r -> (rstart r <= rend r)%Z)
/\ (forall i j ri rj,
      i < j -> ranges !! i = Some ri -> ranges !! j = Some rj -> (rend ri < rstart rj)%Z).

(** The loop of [isChinaIP] over [chinaIPRanges].  Every turn narrows
    [right - left], so [fuel = right - left] turns are enough. *)
Fixpoint searchV4 (ranges : list ipRange) (ipUint32 : Z) (fuel left right : nat) : bool :=
  match fuel with
  | O => false
  | S fuel' =>
      if left <? right then
        let mid := (left + right) / 2 in
        match ranges !! mid with
        | Some r =>
            if (ipUint32 <? rstart r)%Z then searchV4 ranges ipUint32 fuel' left mid
            else if (rend r <? ipUint32)%Z then searchV4 ranges ipUint32 fuel' (mid + 1) right
            else true
        | None => false
        end
      else false
  end.

(** The loop of [isChinaIP] over [chinaIPV6Ranges]. *)
Fixpoint searchV6 (ranges : list ipRangeV6) (ipArray : list byte) (fuel left right : nat) : bool :=
  match fuel with
  | O => false
  | S fuel' =>
      if left <? right then
        let mid := (left + right) / 2 in
        match ranges !! mid with
        | Some r =>
            if (compareIPv6 ipArray (rstart6 r) <? 0)%Z
            then searchV6 ranges ipArray fuel' left mid
            else if (0 <? compareIPv6 ipArray (rend6 r))%Z
            then searchV6 ranges ipArray fuel' (mid + 1) right
            else true
        | None => false
        end
      else false
  end.

(** [sort.Slice(ranges, less)] with [less] comparing the starts: an
    insertion sort stands for it.  Ranges with equal starts keep the
    order of the file, as the insertion sort of the library leaves them
    in a slice of up to 12 elements; for longer slices the library does
    not specify their order. *)
Fixpoint insertRange (r : ipRange) (l : list ipRange) : list ipRange :=
  match l with
  | [] => [r]
  | x :: l' => if (rstart x <? rstart r)%Z then x :: insertRange r l' else r :: l
  end.

Definition sortRanges (l : list ipRange) : list ipRange := foldr insertRange [] l.

Fixpoint insertRangeV6 (r : ipRangeV6) (l : list ipRangeV6) : list ipRangeV6 :=
  match l with
  | [] => [r]
  | x :: l' =>
      if (compareIPv6 (rstart6 x) (rstart6 r) <? 0)%Z then x :: insertRangeV6 r l'
      else r :: l
  end.

Definition sortRangesV6 (l : list ipRangeV6) : list ipRangeV6 := foldr insertRangeV6 [] l.

(** A list file as the loaders find it: [os.Stat] fails with an error
    other than "not exist" (the directory cannot be searched, a part of
    the path is no directory); or the file is not there or empty and
    cannot be downloaded, or cannot be opened; or the lines that the
    scanner yields and whether it ends in an error. *)
Inductive ListFile : Type :=
| StatFailed
| Unavailable
| Lines (lines : list string) (scanErr : bool).

Section WithParser.

(** [net.ParseIP]; [None] is Go's [nil]. *)
Variable ParseIP : string -> option IP.

(** The part of [isChinaIP] that follows a successful parse. *)
Definition isChinaAddr (ranges : list ipRange) (ranges6 : list ipRangeV6) (ip : IP) : bool :=
  match To4 ip with
  | Some _ =>
      let ipUint32 := ipToUint32 ip in
      if (ipUint32 =? 0)%Z then false
      else searchV4 ranges ipUint32 (length ranges) 0 (length ranges)
  | None =>
      match To16 ip with
      | None => false
      | Some ipBytes =>
          searchV6 ranges6 (toArray16 ipBytes) (length ranges6) 0 (length ranges6)
      end
  end.

(** [s.isChinaIP(ipStr)] for the loaded ranges. *)
Definition isChinaIP (ranges : list ipRange) (ranges6 : list ipRangeV6) (ipStr : string) : bool :=
  match ParseIP ipStr with
  | None => false
  | Some ip => isChinaAddr ranges ranges6 ip
  end.

(** The body of the scanner loop of [loadChinaIPList] for one line:
    the range it appends, if any. *)
Definition parseRangeLine (text : string) : option ipRange :=
  let line := TrimSpace text in
  if String.eqb line "" || HasPrefix line "#" then None
  else
    match Fields line with
    | p0 :: p1 :: _ =>
        match ParseIP p0, ParseIP p1 with
        | Some startIP, Some endIP =>
            let start := ipToUint32 startIP in
            let end_ := ipToUint32 endIP in
            if ((0 <? start) && (0 <? end_) && (start <=? end_))%Z
            then Some (mkRange start end_)
            else None
        | _, _ => None
        end
    | _ => None
    end.

Inductive LoadError : Type :=
| ErrUnavailable
| ErrReadFailed
| ErrEmptyList.

(** How a loader ends: it returns [nil], it returns an error, or it
    panics.  After an [os.Stat] that fails with an error other than
    "not exist", [info] is nil, and the test [info.Size() == 0] of the
    loader calls a method on it. *)
Inductive LoadEnd : Type :=
| LoadOk
| LoadErr (e : LoadError)
| LoadPanic.

(** [loadChinaIPList()]: the value of [s.chinaIPRanges] when it ends,
    and how it ends. *)
Definition loadChinaIPList (file : ListFile) (current : list ipRange)
    : list ipRange * LoadEnd :=
  match file with
  | StatFailed => (current, LoadPanic)
  | Unavailable => (current, LoadErr ErrUnavailable)
  | Lines lines scanErr =>
      let ranges := omap parseRangeLine lines in
      if scanErr then (current, LoadErr ErrReadFailed)
      else match ranges with
           | [] => (current, LoadErr ErrEmptyList)
           | _ => (sortRanges ranges, LoadOk)
           end
  end.

(** The body of the scanner loop of [loadChinaIPV6List]. *)
Definition parseRangeLineV6 (text : string) : option ipRangeV6 :=
  let line := TrimSpace text in
  if String.eqb line "" || HasPrefix line "#" then None
  else
    match Fields line with
    | p0 :: p1 :: _ =>
        match ParseIP p0, ParseIP p1 with
        | Some startIP, Some endIP =>
            match To16 startIP, To16 endIP with
            | Some startBytes, Some endBytes =>
                let start := toArray16 startBytes in
                let end_ := toArray16 endBytes in
                if (compareIPv6 start end_ <=? 0)%Z then Some (mkRangeV6 start end_)
                else None
            | _, _ => None
            end
        | _, _ => None
        end
    | _ => None
    end.

(** [loadChinaIPV6List()]: a missing file and an empty list are not
    errors. *)
Definition loadChinaIPV6List (file : ListFile) (current : list ipRangeV6)
    : list ipRangeV6 * LoadEnd :=
  match file with
  | StatFailed => (current, LoadPanic)
  | Unavailable => (current, LoadOk)
  | Lines lines scanErr =>
      let ranges := omap parseRangeLineV6 lines in
      if scanErr then (current, LoadErr ErrReadFailed)
      else match ranges with
           | [] => (current, LoadOk)
           | _ => (sortRangesV6 ranges, LoadOk)
           end
  end.

End WithParser.

End IPAddr.

(** *** [encoding/base64]: [StdEncoding] *)

Module Base64.

Local Open Scope N_scope.

Definition encodeStd : string :=
  "ABCDEFGHIJKLMNOPQRSTUVWXYZabcdefghijklmnopqrstuvwxyz0123456789+/".

Definition padChar : ascii := "="%char.

(** The character of a 6-bit value. *)
Definition enc (i : N) : ascii :=
  match String.get (N.to_nat i) encodeStd with
  | Some c => c
  | None => padChar
  end.

(** The 6-bit value of a character of the alphabet. *)
Definition dec (c : ascii) : option N :=
  option_map N.of_nat (IndexByte encodeStd c).

Definition byteOfN (n : N) : byte :=
  match Byte.of_N (n mod 256) with
  | Some b => b
  | None => x00
  end.

(** [StdEncoding.EncodeToString(src)]. *)
Fixpoint EncodeToString (src : list byte) : string :=
  match src with
  | [] => EmptyString
  | [a] =>
      let v := Byte.to_N a * 65536 in
      String (enc (v / 262144)) (String (enc ((v / 4096) mod 64))
        (String padChar (String padChar EmptyString)))
  | [a; b] =>
      let v := Byte.to_N a * 65536 + Byte.to_N b * 256 in
      String (enc (v / 262144)) (String (enc ((v / 4096) mod 64))
        (String (enc ((v / 64) mod 64)) (String padChar EmptyString)))
  | a :: b :: c :: rest =>
      let v := Byte.to_N a * 65536 + Byte.to_N b * 256 + Byte.to_N c in
      String (enc (v / 262144)) (String (enc ((v / 4096) mod 64))
        (String (enc ((v / 64) mod 64)) (String (enc (v mod 64))
          (EncodeToString rest))))
  end.

(** The quanta of four characters, the last one possibly padded. *)
Fixpoint decodeQuanta (s : list ascii) : option (list byte) :=
  match s with
  | [] => Some []
  | c1 :: c2 :: c3 :: c4 :: rest =>
      match dec c1, dec c2 with
      | Some i1, Some i2 =>
          if Ascii.eqb c3 padChar then
            if Ascii.eqb c4 padChar then
              match rest with
              | [] => Some [byteOfN ((i1 * 262144 + i2 * 4096) / 65536)]
              | _ => None
              end
            else None
          else
            match dec c3 with
            | Some i3 =>
                if Ascii.eqb c4 padChar then
                  match rest with
                  | [] =>
                      let v := i1 * 262144 + i2 * 4096 + i3 * 64 in
                      Some [byteOfN (v / 65536); byteOfN (v / 256)]
                  | _ => None
                  end
                else
                  match dec c4, decodeQuanta rest with
                  | Some i4, Some out =>
                      let v := i1 * 262144 + i2 * 4096 + i3 * 64 + i4 in
                      Some (byteOfN (v / 65536) :: byteOfN (v / 256) :: byteOfN v :: out)
                  | _, _ => None
                  end
            | None => None
            end
      | _, _ => None
      end
  | _ => None
  end.

(** [StdEncoding.DecodeString(s)]: carriage returns and line feeds are
    skipped, the padding is required; [None] is an error. *)
Definition DecodeString (s : string) : option (list byte) :=
  decodeQuanta (List.filter (fun c => negb (isCRLF c)) (list_ascii_of_string s)).

End Base64.

(** *** The ECH resolver: the DNS answer of the DoH server (proxy.go) *)

Module ECH.

(** [data[i]] as a number; the callers check the bounds first. *)
Definition u8 (data : list byte) (i : nat) : nat := Byte.to_nat (nth i data x00).

(** [binary.BigEndian.Uint16(data[i : i+2])]. *)
Definition Uint16 (data : list byte) (i : nat) : nat := 256 * u8 data i + u8 data (i + 1).

(** [data[a:b]]. *)
Definition bytesSlice (data : list byte) (a b : nat) : list byte := take (b - a) (drop a data).

Definition typeHTTPS : nat := 65.

(** The loop
    [for offset < len(data) && data[offset] != 0 { offset += int(data[offset]) + 1 }].
    The offset grows at every turn, so [length data] turns are enough. *)
Fixpoint skipLabels (data : list byte) (fuel offset : nat) : nat :=
  match fuel with
  | O => offset
  | S fuel' =>
      if (offset <? length data) && negb (u8 data offset =? 0)
      then skipLabels data fuel' (offset + u8 data offset + 1)
      else offset
  end.

(** The loop of [parseHTTPSRecord] over the SvcParams. *)
Fixpoint svcParams (data : list byte) (fuel offset : nat) : string :=
  match fuel with
  | O => ""
  | S fuel' =>
      if offset + 4 <=? length data then
        let key := Uint16 data offset in
        let len := Uint16 data (offset + 2) in
        let offset := offset + 4 in
        if length data <? offset + len then ""
        else
          let value := bytesSlice data offset (offset + len) in
          if key =? 5 then Base64.EncodeToString value
          else svcParams data fuel' (offset + len)
      else ""
  end.

(** [parseHTTPSRecord(data)]. *)
Definition parseHTTPSRecord (data : list byte) : string :=
  if length data <? 2 then ""
  else
    let offset := 2 in
    let offset :=
      if (offset <? length data) && (u8 data offset =? 0) then offset + 1
      else skipLabels data (length data) offset + 1 in
    svcParams data (length data) offset.

Inductive QueryError : Type :=
| ErrBadURL
| ErrNewRequest
| ErrDoHRequest
| ErrDoHStatus (code : nat)
| ErrReadBody
| ErrResponseTooShort
| ErrNoAnswerRecords.

(** The loop of [parseDNSResponse] over the answer records; [count] is
    the number of turns left. *)
Fixpoint answers (response : list byte) (count offset : nat) : string :=
  match count with
  | O => ""
  | S count' =>
      if length response <=? offset then ""
      else
        let offset :=
          if Nat.land (u8 response offset) 192 =? 192 then offset + 2
          else skipLabels response (length response) offset + 1 in
        if length response <? offset + 10 then ""
        else
          let rrType := Uint16 response offset in
          let offset := offset + 8 in
          let dataLen := Uint16 response offset in
          let offset := offset + 2 in
          if length response <? offset + dataLen then ""
          else
            let data := bytesSlice response offset (offset + dataLen) in
            let offset := offset + dataLen in
            let ech := if rrType =? typeHTTPS then parseHTTPSRecord data else "" in
            if negb (String.eqb ech "") then ech
            else answers response count' offset
  end.

(** [parseDNSResponse(response)]: the string and the error. *)
Definition parseDNSResponse (response : list byte) : string * option QueryError :=
  if length response <? 12 then ("", Some ErrResponseTooShort)
  else
    let ancount := Uint16 response 6 in
    if ancount =? 0 then ("", Some ErrNoAnswerRecords)
    else
      let offset := skipLabels response (length response) 12 in
      (answers response ancount (offset + 5), None).

(** What the DoH exchange of [queryDoH] comes to. *)
Inductive DoHReply : Type :=
| BadURL
| NewRequestFailed
| RequestFailed
| Reply (status : nat) (body : option (list byte)).

(** [queryDoH(domain, dohURL)], and [queryHTTPSRecord] which calls it
    with the scheme added to the server name. *)
Definition queryDoH (reply : DoHReply) : string * option QueryError :=
  match reply with
  | BadURL => ("", Some ErrBadURL)
  | NewRequestFailed => ("", Some ErrNewRequest)
  | RequestFailed => ("", Some ErrDoHRequest)
  | Reply status body =>
      if negb (status =? 200) then ("", Some (ErrDoHStatus status))
      else match body with
           | None => ("", Some ErrReadBody)
           | Some b => parseDNSResponse b
           end
  end.

Definition queryHTTPSRecord (reply : DoHReply) : string * option QueryError := queryDoH reply.

Inductive EchError : Type :=
| ErrDNSQueryFailed (cause : QueryError)
| ErrECHNotFound
| ErrECHDecodeFailed.

(** [prepareECH()]: the new value of [s.echList] and the error. *)
Definition prepareECH (reply : DoHReply) (echList : list byte) : list byte * option EchError :=
  match queryHTTPSRecord reply with
  | (_, Some err) => (echList, Some (ErrDNSQueryFailed err))
  | (echBase64, None) =>
      if String.eqb echBase64 "" then (echList, Some ErrECHNotFound)
      else match Base64.DecodeString echBase64 with
           | None => (echList, Some ErrECHDecodeFailed)
           | Some raw => (raw, None)
           end
  end.

Definition refreshECH := prepareECH.

(** Bytes written as numbers. *)
Definition octets (l : list N) : list byte := map Base64.byteOfN l.

End ECH.

(** *** The DNS message that the resolver is specified on

    The wire format as section 4.1 of the specification describes it: a
    header of twelve bytes, one question, then ANCOUNT answer records,
    each named by a compression pointer or by a sequence of labels; an
    HTTPS record holds a priority, a target name and SvcParams.  The
    parser of the source is compared with [firstECH] on the encoding of
    such a message. *)

Module DNSWire.

Definition byteOfNat (n : nat) : byte := Base64.byteOfN (N.of_nat n).

(** A 16-bit number, big-endian. *)
Definition be16 (n : nat) : list byte := [byteOfNat (n / 256); byteOfNat (n mod 256)].

Definition encodeLabel (l : list byte) : list byte := byteOfNat (length l) :: l.

(** A name written out: its labels, each after its length, and the zero
    byte. *)
Definition encodeName (labels : list (list byte)) : list byte :=
flat_map encodeLabel labels ++ [x00].

(** The name of an answer record: written out, or a pointer of two
    bytes whose first byte has its two high bits set. *)
Inductive OwnerName : Type :=
| Labels (labels : list (list byte))
| Pointer (hi lo : byte).

Definition encodeOwner (n : OwnerName) : list byte :=
match n with
| Labels labels => encodeName labels
| Pointer hi lo => [hi; lo]
end.

Record SvcParam : Type := mkParam { paramKey : nat; paramValue : list byte }.

Definition encodeParam (p : SvcParam) : list byte :=
be16 (paramKey p) ++ be16 (length (paramValue p)) ++ paramValue p.

(** The data of a record: of an HTTPS record, or the bytes of a record
    of another type. *)
Inductive RData : Type :=
| HTTPS (priority : nat) (target : list (list byte)) (params : list SvcParam)
| Other (rrtype : nat) (data : list byte).

Definition rdataType (d : RData) : nat :=
match d with
| HTTPS _ _ _ => ECH.typeHTTPS
| Other t _ => t
end.

Definition encodeRData (d : RData) : list byte :=
match d with
| HTTPS priority target params =>
    be16 priority ++ encodeName target ++ flat_map encodeParam params
| Other _ data => data
end.

Record Answer : Type := mkAnswer {
  owner : OwnerName;
  rrClass : nat;
  rrTTL : list byte;
  rdata : RData
}.

Definition encodeAnswer (a : Answer) : list byte :=
encodeOwner (owner a) ++ be16 (rdataType (rdata a)) ++ be16 (rrClass a) ++ rrTTL a
++ be16 (length (encodeRData (rdata a))) ++ encodeRData (rdata a).

Record Message : Type := mkMessage {
  msgID : nat;
  msgFlags : nat;
  question : list (list byte);
  qType : nat;
  qClass : nat;
  msgAnswers : list Answer;
  nsCount : nat;
  arCount : nat;
  trailer : list byte
}.

Definition encodeHeader (m : Message) : list byte :=
be16 (msgID m) ++ be16 (msgFlags m) ++ be16 1 ++ be16 (length (msgAnswers m))
++ be16 (nsCount m) ++ be16 (arCount m).

Definition encodeMessage (m : Message) : list byte :=
encodeHeader m ++ encodeName (question m) ++ be16 (qType m) ++ be16 (qClass m)
++ flat_map encodeAnswer (msgAnswers m) ++ trailer m.

(** Well-formed: every number fits its field, a label has 1 to 63
    bytes, a pointer starts with a byte of 192 or more, and a record
    that is not given as an HTTPS record is of another type. *)
Definition wfLabel (l : list byte) : bool := (1 <=? length l) && (length l <=? 63).

Definition wfOwner (n : OwnerName) : bool :=
match n with
| Labels labels => forallb wfLabel labels
| Pointer hi _ => 192 <=? Byte.to_nat hi
end.

Definition wfParam (p : SvcParam) : bool :=
(paramKey p <? 256 * 256) && (length (paramValue p) <? 256 * 256).

Definition wfRData (d : RData) : bool :=
match d with
| HTTPS priority target params =>
    (priority <? 256 * 256) && forallb wfLabel target && forallb wfParam params
| Other t _ => (t <? 256 * 256) && negb (t =? ECH.typeHTTPS)
end.

Definition wfAnswer (a : Answer) : bool :=
wfOwner (owner a) && (rrClass a <? 256 * 256) && (length (rrTTL a) =? 4)
&& wfRData (rdata a) && (length (encodeRData (rdata a)) <? 256 * 256).

Definition wellFormed (m : Message) : bool :=
forallb wfLabel (question m) && (length (msgAnswers m) <? 256 * 256)
&& forallb wfAnswer (msgAnswers m).

(** The [ech] parameter of a record: the value of its first SvcParam
    with key 5; the empty slice when it has none. *)
Definition echOfParams (params : list SvcParam) : list byte :=
match List.find (fun p => paramKey p =? 5) params with
| Some p => paramValue p
| None => []
end.

Definition echOfAnswer (a : Answer) : list byte :=
match rdata a with
| HTTPS _ _ params => echOfParams params
| Other _ _ => []
end.

(** The ECH list of a message: the first non-empty [ech] parameter of
    its answers, in their order. *)
Fixpoint firstECH (l : list Answer) : list byte :=
match l with
| [] => []
| a :: rest =>
    match echOfAnswer a with
    | [] => firstECH rest
    | v => v
    end
end.

End DNSWire.

(** *** The client: configuration, routing, dialing, life cycle (proxy.go) *)

Module Client.

Import IPAddr.

Record Config : Type := mkConfig {
  ListenAddr : string;
  ServerAddr : string;
  ServerIP : string;
  Token : string;
  DNSServer : string;
  ECHDomain : string;
  RoutingMode : string;
  StoreDir : string
}.

Definition RoutingModeGlobal : string := "global".
Definition RoutingModeBypassCN : string := "bypass_cn".
Definition RoutingModeNone : string := "none".

Definition modeSOCKS5 : nat := 1.
Definition modeHTTPConnect : nat := 2.
Definition modeHTTPProxy : nat := 3.

(** Durations, in nanoseconds. *)
Definition second : Z := 1000000000.
Definition millisecond : Z := 1000000.
Definition connectionDeadline : Z := 30 * second.

Definition maxContentLength : Z := 10 * 1024 * 1024.
Definition readBufferSize : nat := 32 * 1024.

(** The fields of [ProxyServer] that the modelled functions read or
    write. *)
Record ProxyServer : Type := mkServer {
  config : Config;
  running : bool;
  echList : list byte;
  chinaIPRanges : list ipRange;
  chinaIPV6Ranges : list ipRangeV6;
  trafficStats : Stats.TrafficStats
}.

Definition withConfig (s : ProxyServer) (c : Config) : ProxyServer :=
  mkServer c (running s) (echList s) (chinaIPRanges s) (chinaIPV6Ranges s) (trafficStats s).

Definition withRunning (s : ProxyServer) (b : bool) : ProxyServer :=
  mkServer (config s) b (echList s) (chinaIPRanges s) (chinaIPV6Ranges s) (trafficStats s).

Definition withEchList (s : ProxyServer) (e : list byte) : ProxyServer :=
  mkServer (config s) (running s) e (chinaIPRanges s) (chinaIPV6Ranges s) (trafficStats s).

Definition withRanges (s : ProxyServer) (r : list ipRange) : ProxyServer :=
  mkServer (config s) (running s) (echList s) r (chinaIPV6Ranges s) (trafficStats s).

Definition withRangesV6 (s : ProxyServer) (r : list ipRangeV6) : ProxyServer :=
  mkServer (config s) (running s) (echList s) (chinaIPRanges s) r (trafficStats s).

Definition withStats (s : ProxyServer) (t : Stats.TrafficStats) : ProxyServer :=
  mkServer (config s) (running s) (echList s) (chinaIPRanges s) (chinaIPV6Ranges s) t.

Definition withServerIP (c : Config) (ip : string) : Config :=
  mkConfig (ListenAddr c) (ServerAddr c) ip (Token c) (DNSServer c) (ECHDomain c)
    (RoutingMode c) (StoreDir c).

Definition withRoutingMode (c : Config) (m : string) : Config :=
  mkConfig (ListenAddr c) (ServerAddr c) (ServerIP c) (Token c) (DNSServer c) (ECHDomain c)
    m (StoreDir c).

(** **** The routing decision *)

Section Routing.

(** [net.ParseIP] and [ip.String()]. *)
Variable ParseIP : string -> option IP.
Variable IPString : IP -> string.

(** The system resolver: [net.LookupIP(host)] answers with an error
    ([None]) or with addresses, and may answer differently the next
    time, so each call takes the resolver's state and returns the
    next one. *)
Variable Resolver : Type.
Variable LookupIP : string -> Resolver -> option (list IP) * Resolver.

(** [s.isPrivateIP(host)]. *)
Definition isPrivateIP (host : string) (rs : Resolver) : bool * Resolver :=
  match ParseIP host with
  | Some ip => (isPrivateIPAddress ip, rs)
  | None =>
      match LookupIP host rs with
      | (None, rs') => (false, rs')
      | (Some [], rs') => (false, rs')
      | (Some ips, rs') => (forallb isPrivateIPAddress ips, rs')
      end
  end.

(** [s.shouldBypassProxy(targetHost)]. *)
Definition shouldBypassProxy (s : ProxyServer) (targetHost : string) (rs : Resolver)
    : bool * Resolver :=
  let mode := RoutingMode (config s) in
  if String.eqb mode RoutingModeNone then (true, rs)
  else
    match isPrivateIP targetHost rs with
    | (true, rs1) => (true, rs1)
    | (false, rs1) =>
        if String.eqb mode RoutingModeGlobal then (false, rs1)
        else if String.eqb mode RoutingModeBypassCN then
          match ParseIP targetHost with
          | Some _ =>
              (isChinaIP ParseIP (chinaIPRanges s) (chinaIPV6Ranges s) targetHost, rs1)
          | None =>
              match LookupIP targetHost rs1 with
              | (None, rs2) => (false, rs2)
              | (Some ips, rs2) =>
                  (existsb (fun ip => isChinaIP ParseIP (chinaIPRanges s)
                                        (chinaIPV6Ranges s) (IPString ip)) ips, rs2)
              end
          end
        else (false, rs1)
    end.

End Routing.

(** **** Dialing the relay *)

(** [strings.Contains(s, sub)]. *)
Fixpoint Contains (s sub : string) : bool :=
  if String.prefix sub s then true
  else match s with
       | EmptyString => false
       | String _ s' => Contains s' sub
       end.

(** [s.parseServerAddr()]: host, port and path, or the error of
    [net.SplitHostPort]. *)
Definition parseServerAddr (s : ProxyServer) : (string * string * string) + AddrError :=
  let addr := ServerAddr (config s) in
  let '(addr, path) :=
    match IndexByte addr "/" with
    | Some slashIdx => (upto slashIdx addr, from slashIdx addr)
    | None => (addr, "/")
    end in
  match SplitHostPort addr with
  | inl (host, port) => inl (host, port, path)
  | inr e => inr e
  end.

(** What one attempt of [dialWebSocketWithECH] hands to the WebSocket
    library once the TLS configuration is built: the URL, the TLS
    server name, the ECH list, the subprotocols, and the address the
    TCP connection is opened to ([tcpAddress], an error when the
    [NetDial] hook fails). *)
Record DialAttempt : Type := mkAttempt {
  wsURL : string;
  tlsServerName : string;
  tlsECHList : list byte;
  subprotocols : list string;
  tcpAddress : string + AddrError
}.

(** The address that the library passes to the dial function for
    [wss://host:port/path]: the host and port of the URL. *)
Definition urlHostPort (host port : string) : string := host +:+ ":" +:+ port.

(** The body of the retry loop of [dialWebSocketWithECH] up to the call
    of [dialer.Dial]. *)
Definition dialAttempt (cfg : Config) (host port path : string) (echBytes : list byte)
    : DialAttempt :=
  let address := urlHostPort host port in
  mkAttempt
    ("wss://" +:+ host +:+ ":" +:+ port +:+ path)
    host
    echBytes
    (if negb (String.eqb (Token cfg) "") then [Token cfg] else [])
    (if negb (String.eqb (ServerIP cfg) "") then
       match SplitHostPort address with
       | inl (_, p) => inl (JoinHostPort (ServerIP cfg) p)
       | inr e => inr e
       end
     else inl address).

(** What [buildTLSConfigWithECH] depends on outside the program: the
    error of [x509.SystemCertPool], if any, and whether [tls.Config]
    has the two ECH fields that [setECHConfig] sets by reflection (Go
    1.23 and later). *)
Record TLSEnv : Type := mkTLSEnv {
  systemCertPoolErr : option string;
  hasConfigListField : bool;
  hasRejectionVerifyField : bool
}.

Inductive TLSError : Type :=
| ErrSystemRoots (msg : string)
| ErrECHListEmpty
| ErrNoConfigListField
| ErrNoRejectionVerifyField.

(** [buildTLSConfigWithECH(serverName, echList)]: the server name and
    the ECH list of the configuration, or the error. *)
Definition buildTLSConfigWithECH (env : TLSEnv) (serverName : string) (echList : list byte)
    : (string * list byte) + TLSError :=
  match systemCertPoolErr env with
  | Some msg => inr (ErrSystemRoots msg)
  | None =>
      if length echList =? 0 then inr ErrECHListEmpty
      else if negb (hasConfigListField env) then inr ErrNoConfigListField
      else if negb (hasRejectionVerifyField env) then inr ErrNoRejectionVerifyField
      else inl (serverName, echList)
  end.

Inductive DialFailure : Type :=
| BadServerAddr (e : AddrError)
| ECHNotLoaded
| TLSConfigErr (e : TLSError)
| DialErr (msg : string)
| RetriesExhausted.

(** [s.getECHList()]. *)
Definition getECHList (s : ProxyServer) : option (list byte) :=
  match echList s with
  | [] => None
  | l => Some l
  end.

(** [s.refreshECH()], the error dropped as the callers drop it. *)
Definition refreshed (reply : ECH.DoHReply) (s : ProxyServer) : ProxyServer :=
  withEchList s (fst (ECH.refreshECH reply (echList s))).

(** The retry loop of [dialWebSocketWithECH(maxRetries)], the loop
    [for attempt := 1; attempt <= maxRetries; attempt++].  [wsDial]
    gives the error of [dialer.Dial] for an attempt, if it fails;
    [doh k] is the DoH reply that attempt [k] gets when it refreshes
    the ECH list; [left] counts the turns left, [maxRetries] of them at
    the start, none when [maxRetries] is zero or negative. *)
Fixpoint dialLoop (env : TLSEnv) (wsDial : nat -> DialAttempt -> option string)
    (doh : nat -> ECH.DoHReply) (host port path : string) (maxRetries : Z)
    (left attempt : nat) (s : ProxyServer) : ProxyServer * (DialAttempt + DialFailure) :=
  match left with
  | O => (s, inr RetriesExhausted)
  | S left' =>
      match getECHList s with
      | None =>
          if (Z.of_nat attempt <? maxRetries)%Z
          then dialLoop env wsDial doh host port path maxRetries left' (attempt + 1)
                 (refreshed (doh attempt) s)
          else (s, inr ECHNotLoaded)
      | Some echBytes =>
          match buildTLSConfigWithECH env host echBytes with
          | inr tlsErr => (s, inr (TLSConfigErr tlsErr))
          | inl _ =>
              let a := dialAttempt (config s) host port path echBytes in
              match wsDial attempt a with
              | Some dialErr =>
                  if Contains dialErr "ECH" && (Z.of_nat attempt <? maxRetries)%Z
                  then dialLoop env wsDial doh host port path maxRetries left' (attempt + 1)
                         (refreshed (doh attempt) s)
                  else (s, inr (DialErr dialErr))
              | None => (s, inl a)
              end
          end
      end
  end.

(** [s.dialWebSocketWithECH(maxRetries)]. *)
Definition dialWebSocketWithECH (env : TLSEnv) (wsDial : nat -> DialAttempt -> option string)
    (doh : nat -> ECH.DoHReply) (maxRetries : Z) (s : ProxyServer)
    : ProxyServer * (DialAttempt + DialFailure) :=
  match parseServerAddr s with
  | inr e => (s, inr (BadServerAddr e))
  | inl (host, port, path) =>
      dialLoop env wsDial doh host port path maxRetries (Z.to_nat maxRetries) 1 s
  end.

(** **** Start *)

(** How [Start] ends when it does not return [nil]: with one of its
    three errors, or, in [StartPanic], not at all: a loader of the
    routing data panics ([LoadPanic]), which nothing recovers. *)
Inductive StartError : Type :=
| AlreadyRunning
| ECHFailed (e : ECH.EchError)
| ListenFailed
| StartPanic.

Section Lifecycle.

Variable ParseIP : string -> option IP.

(** [s.loadRoutingData()]: the lists are loaded in mode [bypass_cn]
    only (their errors are logged), and an unknown mode becomes
    [global].  The function returns [nil], unless a loader panics:
    then the second component is [true]. *)
Definition loadRoutingData (v4 v6 : ListFile) (s : ProxyServer) : ProxyServer * bool :=
  let mode := RoutingMode (config s) in
  if String.eqb mode RoutingModeBypassCN then
    match loadChinaIPList ParseIP v4 (chinaIPRanges s) with
    | (ranges, LoadPanic) => (withRanges s ranges, true)
    | (ranges, _) =>
        let s := withRanges s ranges in
        match loadChinaIPV6List ParseIP v6 (chinaIPV6Ranges s) with
        | (ranges6, LoadPanic) => (withRangesV6 s ranges6, true)
        | (ranges6, _) => (withRangesV6 s ranges6, false)
        end
    end
  else if String.eqb mode RoutingModeGlobal then (s, false)
  else if String.eqb mode RoutingModeNone then (s, false)
  else (withConfig s (withRoutingMode (config s) RoutingModeGlobal), false).

(** [s.Start()].  [reply] is the DoH reply to [prepareECH], [v4] and
    [v6] are the list files, [listenOk] tells whether [net.Listen]
    succeeds. *)
Definition Start (reply : ECH.DoHReply) (v4 v6 : ListFile) (listenOk : bool)
    (s : ProxyServer) : ProxyServer * option StartError :=
  if running s then (s, Some AlreadyRunning)
  else
    let s := withRunning s true in
    match ECH.prepareECH reply (echList s) with
    | (_, Some err) => (withRunning s false, Some (ECHFailed err))
    | (ech, None) =>
        let s := withEchList s ech in
        match loadRoutingData v4 v6 s with
        | (s, true) => (s, Some StartPanic)
        | (s, false) =>
            if negb listenOk then (withRunning s false, Some ListenFailed)
            else
              let s :=
                if String.eqb (ServerIP (config s)) ""
                then withConfig s (withServerIP (config s) "www.visa.com")
                else s in
              (s, None)
        end
    end.

End Lifecycle.

End Client.

(** *** The client: the listener, the protocol handlers and the sessions
    (proxy.go) *)

Module Proxy.

Import IPAddr Client.

Definition LF : ascii := "010"%char.
Definition CRLF : string := String "013"%char (String LF EmptyString).

(** [reader.ReadString('\n')] on the bytes that the client sends: the
    line with its delimiter and what is left, [None] when the bytes end
    before a delimiter (the error case). *)
Fixpoint ReadString (reader : string) : option (string * string) :=
  match reader with
  | EmptyString => None
  | String c rest =>
      if Ascii.eqb c LF then Some (String c EmptyString, rest)
      else match ReadString rest with
           | Some (line, rest') => Some (String c line, rest')
           | None => None
           end
  end.

(** [io.ReadFull(reader, buf)] for a buffer of [n] bytes. *)
Definition ReadFull (n : nat) (reader : string) : option (string * string) :=
  if String.length reader <? n then None else Some (upto n reader, from n reader).

(** [headers[key]] on a [map[string]string]. *)
Definition header (headers : gmap string string) (key : string) : string :=
  default "" (headers !! key).

(** What the header loop does to the [headers] map for one line: a line
    with a colon behind its first byte sets the lower-cased key. *)
Definition recordHeader (headers : gmap string string) (line : string) : gmap string string :=
match IndexByte line ":" with
| Some (S i) =>
    let idx := S i in
    let key := TrimSpace (upto idx line) in
    let value := TrimSpace (from (idx + 1) line) in
    <[ToLower key := value]> headers
| _ => headers
end.

(** The header loop of [handleHTTP].  Every line read takes at least
    one byte, so [String.length reader] turns are enough. *)
Fixpoint readHeaders (fuel : nat) (reader : string) (headerLines : list string)
    (headers : gmap string string) : option (list string * gmap string string * string) :=
match fuel with
| O => None
| S fuel' =>
    match ReadString reader with
    | None => None
    | Some (line, reader') =>
        let line := TrimRightCRLF line in
        if String.eqb line "" then Some (headerLines, headers, reader')
        else readHeaders fuel' reader' (headerLines ++ [line]) (recordHeader headers line)
    end
end.

(** [fmt.Sscanf(s, "%d", &length)] with [length] zero before: the
    value left in [length].  The verb skips leading space, takes a sign
    and the longest run of digits and underscores, and fails (leaving
    zero) when the run is empty, holds an underscore or exceeds
    [int64]. *)
Definition isDigit (c : ascii) : bool :=
  let n := nat_of_ascii c in (48 <=? n) && (n <=? 57).

Fixpoint scanNumber (s : string) : string :=
  match s with
  | String c s' =>
      if isDigit c || Ascii.eqb c "_" then String c (scanNumber s') else EmptyString
  | EmptyString => EmptyString
  end.

Fixpoint digitsValue (acc : Z) (tok : string) : option Z :=
  match tok with
  | EmptyString => Some acc
  | String c tok' =>
      if isDigit c then digitsValue (10 * acc + (Z.of_nat (nat_of_ascii c) - 48))%Z tok'
      else None
  end.

Definition Sscanf_d (s : string) : Z :=
  let s := TrimLeftFunc isSpace s in
  let '(neg, rest) :=
    match s with
    | String "+"%char r => (false, r)
    | String "-"%char r => (true, r)
    | _ => (false, s)
    end in
  match scanNumber rest with
  | EmptyString => 0%Z
  | tok =>
      match digitsValue 0 tok with
      | Some v =>
          let i := if neg then (- v)%Z else v in
          if ((- 2 ^ 63 <=? i) && (i <? 2 ^ 63))%Z then i else 0%Z
      | None => 0%Z
      end
  end.

(** What a protocol handler goes on to do once it has read the
    request. *)
Inductive Next : Type :=
| Stop
| CallTunnel (target : string) (mode : nat) (firstFrame : string)
| CallUDPAssociate.

(** The writes a handler makes on the client socket, oldest first, and
    what it goes on to do. *)
Definition Handled : Type := list string * Next.

Definition forwardedMethods : list string :=
  ["GET"; "POST"; "PUT"; "DELETE"; "HEAD"; "OPTIONS"; "PATCH"; "TRACE"].

Definition isForwarded (method : string) : bool :=
  existsb (String.eqb method) forwardedMethods.

(** The header lines that [handleHTTP] copies into the first frame. *)
Definition keptHeader (line : string) : bool :=
  let keyLower := ToLower (TrimSpace (SplitHead line ":")) in
  negb (String.eqb keyLower "proxy-connection")
  && negb (String.eqb keyLower "proxy-authorization").

Fixpoint writeHeaders (headerLines : list string) : string :=
  match headerLines with
  | [] => ""
  | line :: rest =>
      if keptHeader line then line +:+ CRLF +:+ writeHeaders rest
      else writeHeaders rest
  end.

(** A request as the client writes it: the request line, the header
    lines, the blank line, and what follows. *)
Fixpoint headerBlock (lines : list string) : string :=
match lines with
| [] => ""
| line :: rest => line +:+ CRLF +:+ headerBlock rest
end.

Definition requestOf (method requestURL httpVersion : string) (lines : list string)
    (rest : string) : string :=
method +:+ " " +:+ requestURL +:+ " " +:+ httpVersion +:+ CRLF
+:+ headerBlock lines +:+ CRLF +:+ rest.

(** A word of the request line: not empty, no white space. *)
Fixpoint noSpace (s : string) : bool :=
match s with
| EmptyString => true
| String c s' => negb (isSpace c) && noSpace s'
end.

Definition isWord (s : string) : bool := negb (String.eqb s "") && noSpace s.

(** A header line: not empty, no line feed in it, no carriage return at
    its end. *)
Definition isHeaderLine (line : string) : bool :=
negb (String.eqb line "")
&& negb (ContainsByte line LF)
&& String.eqb (TrimRightCRLF line) line.

(** The target and the path that [handleHTTP] takes from the request
    URL and the [Host] header, before the test for an empty target. *)
Definition targetAndPath (requestURL : string) (headers : gmap string string)
    : string * string :=
  if HasPrefix requestURL "http://" then
    let urlWithoutScheme := TrimPrefix requestURL "http://" in
    match IndexByte urlWithoutScheme "/" with
    | Some (S i) => (upto (S i) urlWithoutScheme, from (S i) urlWithoutScheme)
    | _ => (urlWithoutScheme, "/")
    end
  else (header headers "host", requestURL).

(** The body that [handleHTTP] appends after the blank line. *)
Definition requestBody (headers : gmap string string) (reader : string) : string :=
  let contentLength := header headers "content-length" in
  if negb (String.eqb contentLength "") then
    let len := Sscanf_d contentLength in
    if ((0 <? len) && (len <? maxContentLength))%Z then
      match ReadFull (Z.to_nat len) reader with
      | Some (body, _) => body
      | None => ""
      end
    else ""
  else "".

(** [s.handleHTTP(conn, clientAddr, firstByte)]: [input] is what the
    reader yields, the first byte put back in front. *)
Definition handleHTTP (input : string) : Handled :=
  match ReadString input with
  | None => ([], Stop)
  | Some (requestLine, reader) =>
      match Fields requestLine with
      | method :: requestURL :: httpVersion :: _ =>
          match readHeaders (String.length reader) reader [] ∅ with
          | None => ([], Stop)
          | Some (headerLines, headers, reader) =>
              if String.eqb method "CONNECT" then
                ([], CallTunnel requestURL modeHTTPConnect "")
              else if isForwarded method then
                let '(target, path) := targetAndPath requestURL headers in
                if String.eqb target "" then
                  (["HTTP/1.1 400 Bad Request" +:+ CRLF +:+ CRLF], Stop)
                else
                  let target :=
                    if negb (ContainsByte target ":") then target +:+ ":80" else target in
                  let firstFrame :=
                    method +:+ " " +:+ path +:+ " " +:+ httpVersion +:+ CRLF
                    +:+ writeHeaders headerLines +:+ CRLF
                    +:+ requestBody headers reader in
                  ([], CallTunnel target modeHTTPProxy firstFrame)
              else (["HTTP/1.1 405 Method Not Allowed" +:+ CRLF +:+ CRLF], Stop)
          end
      | _ => ([], Stop)
      end
  end.

(** Bytes written as Go byte literals. *)
Definition bytes (l : list nat) : string := string_of_list_ascii (map ascii_of_nat l).

Definition socksReply (code : nat) : string := bytes [5; code; 0; 1; 0; 0; 0; 0; 0; 0].

Section Handlers.

Variable ParseIP : string -> option IP.
Variable IPString : IP -> string.
Variable Resolver : Type.
Variable LookupIP : string -> Resolver -> option (list IP) * Resolver.

(** [s.handleSOCKS5(conn, clientAddr, firstByte)] for the first byte
    5: [input] is what the client sends after it, [helloWriteErr] the
    error of the write of the method selection, if it fails (the
    handler then returns; the bytes of a failed write are not counted
    as written). *)
Definition handleSOCKS5 (helloWriteErr : option string) (input : string) : Handled :=
  match ReadFull 1 input with
  | None => ([], Stop)
  | Some (buf, input) =>
      let nmethods := nat_of_ascii (default zero (at_ buf 0)) in
      match ReadFull nmethods input with
      | None => ([], Stop)
      | Some (_, input) =>
          let hello := [bytes [5; 0]] in
          match helloWriteErr with
          | Some _ => ([], Stop)
          | None =>
          match ReadFull 4 input with
          | None => (hello, Stop)
          | Some (buf, input) =>
              let b (i : nat) := nat_of_ascii (default zero (at_ buf i)) in
              if negb (b 0 =? 5) then (hello, Stop)
              else
                let command := b 1 in
                let atyp := b 3 in
                let address : option (option (string * string)) :=
                  if atyp =? 1 then
                    Some (match ReadFull 4 input with
                          | Some (a, input) => Some (IPString (list_byte_of_string a), input)
                          | None => None
                          end)
                  else if atyp =? 3 then
                    Some (match ReadFull 1 input with
                          | Some (l, input) => ReadFull (nat_of_ascii (default zero (at_ l 0))) input
                          | None => None
                          end)
                  else if atyp =? 4 then
                    Some (match ReadFull 16 input with
                          | Some (a, input) => Some (IPString (list_byte_of_string a), input)
                          | None => None
                          end)
                  else None in
                match address with
                | None => (hello ++ [socksReply 8], Stop)
                | Some None => (hello, Stop)
                | Some (Some (host, input)) =>
                    match ReadFull 2 input with
                    | None => (hello, Stop)
                    | Some (p, _) =>
                        let port :=
                          256 * nat_of_ascii (default zero (at_ p 0))
                          + nat_of_ascii (default zero (at_ p 1)) in
                        if command =? 1 then
                          let target :=
                            if atyp =? 4 then "[" +:+ host +:+ "]:" +:+ pretty port
                            else host +:+ ":" +:+ pretty port in
                          (hello, CallTunnel target modeSOCKS5 "")
                        else if command =? 3 then (hello, CallUDPAssociate)
                        else (hello ++ [socksReply 7], Stop)
                    end
                end
          end
          end
      end
  end.

(** The client socket: its read and write deadlines ([None] when
    there is none) and the writes made on it, oldest first. *)
Record Conn : Type := mkConn {
  readDeadline : option Z;
  writeDeadline : option Z;
  written : list string
}.

(** [conn.SetDeadline(t)], [conn.SetReadDeadline(t)], [conn.Write(b)]. *)
Definition SetDeadline (t : option Z) (c : Conn) : Conn := mkConn t t (written c).

Definition SetReadDeadline (t : option Z) (c : Conn) : Conn :=
  mkConn t (writeDeadline c) (written c).

Definition Write (b : string) (c : Conn) : Conn :=
  mkConn (readDeadline c) (writeDeadline c) (written c ++ [b]).

(** [sendErrorResponse(conn, mode)]. *)
Definition sendErrorResponse (mode : nat) (c : Conn) : Conn :=
  if mode =? modeSOCKS5 then Write (socksReply 4) c
  else if (mode =? modeHTTPConnect) || (mode =? modeHTTPProxy)
  then Write ("HTTP/1.1 502 Bad Gateway" +:+ CRLF +:+ CRLF) c
  else c.

(** [sendSuccessResponse(conn, mode)]; the error of the write is the
    caller's to give. *)
Definition sendSuccessResponse (mode : nat) (c : Conn) : Conn :=
  if mode =? modeSOCKS5 then Write (socksReply 0) c
  else if mode =? modeHTTPConnect
  then Write ("HTTP/1.1 200 Connection Established" +:+ CRLF +:+ CRLF) c
  else c.

(** What the world answers to one session: the time, the outcome of
    each dial of the relay and of each ECH refresh, the bytes that
    the client has sent when the 100 ms read returns, the error of
    the write of the CONNECT message, the first message of the relay
    ([None] for a read error), the errors of the success reply, of
    the direct dial and of the first write on the direct connection,
    what the TLS configuration depends on, and the error of the write
    of the SOCKS5 method selection. *)
Record World : Type := mkWorld {
  clock : Z;
  wsDial : nat -> DialAttempt -> option string;
  doh : nat -> ECH.DoHReply;
  earlyRead : string;
  connectWriteErr : option string;
  relayAnswer : option string;
  successWriteErr : option string;
  targetDialErr : option string;
  targetWriteErr : option string;
  tlsEnv : TLSEnv;
  helloWriteErr : option string
}.

(** The first frame after the step "try to read the first frame":
    in SOCKS5 mode, when the handler brought none, what the client
    has sent within the 100 ms of the read, if anything. *)
Definition firstFrameSent (w : World) (mode : nat) (firstFrame : string) : string :=
  if String.eqb firstFrame "" && (mode =? modeSOCKS5) then
    let got := upto readBufferSize (earlyRead w) in
    if 0 <? String.length got then got else firstFrame
  else firstFrame.

(** Where a session stands when [handleTunnel] returns or starts the
    two relay goroutines: the socket, the server, the resolver, the
    messages sent on the WebSocket and the writes made on the direct
    connection. *)
Record State : Type := mkState {
  conn : Conn;
  server : ProxyServer;
  resolver : Resolver;
  wsOut : list Relay.WsMessage;
  directAddr : option string;
  directOut : list string
}.

(** The error that a session returns. *)
Inductive SessionError : Type :=
| ErrRelayDial (f : DialFailure)
| ErrRelayWrite (msg : string)
| ErrRelayRead
| ErrRelayRefused (response : string)
| ErrUnexpectedResponse (response : string)
| ErrDirectDial (msg : string)
| ErrClientWrite (msg : string)
| ErrTargetWrite (msg : string).

(** How the handshake of a session ends: the handler returns, or the
    two relay goroutines start, over the tunnel or over the direct
    connection. *)
Inductive Outcome : Type :=
| Returned (err : option SessionError)
| StreamingTunnel
| StreamingDirect.

Definition onConn (f : Conn -> Conn) (st : State) : State :=
  mkState (f (conn st)) (server st) (resolver st) (wsOut st) (directAddr st) (directOut st).

Definition onStats (f : Stats.TrafficStats -> Stats.TrafficStats) (st : State) : State :=
  mkState (conn st) (withStats (server st) (f (trafficStats (server st))))
    (resolver st) (wsOut st) (directAddr st) (directOut st).

(** The message of step "send the connection request". *)
Definition connectMsg (target firstFrame : string) : string :=
  "CONNECT:" +:+ target +:+ "|" +:+ firstFrame.

(** [s.handleDirectConnection(conn, target, clientAddr, mode, firstFrame, targetHost)]. *)
Definition handleDirectConnection (w : World) (target : string) (mode : nat)
    (firstFrame targetHost : string) (st : State) : State * Outcome :=
  let target :=
    match SplitHostPort target with
    | inl _ => target
    | inr _ => JoinHostPort target (if mode =? modeHTTPProxy then "80" else "443")
    end in
  match targetDialErr w with
  | Some err => (onConn (sendErrorResponse mode) st, Returned (Some (ErrDirectDial err)))
  | None =>
      let st := mkState (conn st) (server st) (resolver st) (wsOut st) (Some target) [] in
      let st := onConn (sendSuccessResponse mode) st in
      match successWriteErr w with
      | Some err => (st, Returned (Some (ErrClientWrite err)))
      | None =>
          if negb (String.eqb firstFrame "") then
            match targetWriteErr w with
            | Some err => (st, Returned (Some (ErrTargetWrite err)))
            | None =>
                let st := mkState (conn st) (server st) (resolver st) (wsOut st)
                            (directAddr st) [firstFrame] in
                (onStats (Stats.RecordUpload (clock w) targetHost
                            (Z.of_nat (String.length firstFrame))) st,
                 StreamingDirect)
            end
          else (st, StreamingDirect)
      end
  end.

(** [s.handleTunnel(conn, target, clientAddr, mode, firstFrame)], up
    to the start of the two relay goroutines. *)
Definition handleTunnel (w : World) (target : string) (mode : nat) (firstFrame : string)
    (st : State) : State * Outcome :=
  let targetHost :=
    match SplitHostPort target with
    | inl (h, _) => h
    | inr _ => target
    end in
  let st := onStats (Stats.RecordConnection (clock w) targetHost) st in
  let '(bypass, rs) :=
    shouldBypassProxy ParseIP IPString Resolver LookupIP (server st) targetHost (resolver st) in
  let st := mkState (conn st) (server st) rs (wsOut st) (directAddr st) (directOut st) in
  if bypass then handleDirectConnection w target mode firstFrame targetHost st
  else
    match dialWebSocketWithECH (tlsEnv w) (wsDial w) (doh w) 2 (server st) with
    | (s', inr f) =>
        let st := mkState (conn st) s' (resolver st) (wsOut st) (directAddr st) (directOut st) in
        (onConn (sendErrorResponse mode) st, Returned (Some (ErrRelayDial f)))
    | (s', inl _) =>
        let st := mkState (conn st) s' (resolver st) (wsOut st) (directAddr st) (directOut st) in
        let st := onConn (SetDeadline None) st in
        let st :=
          if String.eqb firstFrame "" && (mode =? modeSOCKS5) then
            let st := onConn (SetReadDeadline (Some (clock w + 100 * millisecond)%Z)) st in
            onConn (SetReadDeadline None) st
          else st in
        let firstFrame := firstFrameSent w mode firstFrame in
        match connectWriteErr w with
        | Some err => (onConn (sendErrorResponse mode) st, Returned (Some (ErrRelayWrite err)))
        | None =>
            let st := mkState (conn st) (server st) (resolver st)
                        (wsOut st ++ [Relay.TextMessage (connectMsg target firstFrame)])
                        (directAddr st) (directOut st) in
            let st :=
              if negb (String.eqb firstFrame "")
              then onStats (Stats.RecordUpload (clock w) targetHost
                              (Z.of_nat (String.length firstFrame))) st
              else st in
            match relayAnswer w with
            | None => (onConn (sendErrorResponse mode) st, Returned (Some ErrRelayRead))
            | Some response =>
                if HasPrefix response "ERROR:"
                then (onConn (sendErrorResponse mode) st,
                      Returned (Some (ErrRelayRefused response)))
                else if negb (String.eqb response "CONNECTED")
                then (onConn (sendErrorResponse mode) st,
                      Returned (Some (ErrUnexpectedResponse response)))
                else
                  let st := onConn (sendSuccessResponse mode) st in
                  match successWriteErr w with
                  | Some err => (st, Returned (Some (ErrClientWrite err)))
                  | None => (st, StreamingTunnel)
                  end
            end
        end
    end.

(** [s.handleConnection(conn)] for a connection accepted at time
    [now] on which the client sends [input].  The UDP relay of
    [handleUDPAssociate] is not followed. *)
Definition handleConnection (w : World) (now : Z) (input : string)
    (s : ProxyServer) (rs : Resolver) : State * Outcome :=
  let c := SetDeadline (Some (now + connectionDeadline)%Z) (mkConn None None []) in
  let st := mkState c s rs [] None [] in
  match input with
  | EmptyString => (st, Returned None)
  | String first rest =>
      let n := nat_of_ascii first in
      let handled : option Handled :=
        if n =? 5 then Some (handleSOCKS5 (helloWriteErr w) rest)
        else if existsb (Ascii.eqb first) ["C"; "G"; "P"; "H"; "D"; "O"; "T"]%char
        then Some (handleHTTP input)
        else None in
      match handled with
      | None => (st, Returned None)
      | Some (writes, next) =>
          let st := onConn (fun c => fold_left (fun c b => Write b c) writes c) st in
          match next with
          | Stop => (st, Returned None)
          | CallUDPAssociate => (st, Returned None)
          | CallTunnel target mode firstFrame => handleTunnel w target mode firstFrame st
          end
      end
  end.

End Handlers.

Arguments mkState {Resolver} conn server resolver wsOut directAddr directOut.
Arguments conn {Resolver} s.
Arguments server {Resolver} s.
Arguments resolver {Resolver} s.
Arguments wsOut {Resolver} s.
Arguments directAddr {Resolver} s.
Arguments directOut {Resolver} s.
Arguments onConn {Resolver} f st.
Arguments onStats {Resolver} f st.

End Proxy.

(** *** Instances of the parameters, for the examples

    The theorems below hold for every [ParseIP], [IPString] and
    resolver.  The examples run the functions on this instance: the
    dotted-decimal IPv4 part of [net.ParseIP] and of [ip.String()], and a
    resolver that is a fixed table. *)

Module Fixtures.

Import IPAddr Client Proxy.

(** A decimal number of one to three digits without a leading zero, at
    most 255. *)
Definition parseOctet (s : string) : option byte :=
match s with
| EmptyString => None
| String "0"%char (String _ _) => None
| _ =>
    if String.length s <=? 3 then
      match digitsValue 0 s with
      | Some v => if (v <=? 255)%Z then Byte.of_N (Z.to_N v) else None
      | None => None
      end
    else None
end.

(** The strings between the dots. *)
Fixpoint splitDots (cur : list ascii) (s : string) : list string :=
match s with
| EmptyString => [string_of_list_ascii (rev cur)]
| String c s' =>
    if Ascii.eqb c "."%char then string_of_list_ascii (rev cur) :: splitDots [] s'
    else splitDots (c :: cur) s'
end.

Definition parseIPv4 (s : string) : option IP :=
match map parseOctet (splitDots [] s) with
| [Some a; Some b; Some c; Some d] => Some (v4InV6Prefix ++ [a; b; c; d])
| _ => None
end.

Definition ipv4String (ip : IP) : string :=
match To4 ip with
| Some [a; b; c; d] =>
    pretty (Byte.to_N a) +:+ "." +:+ pretty (Byte.to_N b) +:+ "."
    +:+ pretty (Byte.to_N c) +:+ "." +:+ pretty (Byte.to_N d)
| _ => "?"
end.

(** A resolver that answers from a table and never changes. *)
Definition tableLookup (table : list (string * list IP)) (host : string) (rs : unit)
  : option (list IP) * unit :=
(match List.find (fun e => String.eqb (fst e) host) table with
 | Some e => Some (snd e)
 | None => None
 end, rs).

Definition ip4 (a b c d : N) : IP := v4InV6Prefix ++ ECH.octets [a; b; c; d].

(** A DNS answer to the HTTPS query for cloudflare-ech.com: one HTTPS
    record, named by a pointer to the question, with priority 1, the
    root as target, [alpn=h2] and an [ech] parameter of four bytes. *)
Definition echAnswer : list byte :=
ECH.octets
  [0; 1; 0x81; 0x80; 0; 1; 0; 1; 0; 0; 0; 0;
   14; 99; 108; 111; 117; 100; 102; 108; 97; 114; 101; 45; 101; 99; 104;
   3; 99; 111; 109; 0; 0; 65; 0; 1;
   0xc0; 0x0c; 0; 65; 0; 1; 0; 0; 1; 44; 0; 18;
   0; 1; 0; 0; 1; 0; 3; 2; 104; 50; 0; 5; 0; 4; 0xde; 0xad; 0xbe; 0xef]%N.

Definition echValue : list byte := ECH.octets [0xde; 0xad; 0xbe; 0xef]%N.

(** The message that [echAnswer] encodes. *)
Definition echMessage : DNSWire.Message :=
DNSWire.mkMessage 1 0x8180
  [list_byte_of_string "cloudflare-ech"; list_byte_of_string "com"] 65 1
  [DNSWire.mkAnswer (DNSWire.Pointer xc0 x0c) 1 (ECH.octets [0; 0; 1; 44]%N)
     (DNSWire.HTTPS 1 []
        [DNSWire.mkParam 1 (ECH.octets [2; 104; 50]%N); DNSWire.mkParam 5 echValue])]
  0 0 [].

(** The same answer with ANCOUNT = 0 and no answer section. *)
Definition emptyAnswer : list byte :=
ECH.octets
  [0; 1; 0x81; 0x80; 0; 1; 0; 0; 0; 0; 0; 0;
   14; 99; 108; 111; 117; 100; 102; 108; 97; 114; 101; 45; 101; 99; 104;
   3; 99; 111; 109; 0; 0; 65; 0; 1]%N.

(** The configuration of the command line client with its defaults, for
    a relay at x.workers.dev:443. *)
Definition defaultConfig (routing : string) : Config :=
mkConfig "127.0.0.1:30000" "x.workers.dev:443" "" "147258369"
  "dns.alidns.com/dns-query" "cloudflare-ech.com" routing "/tmp/.echplus".

(** [NewProxyServer(cfg)] with no saved statistics. *)
Definition newServer (cfg : Config) : ProxyServer :=
mkServer cfg false [] [] [] (Stats.NewTrafficStats (StoreDir cfg) None).

(** A China list of two ranges, and the server of a client in mode
    [bypass_cn] that has loaded it. *)
Definition cnFile : ListFile :=
Lines ["# China"; "114.0.0.0 114.255.255.255"; ""; "1.0.0.0  1.255.255.255"] false.

Definition cnServer : ProxyServer :=
withRanges (withEchList (newServer (defaultConfig "bypass_cn")) echValue)
  (fst (loadChinaIPList parseIPv4 cnFile [])).

(** A resolver table: a name with one foreign and one Chinese address,
    a name with foreign addresses only, and a name inside a LAN. *)
Definition dnsTable : list (string * list IP) :=
[("mixed.example", [ip4 1 2 3 4; ip4 114 114 114 114]);
 ("foreign.example", [ip4 8 8 8 8]);
 ("nas.lan", [ip4 192 168 1 10])]%N.

(** A world in which everything succeeds: the relay answers CONNECTED
    and the client has sent nothing more when the 100 ms read returns. *)
Definition calmWorld : World :=
mkWorld 0 (fun _ _ => None) (fun _ => ECH.Reply 200 (Some echAnswer)) ""
  None (Some "CONNECTED") None None None (mkTLSEnv None true true) None.

End Fixtures.

(** *** The frames of a relay session that carry data *)

Module RelayFrames.

Import Relay.

(** A frame that the read loop writes to the target: a binary frame, or
    a text frame that starts with [DATA:]. *)
Definition isData (m : WsMessage) : bool :=
match m with
| TextMessage msg => HasPrefix msg "DATA:"
| BinaryMessage _ => true
end.

(** The bytes of such a frame that go to the target. *)
Definition payload (m : WsMessage) : string :=
match m with
| TextMessage msg => from 5 msg
| BinaryMessage data => data
end.

(** The replies of the read loop: [CONNECTED], or an error text. *)
Definition isReply (m : WsMessage) : Prop :=
m = TextMessage "CONNECTED" \/ exists err, m = TextMessage ("ERROR:" +:+ err).

End RelayFrames.

(** Requests for the examples of the upgrade handler, with the header
    keys in the canonical form in which net/http stores them. *)

Module RelayFixtures.

Import Relay.




End RelayFixtures.

(** *** The views of the traffic statistics (traffic_stats.go) *)

Module TopSites.

Import Stats.

Local Open Scope Z_scope.

(** The traffic of a site as [GetTopSites] compares it: the [int64] sum
    of its two counters. *)
Definition traffic (s : SiteStats) : Z := add64 (Upload s) (Download s).

(** The [less] function that [GetTopSites] gives to [sort.Slice]. *)
Definition busier (a b : SiteStats) : bool := traffic b <? traffic a.

Section WithSort.

(** The order in which a [range] loop visits the entries of a map, which
    Go leaves open, and [sort.Slice]. *)
Variable rangeOrder : gmap string SiteStats -> list SiteStats.
Variable sortSlice : (SiteStats -> SiteStats -> bool) -> list SiteStats -> list SiteStats.

(** [GetAllStats()]: a copy of every entry. *)
Definition GetAllStats (ts : TrafficStats) : list SiteStats :=
  map (fun stats => mkSite (Host stats) (Upload stats) (Download stats) (Connections stats)
                      (LastAccess stats) (FirstAccess stats))
    (rangeOrder (sites ts)).

(** [GetTopSites(n)]; [None] is the panic of the slice expression
    [all[:n]] for a negative [n]. *)
Definition GetTopSites (n : Z) (ts : TrafficStats) : option (list SiteStats) :=
  let all := sortSlice busier (GetAllStats ts) in
  let n := if Z.of_nat (length all) <? n then Z.of_nat (length all) else n in
  if n <? 0 then None else Some (take (Z.to_nat n) all).

End WithSort.

End TopSites.

(** An instance of the two parameters of [TopSites], for the examples:
    the entries in the order of their keys, and a merge sort. *)

Module TopSitesFixtures.

Import Stats TopSites.

Definition mapOrder (m : gmap string SiteStats) : list SiteStats := (map_to_list m).*2.

Definition mergeSort (less : SiteStats -> SiteStats -> bool) (l : list SiteStats)
  : list SiteStats :=
@merge_sort _ (fun a b => less b a = false) (fun x y => bool_eq_dec (less y x) false) l.

End TopSitesFixtures.

(** *** The IPv6 ranges of the China list *)

Module IPv6Ranges.

Import IPAddr.

(** Some range of the list holds the address, by [compareIPv6]. *)
Definition containsV6 (ranges : list ipRangeV6) (ipArray : list byte) : Prop :=
exists i r, ranges !! i = Some r
  /\ (compareIPv6 (rstart6 r) ipArray <= 0)%Z /\ (compareIPv6 ipArray (rend6 r) <= 0)%Z.

(** The invariant of the data model for the IPv6 list: the ends of a
    range are arrays of 16 bytes, in order, and each range ends before
    the next ones start. *)
Definition sortedDisjointV6 (ranges : list ipRangeV6) : Prop :=
(forall i r, ranges !! i = Some r ->
   length (rstart6 r) = 16 /\ length (rend6 r) = 16
   /\ (compareIPv6 (rstart6 r) (rend6 r) <= 0)%Z)
/\ (forall i j ri rj,
      i < j -> ranges !! i = Some ri -> ranges !! j = Some rj ->
      (compareIPv6 (rend6 ri) (rstart6 rj) < 0)%Z).

End IPv6Ranges.

(** *** Membership in the loaded China lists *)

Module CNDatabase.

Import IPAddr IPv6Ranges.

Local Open Scope Z_scope.





(** The ranges that the IPv6 loader keeps: two arrays of 16 bytes, in
    order. *)
Definition keptRangeV6 (r : ipRangeV6) : Prop :=
  length (rstart6 r) = 16%nat /\ length (rend6 r) = 16%nat
  /\ compareIPv6 (rstart6 r) (rend6 r) <= 0.


End CNDatabase.

(** IPv6 addresses for the examples: 2400:3200::, 2400:3200::1 and
    2400:3200:ffff:ffff:ffff:ffff:ffff:ffff. *)

Module IPv6Fixtures.

Import IPAddr.

Definition ip6 (head : list N) (tail : N) : IP :=
ECH.octets (head ++ [tail])%list.

Definition aliStart : IP := ip6 [0x24; 0; 0x32; 0; 0; 0; 0; 0; 0; 0; 0; 0; 0; 0; 0]%N 0.

Definition aliOne : IP := ip6 [0x24; 0; 0x32; 0; 0; 0; 0; 0; 0; 0; 0; 0; 0; 0; 0]%N 1.

Definition aliEnd : IP :=
ip6 [0x24; 0; 0x32; 0; 255; 255; 255; 255; 255; 255; 255; 255; 255; 255; 255]%N 255.

(** 2001:250:: to 2001:252:ffff:ffff:ffff:ffff:ffff:ffff, and 240e:: to
    240e:ffff:ffff:ffff:ffff:ffff:ffff:ffff with 240e::1 in it. *)
Definition eduStart : IP := ip6 [0x20; 1; 2; 0x50; 0; 0; 0; 0; 0; 0; 0; 0; 0; 0; 0]%N 0.

Definition eduEnd : IP :=
ip6 [0x20; 1; 2; 0x52; 255; 255; 255; 255; 255; 255; 255; 255; 255; 255; 255]%N 255.

Definition telStart : IP := ip6 [0x24; 0x0e; 0; 0; 0; 0; 0; 0; 0; 0; 0; 0; 0; 0; 0]%N 0.

Definition telOne : IP := ip6 [0x24; 0x0e; 0; 0; 0; 0; 0; 0; 0; 0; 0; 0; 0; 0; 0]%N 1.

Definition telEnd : IP :=
ip6 [0x24; 0x0e; 255; 255; 255; 255; 255; 255; 255; 255; 255; 255; 255; 255; 255]%N 255.

(** The three ranges, in the order of their starts. *)
Definition threeRangesV6 : list IPAddr.ipRangeV6 :=
[IPAddr.mkRangeV6 eduStart eduEnd; IPAddr.mkRangeV6 aliStart aliEnd;
 IPAddr.mkRangeV6 telStart telEnd].

End IPv6Fixtures.

(** *** SOCKS5 requests as the client writes them (RFC 1928) *)

Module SocksWire.

Import IPAddr Client Proxy.

(** A destination address: the four bytes of an IPv4 address, a domain
    name, or the sixteen bytes of an IPv6 address. *)
Inductive Address : Type :=
| IPv4 (a : string)
| Domain (name : string)
| IPv6 (a : string).

Definition atypOf (a : Address) : nat :=
match a with
| IPv4 _ => 1
| Domain _ => 3
| IPv6 _ => 4
end.

Definition encodeAddress (a : Address) : string :=
match a with
| IPv4 b => b
| Domain name => bytes [String.length name] +:+ name
| IPv6 b => b
end.

Definition wfAddress (a : Address) : bool :=
match a with
| IPv4 b => String.length b =? 4
| Domain name => String.length name <? 256
| IPv6 b => String.length b =? 16
end.

(** The method selection message behind the version byte: NMETHODS and
    the methods. *)
Definition greeting (methods : string) : string :=
bytes [String.length methods] +:+ methods.

(** The request: VER, CMD, RSV, ATYP, DST.ADDR, DST.PORT. *)
Definition request (command rsv : nat) (a : Address) (port : nat) : string :=
bytes [5; command; rsv; atypOf a] +:+ encodeAddress a +:+ bytes [port / 256; port mod 256].

(** The target that names the destination: the host as a string, the
    port in decimal, brackets around an IPv6 address. *)
Definition targetOf (IPString : IP -> string) (a : Address) (port : nat) : string :=
match a with
| IPv4 b => IPString (list_byte_of_string b) +:+ ":" +:+ pretty port
| Domain name => name +:+ ":" +:+ pretty port
| IPv6 b => "[" +:+ IPString (list_byte_of_string b) +:+ "]:" +:+ pretty port
end.

End SocksWire.

(** *** The host that a session is counted under *)

Module SessionHost.

(** The variable [targetHost] of [handleTunnel]: the host of the
    target, or the target as it stands when it does not split. *)
Definition hostOfTarget (target : string) : string :=
match SplitHostPort target with
| inl (h, _) => h
| inr _ => target
end.

End SessionHost.

(** *** The DNS query of the ECH resolver (proxy.go) *)

Module DNSQuery.

Import DNSWire.

(** [strings.Split(s, sep)] for a separator of one byte: the strings
    between the separators, [cur] being the one that is read, in
    reverse. *)
Fixpoint splitAt (c : ascii) (cur : list ascii) (s : string) : list string :=
match s with
| EmptyString => [string_of_list_ascii (rev cur)]
| String x s' =>
    if Ascii.eqb x c then string_of_list_ascii (rev cur) :: splitAt c [] s'
    else splitAt c (x :: cur) s'
end.

Definition Split (s : string) (c : ascii) : list string := splitAt c [] s.

(** [buildDNSQuery(domain, qtype)]; [byte(n)] keeps the low eight bits
    of [n]. *)
Definition buildDNSQuery (domain : string) (qtype : nat) : list byte :=
[x00; x01; x01; x00; x00; x01; x00; x00; x00; x00; x00; x00]
++ flat_map (fun label => byteOfNat (String.length label) :: list_byte_of_string label)
     (Split domain ".")
++ [x00; byteOfNat (qtype / 256); byteOfNat qtype; x00; x01].

End DNSQuery.

(** *** The parser of the DNS answer, with the bounds checks of Go

    The functions of [ECH] read a byte outside a slice as zero.  Here
    every index expression and every slice expression of the source is
    checked as the Go runtime checks it: out of range, the function
    panics.  The loops take fuel, and running out of it is a result of
    its own. *)

Module Checked.

Inductive Run (A : Type) : Type :=
| Done (a : A)
| Panic
| OutOfFuel.

Arguments Done {A} a.
Arguments Panic {A}.
Arguments OutOfFuel {A}.

Definition bind {A B : Type} (r : Run A) (f : A -> Run B) : Run B :=
match r with
| Done a => f a
| Panic => Panic
| OutOfFuel => OutOfFuel
end.

Notation "'do' x <- r ; k" := (bind r (fun x => k))
  (at level 10, x name, r at level 100, k at level 200).

(** [data[i]]. *)
Definition at_ (data : list byte) (i : nat) : Run nat :=
match data !! i with
| Some b => Done (Byte.to_nat b)
| None => Panic
end.

(** [data[a:b]]. *)
Definition sub (data : list byte) (a b : nat) : Run (list byte) :=
if (a <=? b) && (b <=? length data) then Done (take (b - a) (drop a data)) else Panic.

(** [binary.BigEndian.Uint16(b)]: it reads [b[1]] and [b[0]]. *)
Definition uint16 (b : list byte) : Run nat :=
match b with
| b0 :: b1 :: _ => Done (256 * Byte.to_nat b0 + Byte.to_nat b1)
| _ => Panic
end.

(** The loop
    [for offset < len(data) && data[offset] != 0 { offset += int(data[offset]) + 1 }]. *)
Fixpoint skipLabels (data : list byte) (fuel offset : nat) : Run nat :=
match fuel with
| O => OutOfFuel
| S fuel' =>
    if offset <? length data then
      do x <- at_ data offset ;
      if x =? 0 then Done offset
      else
        do y <- at_ data offset ;
        skipLabels data fuel' (offset + y + 1)
    else Done offset
end.

(** The loop of [parseHTTPSRecord] over the SvcParams. *)
Fixpoint svcParams (data : list byte) (fuel offset : nat) : Run string :=
match fuel with
| O => OutOfFuel
| S fuel' =>
    if offset + 4 <=? length data then
      do k <- sub data offset (offset + 2) ;
      do key <- uint16 k ;
      do l <- sub data (offset + 2) (offset + 4) ;
      do len <- uint16 l ;
      let offset := offset + 4 in
      if length data <? offset + len then Done ""
      else
        do value <- sub data offset (offset + len) ;
        if key =? 5 then Done (Base64.EncodeToString value)
        else svcParams data fuel' (offset + len)
    else Done ""
end.

(** [parseHTTPSRecord(data)]. *)
Definition parseHTTPSRecord (data : list byte) : Run string :=
if length data <? 2 then Done ""
else
  let offset := 2 in
  do offset <-
    (if offset <? length data then
       do x <- at_ data offset ;
       if x =? 0 then Done (offset + 1)
       else (do o <- skipLabels data (S (length data)) offset ; Done (o + 1))
     else (do o <- skipLabels data (S (length data)) offset ; Done (o + 1))) ;
  svcParams data (S (length data)) offset.

(** The loop of [parseDNSResponse] over the answer records. *)
Fixpoint answers (response : list byte) (count offset : nat) : Run string :=
match count with
| O => Done ""
| S count' =>
    if length response <=? offset then Done ""
    else
      do b <- at_ response offset ;
      do offset <-
        (if Nat.land b 192 =? 192 then Done (offset + 2)
         else (do o <- skipLabels response (S (length response)) offset ; Done (o + 1))) ;
      if length response <? offset + 10 then Done ""
      else
        do t <- sub response offset (offset + 2) ;
        do rrType <- uint16 t ;
        let offset := offset + 8 in
        do l <- sub response offset (offset + 2) ;
        do dataLen <- uint16 l ;
        let offset := offset + 2 in
        if length response <? offset + dataLen then Done ""
        else
          do data <- sub response offset (offset + dataLen) ;
          let offset := offset + dataLen in
          do ech <- (if rrType =? ECH.typeHTTPS then parseHTTPSRecord data else Done "") ;
          if negb (String.eqb ech "") then Done ech
          else answers response count' offset
end.

(** [parseDNSResponse(response)]. *)
Definition parseDNSResponse (response : list byte) : Run (string * option ECH.QueryError) :=
if length response <? 12 then Done ("", Some ECH.ErrResponseTooShort)
else
  do h <- sub response 6 8 ;
  do ancount <- uint16 h ;
  if ancount =? 0 then Done ("", Some ECH.ErrNoAnswerRecords)
  else
    do offset <- skipLabels response (S (length response)) 12 ;
    do ech <- answers response ancount (offset + 5) ;
    Done (ech, None).

End Checked.

(** *** The UDP relay of SOCKS5 (proxy.go)

    One turn of the loop of [handleUDPRelay] on a datagram read from
    the socket, up to the start of [handleDNSQuery]; index and slice
    expressions are checked as in [Checked].  The header and the query
    given to [handleDNSQuery] are slices of the read buffer of the
    loop: they are modelled by their content when the turn ends. *)

Module UDPRelay.

Import IPAddr Checked.

(** What the loop does with a datagram: it drops it, it logs that the
    target is not supported, or it starts [handleDNSQuery] with the
    SOCKS5 header and the DNS query of the datagram. *)
Inductive Datagram : Type :=
| Dropped
| Unsupported (target : string)
| DNSQuery (target : string) (socks5Header dnsQuery : list byte).

Section WithIPString.

(** [ip.String()]. *)
Variable IPString : IP -> string.

(** The address of the datagram: the host, the port and the length of
    the header, [None] where the loop goes on to the next datagram. *)
Definition destination (data : list byte) : Run (option (string * nat * nat)) :=
  let n := length data in
  do atyp <- at_ data 3 ;
  if atyp =? 1 then
    if n <? 10 then Done None
    else
      do a <- sub data 4 8 ;
      do hi <- at_ data 8 ;
      do lo <- at_ data 9 ;
      Done (Some (IPString a, 256 * hi + lo, 10))
  else if atyp =? 3 then
    if n <? 5 then Done None
    else
      do domainLen <- at_ data 4 ;
      if n <? 7 + domainLen then Done None
      else
        do d <- sub data 5 (5 + domainLen) ;
        do hi <- at_ data (5 + domainLen) ;
        do lo <- at_ data (6 + domainLen) ;
        Done (Some (string_of_list_byte d, 256 * hi + lo, 7 + domainLen))
  else if atyp =? 4 then
    if n <? 22 then Done None
    else
      do a <- sub data 4 20 ;
      do hi <- at_ data 20 ;
      do lo <- at_ data 21 ;
      Done (Some (IPString a, 256 * hi + lo, 22))
  else Done None.

(** The body of the loop of [handleUDPRelay] for the datagram [data]. *)
Definition handleDatagram (data : list byte) : Run Datagram :=
  let n := length data in
  if n <? 10 then Done Dropped
  else
    do frag <- at_ data 2 ;
    if negb (frag =? 0) then Done Dropped
    else
      do dst <- destination data ;
      match dst with
      | None => Done Dropped
      | Some (dstHost, dstPort, headerLen) =>
          do udpData <- sub data headerLen n ;
          let target := dstHost +:+ ":" +:+ pretty dstPort in
          if dstPort =? 53 then
            do socks5Header <- sub data 0 headerLen ;
            Done (DNSQuery target socks5Header udpData)
          else Done (Unsupported target)
      end.

End WithIPString.

(** A SOCKS5 UDP request as the client writes it (RFC 1928, section
    7): RSV, FRAG, ATYP, DST.ADDR, DST.PORT, and the data. *)
Definition addressBytes (a : SocksWire.Address) : list byte :=
match a with
| SocksWire.IPv4 b => list_byte_of_string b
| SocksWire.Domain name =>
    DNSWire.byteOfNat (String.length name) :: list_byte_of_string name
| SocksWire.IPv6 b => list_byte_of_string b
end.

Definition udpHeader (rsv0 rsv1 : byte) (a : SocksWire.Address) (port : nat) : list byte :=
[rsv0; rsv1; x00; DNSWire.byteOfNat (SocksWire.atypOf a)] ++ addressBytes a
++ DNSWire.be16 port.

(** The target that the loop logs: host and port, without brackets. *)
Definition udpTarget (IPString : IP -> string) (a : SocksWire.Address) (port : nat) : string :=
match a with
| SocksWire.IPv4 b | SocksWire.IPv6 b => IPString (list_byte_of_string b)
| SocksWire.Domain name => name
end +:+ ":" +:+ pretty port.

End UDPRelay.


(** *** The life cycle of the client: [Stop], [Restart], [UpdateConfig]
    (proxy.go), for calls made one after the other *)

Module Engine.

Import IPAddr Client Checked.

(** The server with the two fields that the life cycle adds to those of
    [ProxyServer]: whether [stopChan] has been closed, and whether
    [listener] is set. *)
Record Engine : Type := mkEngine {
  server : ProxyServer;
  stopChanClosed : bool;
  listenerSet : bool
}.

(** What [Start] gets from outside: the DoH reply to [prepareECH], the
    list files, and whether [net.Listen] succeeds. *)
Record StartInput : Type := mkStartInput {
  reply : ECH.DoHReply;
  v4 : ListFile;
  v6 : ListFile;
  listenOk : bool
}.

(** The error of [Stop]. *)
Definition errNotRunning : string := "服务器未运行".

Inductive RestartError : Type :=
| StopFailed (msg : string)
| StartFailed (err : StartError).

Section WithParser.

Variable ParseIP : string -> option IP.

(** [NewProxyServer(cfg)]; [file] is the decoded statistics file. *)
Definition NewProxyServer (cfg : Config) (file : option Stats.Snapshot) : Engine :=
  mkEngine (mkServer cfg false [] [] [] (Stats.NewTrafficStats (StoreDir cfg) file))
    false false.

(** [s.Start()]: a fresh [stopChan] once the server is found stopped,
    and the listener when [net.Listen] succeeds.  The panic of a loader
    ends the call. *)
Definition Start (i : StartInput) (e : Engine) : Run (Engine * option StartError) :=
  let '(s, err) := Client.Start ParseIP (reply i) (v4 i) (v6 i) (listenOk i) (server e) in
  match err with
  | Some StartPanic => Panic
  | _ =>
      Done (mkEngine s
              (if running (server e) then stopChanClosed e else false)
              (match err with
               | None => true
               | Some _ => listenerSet e
               end),
            err)
  end.

(** [s.Stop()] at time [now]: the error, and the snapshot handed to the
    statistics file.  Closing a closed channel panics. *)
Definition Stop (now : Z) (e : Engine) : Run (Engine * option string * option Stats.Snapshot) :=
  if negb (running (server e)) then Done (e, Some errNotRunning, None)
  else
    let s := withRunning (server e) false in
    if stopChanClosed e then Panic
    else Done (mkEngine s true (listenerSet e), None, Some (Stats.Save now (trafficStats s))).

(** [s.Restart()]. *)
Definition Restart (now : Z) (i : StartInput) (e : Engine) : Run (Engine * option RestartError) :=
  do r <- Stop now e ;
  let '(e, err, _) := r in
  let failed :=
    match err with
    | Some msg => negb (String.eqb msg errNotRunning)
    | None => false
    end in
  if failed then Done (e, err ≫= fun msg => Some (StopFailed msg))
  else
    do r <- Start i e ;
    let '(e, err) := r in
    Done (e, err ≫= fun err => Some (StartFailed err)).

(** [s.IsRunning()]. *)
Definition IsRunning (e : Engine) : bool := running (server e).

(** [s.UpdateConfig(cfg)]. *)
Definition UpdateConfig (cfg : Config) (now : Z) (i : StartInput) (e : Engine)
    : Run (Engine * option RestartError) :=
  let e := mkEngine (withConfig (server e) cfg) (stopChanClosed e) (listenerSet e) in
  if IsRunning e then Restart now i e
  else Done (e, None).







End WithParser.

End Engine.

Module EngineFixtures.

Import IPAddr Client Engine Fixtures.

(** The ECH query and the listener succeed, the IPv4 list is there. *)
Definition goodStart : StartInput :=
mkStartInput (ECH.Reply 200 (Some echAnswer)) cnFile Unavailable true.

(** The listen address is taken. *)
Definition portTaken : StartInput :=
mkStartInput (ECH.Reply 200 (Some echAnswer)) cnFile Unavailable false.

(** The directory of the list files cannot be searched. *)
Definition statFails : StartInput :=
mkStartInput (ECH.Reply 200 (Some echAnswer)) StatFailed Unavailable true.

(** A started server. *)
Definition startedEngine : Engine :=
match Start parseIPv4 goodStart (NewProxyServer (defaultConfig "global") None) with
| Checked.Done (e, _) => e
| _ => NewProxyServer (defaultConfig "global") None
end.

End EngineFixtures.

(** ** Part II. Properties *)

(** *** Byte strings *)

#[local] Arguments String.append !_ _ / : simpl nomatch.

Section StringFacts.

Lemma append_nil_r (s : string) : s +:+ "" = s.
Proof. induction s as [|c s IH]; simpl; [reflexivity | now rewrite IH]. Qed.

Lemma append_assoc (a b c : string) : (a +:+ b) +:+ c = a +:+ (b +:+ c).
Proof. induction a as [|x a IH]; simpl; [reflexivity | now rewrite IH]. Qed.

Lemma length_append (a b : string) :
  String.length (a +:+ b) = String.length a + String.length b.
Proof. induction a as [|x a IH]; simpl; [reflexivity | now rewrite IH]. Qed.

Lemma from_append (a b : string) : from (String.length a) (a +:+ b) = b.
Proof. induction a as [|x a IH]; simpl; [now destruct b | exact IH]. Qed.

Lemma upto_append (a b : string) : upto (String.length a) (a +:+ b) = a.
Proof. induction a as [|x a IH]; simpl; [reflexivity | now rewrite IH]. Qed.

Lemma from_all (s : string) : from (String.length s) s = "".
Proof. pose proof (from_append s "") as H. now rewrite append_nil_r in H. Qed.

Lemma upto_all (s : string) : upto (String.length s) s = s.
Proof. pose proof (upto_append s "") as H. now rewrite append_nil_r in H. Qed.

Lemma prefix_append (p s : string) : String.prefix p (p +:+ s) = true.
Proof.
  induction p as [|x p IH]; simpl; [now destruct s |].
  destruct (Ascii.ascii_dec x x) as [_|n]; [exact IH | now destruct n].
Qed.

Lemma HasPrefix_append (p s : string) : HasPrefix (p +:+ s) p = true.
Proof. apply prefix_append. Qed.

(** The first separator of [a ++ c ++ b] is where [a] ends, when [a]
    holds none. *)
Lemma IndexByte_append (a b : string) (c : ascii) :
  IndexByte a c = None ->
  IndexByte (a +:+ String c b) c = Some (String.length a).
Proof.
  induction a as [|x a IH]; simpl.
  - intros _. now rewrite Ascii.eqb_refl.
  - destruct (Ascii.eqb x c); [discriminate |].
    destruct (IndexByte a c) eqn:E; [discriminate |].
    intros _. now rewrite IH.
Qed.

Lemma IndexByte_None_append (a b : string) (c : ascii) :
  IndexByte a c = None -> IndexByte b c = None -> IndexByte (a +:+ b) c = None.
Proof.
  induction a as [|x a IH]; simpl; [easy |].
  destruct (Ascii.eqb x c); [discriminate |].
  destruct (IndexByte a c) eqn:E; [discriminate |].
  intros _ Hb. now rewrite IH.
Qed.

Lemma HasPrefix_byte (x c : ascii) (s : string) :
  HasPrefix (String x s) (String c "") = Ascii.eqb x c.
Proof.
  unfold HasPrefix. cbn [String.prefix].
  destruct (Ascii.ascii_dec c x) as [->|Hne].
  - rewrite Ascii.eqb_refl. now destruct s.
  - symmetry. apply Ascii.eqb_neq. congruence.
Qed.

Lemma LastIndexByte_None (s : string) (c : ascii) :
  IndexByte s c = None -> LastIndexByte s c = None.
Proof.
  induction s as [|x s IH]; simpl; [easy |].
  destruct (Ascii.eqb x c); [discriminate |].
  destruct (IndexByte s c); [discriminate |].
  intros _. now rewrite IH.
Qed.

Lemma LastIndexByte_append (a b : string) (c : ascii) :
  IndexByte b c = None ->
  LastIndexByte (a +:+ String c b) c = Some (String.length a).
Proof.
  intros Hb. induction a as [|x a IH]; simpl.
  - now rewrite (LastIndexByte_None b c Hb), Ascii.eqb_refl.
  - now rewrite IH.
Qed.

Lemma ContainsByte_append (a b : string) (c : ascii) :
  ContainsByte a c = false -> ContainsByte b c = false -> ContainsByte (a +:+ b) c = false.
Proof.
  unfold ContainsByte. intros Ha Hb.
  destruct (IndexByte a c) eqn:Ea; [discriminate |].
  destruct (IndexByte b c) eqn:Eb; [discriminate |].
  now rewrite IndexByte_None_append.
Qed.

Lemma ContainsByte_None (s : string) (c : ascii) :
  ContainsByte s c = false -> IndexByte s c = None.
Proof. unfold ContainsByte. now destruct (IndexByte s c). Qed.

Lemma eqb_false_neq (a b : string) : String.eqb a b = false <-> a <> b.
Proof. apply String.eqb_neq. Qed.

End StringFacts.

(** *** The relay: the CONNECT frame, the other text frames, the token *)

Section RelayFacts.

Import Relay.

Variable dial : string -> DialResult.

(** A CONNECT frame reaches [connectToRemote] with the address and the
    first frame that the client put in it. *)
Lemma handleMessage_connect (t f : string) (st : Session) :
  IndexByte t "|" = None ->
  closed st = false ->
  handleMessage dial (TextMessage (Proxy.connectMsg t f)) st =
    match connectToRemote dial t f st with
    | (st', Some err) => (send (TextMessage ("ERROR:" +:+ err)) st', Return)
    | (st', None) => (st', Continue)
    end.
Proof.
  intros Ht Hc. unfold handleMessage, Proxy.connectMsg. rewrite Hc.
  rewrite HasPrefix_append.
  change 8 with (String.length "CONNECT:"). rewrite from_append.
  change ("|" +:+ f) with (String "|" f).
  rewrite (IndexByte_append t f "|" Ht), upto_append.
  replace (String.length t + 1) with (String.length (t +:+ "|"))
    by (rewrite length_append; reflexivity).
  change (String "|" f) with ("|" +:+ f).
  rewrite <- (append_assoc t "|" f), from_append.
  reflexivity.
Qed.

(** What [connectToRemote] leaves when the address is valid, the dial
    succeeds and the first write does not fail. *)
Lemma connectToRemote_ok (t f host port : string) (st : Session) :
  parseAddress t = (host, port) ->
  host <> "" -> port <> "" ->
  dial (JoinHostPort host port) = DialOk None ->
  connectToRemote dial t f st =
    (mkSession
       (Some (mkRemote (JoinHostPort host port) (if String.eqb f "" then [] else [f])))
       (closed st) (wsSent st ++ [TextMessage "CONNECTED"]), None).
Proof.
  intros Hp Hh Hpo Hd. unfold connectToRemote. rewrite Hp.
  apply eqb_false_neq in Hh, Hpo. rewrite Hh, Hpo. simpl. rewrite Hd.
  destruct (String.eqb f ""); reflexivity.
Qed.

End RelayFacts.

Section RelayClaims.

Import Relay.

(** The first turn of the loop on a fresh session, for a relay whose
    dials succeed. *)
Example relay_connect_hello :
  handleMessage (fun _ => DialOk None) (TextMessage "CONNECT:example.com:443|HELLO")
    (mkSession None false [])
  = (mkSession (Some (mkRemote "example.com:443" ["HELLO"])) false
       [TextMessage "CONNECTED"], Continue).
Proof. reflexivity. Qed.

Example relay_connect_ipv6 :
  handleMessage (fun _ => DialOk None) (TextMessage "CONNECT:[::1]:22|")
    (mkSession None false [])
  = (mkSession (Some (mkRemote "[::1]:22" [])) false [TextMessage "CONNECTED"], Continue).
Proof. reflexivity. Qed.

(** C4, as the specification states it, fails: a text frame that is no
    CONNECT, DATA or CLOSE gets no reply and the session goes on, and a
    CONNECT frame without separator gets the ERROR reply but the
    session goes on as well. *)
Lemma C4_counterexample :
  let dial := fun _ : string => DialError "unreachable" in
  let st := mkSession None false [] in
  handleMessage dial (TextMessage "HELLO") st = (st, Continue)
  /\ handleMessage dial (TextMessage "CONNECT:example.com:443") st
     = (mkSession None false [TextMessage "ERROR:invalid CONNECT format"], Continue).
Proof. split; reflexivity. Qed.

(** C4, amended: on a session that is not closed, a CONNECT frame
    without the separator is answered with the text frame
    "ERROR:invalid CONNECT format" and the loop reads on; any other
    text frame that is no CONNECT, no DATA and not CLOSE changes
    nothing, is not answered, and the loop reads on; the reply
    "ERROR:<reason>" followed by the end of the session is what a
    CONNECT frame with the separator gets when [connectToRemote]
    fails. *)
Theorem C4_malformed_and_unknown_text_frames
    (dial : string -> DialResult) (msg : string) (st : Session) :
  closed st = false ->
  (HasPrefix msg "CONNECT:" = true -> IndexByte (from 8 msg) "|" = None ->
     handleMessage dial (TextMessage msg) st
     = (send (TextMessage "ERROR:invalid CONNECT format") st, Continue))
  /\ (HasPrefix msg "CONNECT:" = false -> HasPrefix msg "DATA:" = false -> msg <> "CLOSE" ->
        handleMessage dial (TextMessage msg) st = (st, Continue))
  /\ (forall sep st' err,
        HasPrefix msg "CONNECT:" = true -> IndexByte (from 8 msg) "|" = Some sep ->
        connectToRemote dial (upto sep (from 8 msg)) (from (sep + 1) (from 8 msg)) st
        = (st', Some err) ->
        handleMessage dial (TextMessage msg) st
        = (send (TextMessage ("ERROR:" +:+ err)) st', Return)).
Proof.
  intros Hc. unfold handleMessage. rewrite Hc. repeat split.
  - intros -> ->. reflexivity.
  - intros -> -> Hne. apply eqb_false_neq in Hne. now rewrite Hne.
  - intros sep st' err -> -> ->. reflexivity.
Qed.

Lemma C4_malformed_and_unknown_text_frames_witness :
  let dial := fun _ : string => DialError "connection refused" in
  let st := mkSession None false [] in
  handleMessage dial (TextMessage "CONNECT:example.com:443") st
  = (send (TextMessage "ERROR:invalid CONNECT format") st, Continue)
  /\ handleMessage dial (TextMessage "PING") st = (st, Continue)
  /\ handleMessage dial (TextMessage "CONNECT:example.com:443|") st
     = (send (TextMessage "ERROR:connection refused") st, Return).
Proof.
  intros dial st.
  pose proof (C4_malformed_and_unknown_text_frames dial "CONNECT:example.com:443" st
                eq_refl) as (H1 & _ & _).
  pose proof (C4_malformed_and_unknown_text_frames dial "PING" st eq_refl) as (_ & H2 & _).
  pose proof (C4_malformed_and_unknown_text_frames dial "CONNECT:example.com:443|" st
                eq_refl) as (_ & _ & H3).
  split; [exact (H1 eq_refl eq_refl) |].
  split; [apply H2; [reflexivity | reflexivity | discriminate] |].
  exact (H3 15 st "connection refused" eq_refl eq_refl eq_refl).
Defined.




End RelayClaims.

(** *** The client sessions: the CONNECT frame and the deadlines *)

Section SessionFacts.

Import IPAddr Client Proxy.

Variable ParseIP : string -> option IP.
Variable IPString : IP -> string.
Variable Resolver : Type.
Variable LookupIP : string -> Resolver -> option (list IP) * Resolver.

Lemma writes_keep_deadlines (writes : list string) (c : Conn) :
  readDeadline (fold_left (fun c b => Write b c) writes c) = readDeadline c
  /\ writeDeadline (fold_left (fun c b => Write b c) writes c) = writeDeadline c.
Proof.
  revert c. induction writes as [|b writes IH]; intros c; simpl; [easy |].
  destruct (IH (Write b c)) as [-> ->]. easy.
Qed.

(** When [handleTunnel] starts the relay over the tunnel, it has sent
    one message on the WebSocket, the CONNECT frame of the target and of
    the first frame, and the client socket has no deadline. *)
Lemma handleTunnel_tunnel (w : World) (target : string) (mode : nat) (firstFrame : string)
    (st st' : State Resolver) :
  handleTunnel ParseIP IPString Resolver LookupIP w target mode firstFrame st
  = (st', StreamingTunnel) ->
  wsOut st' = wsOut st
              ++ [Relay.TextMessage (connectMsg target (firstFrameSent w mode firstFrame))]
  /\ readDeadline (conn st') = None /\ writeDeadline (conn st') = None.
Proof.
  unfold handleTunnel, handleDirectConnection. intros H.
  repeat case_match; simplify_eq; simpl;
    try (unfold sendSuccessResponse; repeat case_match; simpl); auto.
Qed.

(** When it starts the relay over a direct connection, it has sent
    nothing on a WebSocket and has left the deadlines of the client
    socket as they were. *)
Lemma handleTunnel_direct (w : World) (target : string) (mode : nat) (firstFrame : string)
    (st st' : State Resolver) :
  handleTunnel ParseIP IPString Resolver LookupIP w target mode firstFrame st
  = (st', StreamingDirect) ->
  wsOut st' = wsOut st
  /\ readDeadline (conn st') = readDeadline (conn st)
  /\ writeDeadline (conn st') = writeDeadline (conn st).
Proof.
  unfold handleTunnel, handleDirectConnection. intros H.
  repeat case_match; simplify_eq; simpl;
    try (unfold sendSuccessResponse; repeat case_match; simpl); auto.
Qed.

(** The tunnel path clears the deadline of [handleConnection]. *)
Lemma handleConnection_tunnel_clears_deadline (w : World) (now : Z) (input : string)
    (s : ProxyServer) (rs : Resolver) (st' : State Resolver) :
  handleConnection ParseIP IPString Resolver LookupIP w now input s rs = (st', StreamingTunnel) ->
  readDeadline (conn st') = None /\ writeDeadline (conn st') = None.
Proof.
  unfold handleConnection. intros H.
  repeat case_match; simplify_eq;
    match goal with
    | H : handleTunnel _ _ _ _ _ _ _ _ _ = _ |- _ => apply handleTunnel_tunnel in H; tauto
    end.
Qed.

(** C9 fails on the direct path: a session that [handleConnection] hands
    to the direct relay still carries the deadline set at accept, thirty
    seconds after [now], for reads and for writes.  [handleTunnel] clears
    the deadline only after the routing decision has chosen the tunnel;
    [handleDirectConnection] never does. *)
Theorem C9_direct_session_keeps_handshake_deadline (w : World) (now : Z) (input : string)
    (s : ProxyServer) (rs : Resolver) (st' : State Resolver) :
  handleConnection ParseIP IPString Resolver LookupIP w now input s rs = (st', StreamingDirect) ->
  readDeadline (conn st') = Some (now + connectionDeadline)%Z
  /\ writeDeadline (conn st') = Some (now + connectionDeadline)%Z.
Proof.
  unfold handleConnection. intros H.
  repeat case_match; simplify_eq;
    match goal with
    | H : handleTunnel _ _ _ _ _ _ _ _ _ = _ |- _ =>
        apply handleTunnel_direct in H; destruct H as (_ & -> & ->)
    end;
    unfold onConn; simpl;
    match goal with
    | |- context [fold_left _ ?ws ?c] => destruct (writes_keep_deadlines ws c) as [-> ->]
    end; easy.
Qed.

End SessionFacts.

Section SessionClaims.

Import IPAddr Client Proxy Fixtures.

(** An HTTP CONNECT in routing mode [none], accepted at time 5: the
    session is relayed directly, the client has its 200 reply, and both
    deadlines still stand at 30 s after the accept. *)
Lemma C9_direct_session_keeps_handshake_deadline_witness :
  let input := "CONNECT example.com:443 HTTP/1.1" +:+ CRLF +:+ CRLF in
  let run := handleConnection parseIPv4 ipv4String unit (tableLookup []) calmWorld 5 input
               (newServer (defaultConfig "none")) tt in
  snd run = StreamingDirect
  /\ written (conn (fst run)) = ["HTTP/1.1 200 Connection Established" +:+ CRLF +:+ CRLF]
  /\ readDeadline (conn (fst run)) = Some 30000000005%Z
  /\ writeDeadline (conn (fst run)) = Some 30000000005%Z.
Proof.
  intros input run.
  assert (Hrun : snd run = StreamingDirect) by (vm_compute; reflexivity).
  split; [exact Hrun |]. split; [vm_compute; reflexivity |].
  apply (C9_direct_session_keeps_handshake_deadline parseIPv4 ipv4String unit (tableLookup [])
           calmWorld 5 input (newServer (defaultConfig "none")) tt (fst run)).
  rewrite <- Hrun. fold run. now destruct run.
Defined.

(** The same request in routing mode [global] goes through the tunnel,
    and there the deadline is gone when the relay starts. *)
Example tunnel_session_has_no_deadline :
  let input := "CONNECT example.com:443 HTTP/1.1" +:+ CRLF +:+ CRLF in
  let s := withEchList (newServer (defaultConfig "global")) echValue in
  let run := handleConnection parseIPv4 ipv4String unit (tableLookup []) calmWorld 5 input s tt in
  snd run = StreamingTunnel
  /\ wsOut (fst run) = [Relay.TextMessage "CONNECT:example.com:443|"]
  /\ readDeadline (conn (fst run)) = None
  /\ writeDeadline (conn (fst run)) = None.
Proof. vm_compute. repeat split. Qed.

End SessionClaims.

(** *** C2: the CONNECT frame from the client to the target *)

Section ConnectFrame.

Import IPAddr Client Proxy Relay.

(** C2: the tunnel session of the client sends the text frame
    "CONNECT:" + target + "|" + first frame; for every address [t]
    without '|' and every byte string [f], the relay splits that frame
    into exactly [t] and [f], and when the address is valid and the dial
    and the write succeed, the bytes written to the dialed target are
    [f], unchanged. *)
Theorem C2_connect_frame_round_trip
    (ParseIP : string -> option IP) (IPString : IP -> string) (Resolver : Type)
    (LookupIP : string -> Resolver -> option (list IP) * Resolver)
    (w : World) (target : string) (mode : nat) (firstFrame : string) (st st' : State Resolver)
    (dial : string -> DialResult) (t f : string) (session : Session) :
  (handleTunnel ParseIP IPString Resolver LookupIP w target mode firstFrame st
   = (st', StreamingTunnel) ->
   wsOut st' = wsOut st
               ++ [TextMessage (connectMsg target (firstFrameSent w mode firstFrame))])
  /\ (IndexByte t "|" = None -> closed session = false ->
      handleMessage dial (TextMessage (connectMsg t f)) session =
        match connectToRemote dial t f session with
        | (s', Some err) => (send (TextMessage ("ERROR:" +:+ err)) s', Return)
        | (s', None) => (s', Continue)
        end)
  /\ (forall host port,
        IndexByte t "|" = None -> closed session = false ->
        parseAddress t = (host, port) -> host <> "" -> port <> "" ->
        dial (JoinHostPort host port) = DialOk None ->
        exists writes,
          handleMessage dial (TextMessage (connectMsg t f)) session
          = (mkSession (Some (mkRemote (JoinHostPort host port) writes)) false
               (wsSent session ++ [TextMessage "CONNECTED"]), Continue)
          /\ String.concat "" writes = f).
Proof.
  split; [intros H; now apply handleTunnel_tunnel in H |].
  split; [apply handleMessage_connect |].
  intros host port Ht Hc Hp Hh Hpo Hd.
  rewrite (handleMessage_connect dial t f session Ht Hc).
  rewrite (connectToRemote_ok dial t f host port session Hp Hh Hpo Hd), Hc.
  eexists. split; [reflexivity |].
  destruct (String.eqb f "") eqn:E; [apply String.eqb_eq in E; now subst | reflexivity].
Qed.

(** A SOCKS5 session to example.com:443 whose client sends a first
    record holding a line feed, a carriage return and a '|' within the
    100 ms: the frame it sends, and the relay writing those bytes to the
    target. *)
Lemma C2_connect_frame_round_trip_witness :
  let f := "|" +:+ CRLF +:+ "|x" in
  let w := mkWorld 0 (fun _ _ => None) (fun _ => ECH.Reply 200 (Some Fixtures.echAnswer)) f
             None (Some "CONNECTED") None None None (mkTLSEnv None true true) None in
  let s := withEchList (Fixtures.newServer (Fixtures.defaultConfig "global")) Fixtures.echValue in
  let st := mkState (mkConn None None []) s tt [] None [] in
  let run := handleTunnel Fixtures.parseIPv4 Fixtures.ipv4String unit (Fixtures.tableLookup [])
               w "example.com:443" modeSOCKS5 "" st in
  let dial := fun _ : string => DialOk None in
  wsOut (fst run) = [TextMessage (connectMsg "example.com:443" f)]
  /\ exists writes,
       handleMessage dial (TextMessage (connectMsg "example.com:443" f)) (mkSession None false [])
       = (mkSession (Some (mkRemote "example.com:443" writes)) false
            [TextMessage "CONNECTED"], Continue)
       /\ String.concat "" writes = f.
Proof.
  intros f w s st run dial.
  pose proof (C2_connect_frame_round_trip Fixtures.parseIPv4 Fixtures.ipv4String unit
                (Fixtures.tableLookup []) w "example.com:443" modeSOCKS5 "" st (fst run)
                dial "example.com:443" f (mkSession None false [])) as (H1 & _ & H3).
  split.
  - apply H1. vm_compute. reflexivity.
  - apply (H3 "example.com" "443"); try reflexivity; discriminate.
Defined.

End ConnectFrame.

(** *** The China IP database and the routing decision *)

Section RoutingFacts.

Import IPAddr Client.

Variable ParseIP : string -> option IP.
Variable IPString : IP -> string.
Variable Resolver : Type.
Variable LookupIP : string -> Resolver -> option (list IP) * Resolver.

Lemma searchV4_step (ranges : list ipRange) (ip : Z) (fuel left right : nat) :
  searchV4 ranges ip (S fuel) left right =
    if left <? right then
      match ranges !! ((left + right) / 2) with
      | Some r =>
          if (ip <? rstart r)%Z then searchV4 ranges ip fuel left ((left + right) / 2)
          else if (rend r <? ip)%Z then searchV4 ranges ip fuel ((left + right) / 2 + 1) right
          else true
      | None => false
      end
    else false.
Proof. reflexivity. Qed.

(** The fuel of the search is enough: more of it changes nothing. *)
Lemma searchV4_fuel (ranges : list ipRange) (ip : Z) (fuel fuel' left right : nat) :
  right - left <= fuel -> right - left <= fuel' ->
  searchV4 ranges ip fuel left right = searchV4 ranges ip fuel' left right.
Proof.
  revert fuel' left right.
  induction fuel as [|fuel IH]; intros fuel' left right Hf Hf'.
  - destruct fuel' as [|fuel']; [reflexivity |]. rewrite searchV4_step.
    destruct (Nat.ltb_spec left right); [lia | reflexivity].
  - destruct fuel' as [|fuel']; rewrite ?searchV4_step.
    + destruct (Nat.ltb_spec left right); [lia | reflexivity].
    + destruct (Nat.ltb_spec left right) as [Hlt|]; [| reflexivity].
      assert (Hmid : left <= (left + right) / 2 < right).
      { pose proof (Nat.div_mod_eq (left + right) 2) as Hd.
        pose proof (Nat.mod_upper_bound (left + right) 2). lia. }
      destruct (ranges !! ((left + right) / 2)) as [r|]; [| reflexivity].
      destruct (ip <? rstart r)%Z; [apply IH; lia |].
      destruct (rend r <? ip)%Z; [apply IH; lia | reflexivity].
Qed.

(** On sorted, disjoint ranges the search finds the range that holds
    the address, if there is one. *)
Lemma searchV4_window (ranges : list ipRange) (ip : Z) (fuel left right : nat) :
  sortedDisjoint ranges ->
  right - left <= fuel -> right <= length ranges ->
  (forall i r, i < left -> ranges !! i = Some r -> (rend r < ip)%Z) ->
  (forall i r, right <= i -> ranges !! i = Some r -> (ip < rstart r)%Z) ->
  searchV4 ranges ip fuel left right = true <-> containsV4 ranges ip.
Proof.
  intros [Hord Hdis]. revert left right.
  induction fuel as [|fuel IH]; intros left right Hf Hr Hlo Hhi.
  - split; [discriminate |]. intros (i & r & Hi & Hin).
    destruct (Nat.lt_ge_cases i left) as [Hl|Hl].
    + specialize (Hlo i r Hl Hi). lia.
    + assert (right <= i) by lia. specialize (Hhi i r H Hi). lia.
  - rewrite searchV4_step. destruct (Nat.ltb_spec left right) as [Hlt|Hge].
    + assert (Hmid : left <= (left + right) / 2 < right).
      { pose proof (Nat.div_mod_eq (left + right) 2) as Hd.
        pose proof (Nat.mod_upper_bound (left + right) 2). lia. }
      destruct (ranges !! ((left + right) / 2)) as [rm|] eqn:Em.
      * pose proof (Hord _ _ Em) as Hm.
        destruct (Z.ltb_spec ip (rstart rm)) as [Hb|Hb].
        { apply IH; [lia | lia | exact Hlo |].
          intros i r Hi Hri. destruct (Nat.eq_dec i ((left + right) / 2)) as [->|Hne].
          - now simplify_eq.
          - assert (Hlt' : (left + right) / 2 < i) by lia.
            specialize (Hdis _ _ _ _ Hlt' Em Hri). lia. }
        destruct (Z.ltb_spec (rend rm) ip) as [Ha|Ha].
        { apply IH; [lia | lia | | exact Hhi].
          intros i r Hi Hri. destruct (Nat.eq_dec i ((left + right) / 2)) as [->|Hne].
          - now simplify_eq.
          - assert (Hlt' : i < (left + right) / 2) by lia.
            pose proof (Hord _ _ Hri). specialize (Hdis _ _ _ _ Hlt' Hri Em). lia. }
        split; [| reflexivity]. intros _. exists ((left + right) / 2), rm. split; [exact Em | lia].
      * apply lookup_ge_None in Em. lia.
    + split; [discriminate |]. intros (i & r & Hi & Hin).
      destruct (Nat.lt_ge_cases i left) as [Hl|Hl].
      * specialize (Hlo i r Hl Hi). lia.
      * assert (right <= i) by lia. specialize (Hhi i r H Hi). lia.
Qed.

(** X12: with the invariant of the data model (sorted, disjoint
    ranges), [isChinaIP] answers for an IPv4 address other than 0.0.0.0
    whether a loaded range holds it. *)
Lemma isChinaAddr_contains (ranges : list ipRange) (ranges6 : list ipRangeV6) (ip ip4 : IP) :
  sortedDisjoint ranges ->
  To4 ip = Some ip4 -> ipToUint32 ip <> 0%Z ->
  isChinaAddr ranges ranges6 ip = true <-> containsV4 ranges (ipToUint32 ip).
Proof.
  intros Hs H4 Hz. unfold isChinaAddr. rewrite H4.
  apply Z.eqb_neq in Hz. rewrite Hz.
  apply searchV4_window; [exact Hs | lia | lia | intros; lia |].
  intros i r Hi Hri. apply lookup_lt_Some in Hri. lia.
Qed.

Lemma insertRange_kept (r : ipRange) (l : list ipRange) :
  keptRange r -> Forall keptRange l -> Forall keptRange (insertRange r l).
Proof.
  intros Hr Hl. induction Hl as [|x l Hx Hl IH]; simpl.
  - now constructor.
  - destruct (rstart x <? rstart r)%Z; constructor; auto.
Qed.

Lemma sortRanges_kept (l : list ipRange) :
  Forall keptRange l -> Forall keptRange (sortRanges l).
Proof.
  unfold sortRanges. induction 1 as [|x l Hx Hl IH]; simpl; [constructor |].
  now apply insertRange_kept.
Qed.

(** A line yields a range only when both addresses convert to a number
    above zero. *)
Lemma parseRangeLine_kept (text : string) (r : ipRange) :
  parseRangeLine ParseIP text = Some r -> keptRange r.
Proof.
  unfold parseRangeLine, keptRange. intros H.
  repeat case_match; simplify_eq. simpl.
  repeat match goal with
         | H : _ && _ = true |- _ => apply andb_true_iff in H; destruct H
         end.
  lia.
Qed.

Lemma parseRangeLine_zero (text p0 p1 : string) (rest : list string) (startIP endIP : IP) :
  Fields (TrimSpace text) = p0 :: p1 :: rest ->
  ParseIP p0 = Some startIP -> ParseIP p1 = Some endIP ->
  ipToUint32 startIP = 0%Z \/ ipToUint32 endIP = 0%Z ->
  parseRangeLine ParseIP text = None.
Proof.
  intros HF H0 H1 Hz. unfold parseRangeLine. rewrite HF, H0, H1.
  destruct (_ || _); [reflexivity |].
  destruct Hz as [-> | ->]; simpl; [reflexivity |].
  now rewrite andb_false_r.
Qed.

Lemma omap_parseRangeLine_kept (lines : list string) :
  Forall keptRange (omap (parseRangeLine ParseIP) lines).
Proof.
  induction lines as [|text lines IH]; simpl; [constructor |].
  destruct (parseRangeLine ParseIP text) eqn:E; [| exact IH].
  constructor; [now apply parseRangeLine_kept in E | exact IH].
Qed.

Lemma loadChinaIPList_kept (file : ListFile) (current : list ipRange) :
  Forall keptRange current ->
  Forall keptRange (fst (loadChinaIPList ParseIP file current)).
Proof.
  intros Hc. unfold loadChinaIPList.
  destruct file as [| |lines scanErr]; [exact Hc | exact Hc |].
  destruct scanErr; [exact Hc |].
  pose proof (omap_parseRangeLine_kept lines) as Hk.
  destruct (omap (parseRangeLine ParseIP) lines) eqn:E; [exact Hc |].
  now apply sortRanges_kept.
Qed.

(** C10: [isChinaIP] is false for every string that does not parse and
    for every IPv4 address whose 32-bit value is 0, whatever ranges are
    loaded; the IPv4 loader drops every line one of whose addresses
    converts to 0, so every range it leaves in [chinaIPRanges] starts
    above 0.0.0.0. *)
Theorem C10_zero_address_and_unparsable_query
    (ranges : list ipRange) (ranges6 : list ipRangeV6) :
  (forall ipStr, ParseIP ipStr = None -> isChinaIP ParseIP ranges ranges6 ipStr = false)
  /\ (forall ipStr ip ip4,
        ParseIP ipStr = Some ip -> To4 ip = Some ip4 -> ipToUint32 ip = 0%Z ->
        isChinaIP ParseIP ranges ranges6 ipStr = false)
  /\ (forall text p0 p1 rest startIP endIP,
        Fields (TrimSpace text) = p0 :: p1 :: rest ->
        ParseIP p0 = Some startIP -> ParseIP p1 = Some endIP ->
        ipToUint32 startIP = 0%Z \/ ipToUint32 endIP = 0%Z ->
        parseRangeLine ParseIP text = None)
  /\ (forall file current,
        Forall keptRange current ->
        Forall (fun r => rstart r <> 0%Z) (fst (loadChinaIPList ParseIP file current))).
Proof.
  repeat split.
  - intros ipStr H. unfold isChinaIP. now rewrite H.
  - intros ipStr ip ip4 H H4 Hz. unfold isChinaIP, isChinaAddr. now rewrite H, H4, Hz.
  - apply parseRangeLine_zero.
  - intros file current Hc.
    eapply Forall_impl; [apply loadChinaIPList_kept, Hc |].
    unfold keptRange. intros r. simpl. lia.
Qed.



End RoutingFacts.

Section RoutingClaims.

Import IPAddr Client Fixtures.

(** The list of the specification: 10.0.0.0 to 10.0.0.255. *)
Example china_membership :
  let ranges := fst (loadChinaIPList parseIPv4 (Lines ["10.0.0.0 10.0.0.255"] false) []) in
  map (isChinaIP parseIPv4 ranges [])
    ["10.0.0.0"; "10.0.0.128"; "10.0.0.255"; "9.255.255.255"; "10.0.1.0"]
  = [true; true; true; false; false].
Proof. vm_compute. reflexivity. Qed.

Lemma C10_zero_address_and_unparsable_query_witness :
  let ranges := [mkRange 0 255; mkRange 167772160 167772415] in
  isChinaIP parseIPv4 ranges [] "localhost" = false
  /\ isChinaIP parseIPv4 ranges [] "0.0.0.0" = false
  /\ parseRangeLine parseIPv4 "0.0.0.0 0.255.255.255" = None
  /\ Forall (fun r => rstart r <> 0%Z)
       (fst (loadChinaIPList parseIPv4
               (Lines ["0.0.0.0 0.255.255.255"; "10.0.0.0 10.0.0.255"] false) [])).
Proof.
  intros ranges.
  destruct (C10_zero_address_and_unparsable_query parseIPv4 ranges []) as (H1 & H2 & H3 & H4).
  split; [apply H1; reflexivity |].
  split; [apply (H2 "0.0.0.0" (ip4 0 0 0 0) (ECH.octets [0; 0; 0; 0]%N)); reflexivity |].
  split.
  - apply (H3 "0.0.0.0 0.255.255.255" "0.0.0.0" "0.255.255.255" [] (ip4 0 0 0 0)
             (ip4 0 255 255 255)); try reflexivity.
    left. reflexivity.
  - apply H4. constructor.
Defined.

(** The decisions of the specification's examples, in mode [bypass_cn]
    with the list of [cnFile]: 1.1.1.1 is Chinese by that list, 8.8.8.8
    is not; a name with one Chinese address bypasses. *)
Example routing_bypass_cn :
  map (fun host => fst (shouldBypassProxy parseIPv4 ipv4String unit (tableLookup dnsTable)
                          cnServer host tt))
    ["1.1.1.1"; "8.8.8.8"; "mixed.example"; "foreign.example"; "unknown.example";
     "192.168.1.1"; "127.0.0.1"; "nas.lan"]
  = [true; false; true; false; false; true; true; true].
Proof. vm_compute. reflexivity. Qed.

End RoutingClaims.

(** *** C3: the TCP endpoint of the relay dial *)

Section DialFacts.

Import IPAddr Client.

Variable ParseIP : string -> option IP.

(** [SplitHostPort] undoes the joining of a host and a port that hold
    no colon and no bracket. *)
Lemma SplitHostPort_urlHostPort (host port : string) :
  ContainsByte host ":" = false -> ContainsByte host "[" = false ->
  ContainsByte host "]" = false ->
  ContainsByte port ":" = false -> ContainsByte port "[" = false ->
  ContainsByte port "]" = false ->
  SplitHostPort (urlHostPort host port) = inl (host, port).
Proof.
  intros Hh Hho Hhc Hp Hpo Hpc. unfold urlHostPort, SplitHostPort.
  change (":" +:+ port) with (String ":" port).
  rewrite (LastIndexByte_append host port ":" (ContainsByte_None _ _ Hp)).
  assert (Hpre : HasPrefix (host +:+ String ":" port) "[" = false).
  { destruct host as [|x host]; [reflexivity |].
    unfold ContainsByte in Hho. cbn [IndexByte] in Hho.
    change (String x host +:+ String ":" port) with (String x (host +:+ String ":" port)).
    rewrite HasPrefix_byte. now destruct (Ascii.eqb x "["). }
  rewrite Hpre, upto_append, Hh. simpl from at 1 2.
  change (String ":" port) with (":" +:+ port).
  assert (ContainsByte (":" +:+ port) "[" = false)
    by (apply ContainsByte_append; [reflexivity | assumption]).
  assert (ContainsByte (":" +:+ port) "]" = false)
    by (apply ContainsByte_append; [reflexivity | assumption]).
  rewrite !ContainsByte_append by assumption.
  replace (String.length host + 1) with (String.length (host +:+ ":"))
    by (rewrite length_append; reflexivity).
  now rewrite <- append_assoc, from_append.
Qed.

Lemma refreshed_config (reply : ECH.DoHReply) (s : ProxyServer) :
  config (refreshed reply s) = config s.
Proof. reflexivity. Qed.

(** A successful dial is an attempt made with the configuration at
    hand; the retries change the ECH list only. *)
Lemma dialLoop_attempt (env : TLSEnv) (wsDial : nat -> DialAttempt -> option string)
    (doh : nat -> ECH.DoHReply) (host port path : string) (maxRetries : Z)
    (left attempt : nat) (s s' : ProxyServer) (a : DialAttempt) :
  dialLoop env wsDial doh host port path maxRetries left attempt s = (s', inl a) ->
  config s' = config s
  /\ exists echBytes, a = dialAttempt (config s) host port path echBytes.
Proof.
  revert attempt s. induction left as [|left IH]; intros attempt s; simpl; [discriminate |].
  intros H. repeat case_match; simplify_eq;
    try (apply IH in H; rewrite refreshed_config in H; exact H).
  split; [reflexivity | eauto].
Qed.

(** [Start] leaves the server address as it is and pins the server to
    "www.visa.com" when the configuration names no server IP. *)
Lemma Start_pins_server (reply : ECH.DoHReply) (v4 v6 : ListFile) (listenOk : bool)
    (s s' : ProxyServer) :
  Start ParseIP reply v4 v6 listenOk s = (s', None) ->
  ServerAddr (config s') = ServerAddr (config s)
  /\ ServerIP (config s')
     = (if String.eqb (ServerIP (config s)) "" then "www.visa.com" else ServerIP (config s)).
Proof.
  unfold Start, loadRoutingData. intros H.
  repeat case_match; simplify_eq; simpl in *; auto; congruence.
Qed.

(** C3, amended: [Start] replaces an empty [ServerIP] by the default
    "www.visa.com", so every dial of a started client opens its TCP
    connection to the pinned name or address (the configured [ServerIP],
    or "www.visa.com" when none is configured) at the port of
    [ServerAddr], while the TLS server name and the WebSocket URL keep
    the logical host.  The dial code by itself leaves the endpoint to
    the standard resolution of the logical host when [ServerIP] is
    empty. *)
Theorem C3_dial_endpoint_after_start
    (reply : ECH.DoHReply) (v4 v6 : ListFile) (s s' s'' : ProxyServer)
    (env : TLSEnv) (wsDial : nat -> DialAttempt -> option string) (doh : nat -> ECH.DoHReply)
    (host port path : string) (a : DialAttempt) :
  Start ParseIP reply v4 v6 true s = (s', None) ->
  parseServerAddr s' = inl (host, port, path) ->
  dialWebSocketWithECH env wsDial doh 2 s' = (s'', inl a) ->
  let pinned :=
    if String.eqb (ServerIP (config s)) "" then "www.visa.com" else ServerIP (config s) in
  parseServerAddr s = inl (host, port, path)
  /\ tlsServerName a = host
  /\ wsURL a = "wss://" +:+ host +:+ ":" +:+ port +:+ path
  /\ tcpAddress a = match SplitHostPort (urlHostPort host port) with
                    | inl (_, p) => inl (JoinHostPort pinned p)
                    | inr e => inr e
                    end
  /\ (forall cfg echBytes,
        ServerIP cfg = "" ->
        tcpAddress (dialAttempt cfg host port path echBytes) = inl (urlHostPort host port)).
Proof.
  intros HS HP HD pinned.
  destruct (Start_pins_server _ _ _ _ _ _ HS) as [Haddr Hip].
  unfold dialWebSocketWithECH in HD. rewrite HP in HD.
  apply dialLoop_attempt in HD. destruct HD as (_ & ech & ->).
  split; [unfold parseServerAddr in *; now rewrite <- Haddr |].
  split; [reflexivity |]. split; [reflexivity |].
  split.
  - unfold dialAttempt. simpl. rewrite Hip. fold pinned.
    assert (Hne : String.eqb pinned "" = false).
    { subst pinned. destruct (String.eqb (ServerIP (config s)) "") eqn:E; [reflexivity | exact E]. }
    now rewrite Hne.
  - intros cfg echBytes Hc. unfold dialAttempt. simpl. now rewrite Hc.
Qed.

End DialFacts.

Section DialClaims.

Import IPAddr Client Fixtures.

(** C3, as the specification states it, fails: the client started with
    its default configuration (no [-ip]) for the relay x.workers.dev:443
    opens its TCP connection to www.visa.com:443, not to the logical
    host; the TLS server name is the logical host. *)
Lemma C3_counterexample :
  let s := newServer (defaultConfig "global") in
  let started := fst (Start parseIPv4 (ECH.Reply 200 (Some echAnswer))
                        Unavailable Unavailable true s) in
  let dialed := snd (dialWebSocketWithECH (mkTLSEnv None true true) (fun _ _ => None)
                       (fun _ => ECH.Reply 200 (Some echAnswer)) 2 started) in
  ServerIP (config s) = ""
  /\ running started = true
  /\ exists a, dialed = inl a
               /\ tcpAddress a = inl "www.visa.com:443"
               /\ tcpAddress a <> inl "x.workers.dev:443"
               /\ tlsServerName a = "x.workers.dev".
Proof.
  split; [reflexivity |]. split; [reflexivity |].
  eexists. split; [vm_compute; reflexivity |].
  split; [reflexivity |]. split; [discriminate | reflexivity].
Qed.

Lemma C3_dial_endpoint_after_start_witness :
  let reply := ECH.Reply 200 (Some echAnswer) in
  let s := newServer (withServerIP (defaultConfig "global") "104.16.1.1") in
  let started := fst (Start parseIPv4 reply Unavailable Unavailable true s) in
  exists a,
    snd (dialWebSocketWithECH (mkTLSEnv None true true) (fun _ _ => None) (fun _ => reply)
           2 started) = inl a
    /\ tlsServerName a = "x.workers.dev"
    /\ wsURL a = "wss://x.workers.dev:443/"
    /\ tcpAddress a = inl "104.16.1.1:443".
Proof.
  intros reply s started.
  pose (dialed := dialWebSocketWithECH (mkTLSEnv None true true) (fun _ _ => None)
                    (fun _ => reply) 2 started).
  assert (Hd : exists a, dialed = (started, inl a)) by (eexists; vm_compute; reflexivity).
  destruct Hd as [a Ha]. exists a.
  split; [fold dialed; now rewrite Ha |].
  destruct (C3_dial_endpoint_after_start parseIPv4 reply Unavailable Unavailable s started
              started (mkTLSEnv None true true) (fun _ _ => None) (fun _ => reply)
              "x.workers.dev" "443" "/" a
              eq_refl eq_refl Ha) as (_ & H1 & H2 & H3 & _).
  split; [exact H1 |]. split; [exact H2 |].
  rewrite H3, SplitHostPort_urlHostPort by reflexivity. reflexivity.
Defined.

End DialClaims.

(** *** C5: the totals and the sums over the sites *)

Section StatsFacts.

Import Stats.

Local Open Scope Z_scope.

Lemma wrap64_small (z : Z) : - 2 ^ 63 <= z < 2 ^ 63 -> wrap64 z = z.
Proof. intros H. unfold wrap64. rewrite Z.mod_small; lia. Qed.

Lemma wrap64_range (z : Z) : - 2 ^ 63 <= wrap64 z < 2 ^ 63.
Proof. unfold wrap64. pose proof (Z.mod_pos_bound (z + 2 ^ 63) (2 ^ 64)). lia. Qed.

Lemma wrap64_idem (z : Z) : wrap64 (wrap64 z) = wrap64 z.
Proof. apply wrap64_small, wrap64_range. Qed.

Lemma wrap64_add_l (a b : Z) : wrap64 (wrap64 a + b) = wrap64 (a + b).
Proof.
  unfold wrap64. f_equal.
  replace ((a + 2 ^ 63) mod 2 ^ 64 - 2 ^ 63 + b + 2 ^ 63)
    with ((a + 2 ^ 63) mod 2 ^ 64 + b) by lia.
  rewrite Zplus_mod_idemp_l. f_equal. lia.
Qed.

Lemma wrap64_add_r (a b : Z) : wrap64 (a + wrap64 b) = wrap64 (a + b).
Proof. rewrite (Z.add_comm a), wrap64_add_l. f_equal. lia. Qed.

(** The sum of a field over the sites, as [sumUpload] and [sumDownload]
    take it. *)
Abbreviation sumOf f := (map_fold (fun (_ : string) (s : SiteStats) (acc : Z) => f s + acc) 0).

Lemma sum_insert_fresh (f : SiteStats -> Z) (m : gmap string SiteStats) (h : string)
    (x : SiteStats) :
  m !! h = None -> sumOf f (<[h := x]> m) = f x + sumOf f m.
Proof.
  intros H.
  apply (map_fold_insert_L (fun (_ : string) (s : SiteStats) (acc : Z) => f s + acc) 0 h x m);
    [intros; lia | exact H].
Qed.

Lemma sum_insert_update (f : SiteStats -> Z) (m : gmap string SiteStats) (h : string)
    (x y : SiteStats) :
  m !! h = Some y -> sumOf f (<[h := x]> m) = sumOf f m - f y + f x.
Proof.
  intros H. rewrite <- insert_delete_eq.
  rewrite sum_insert_fresh by apply lookup_delete_eq.
  rewrite (map_fold_delete_L (fun (_ : string) (s : SiteStats) (acc : Z) => f s + acc) 0 h y m);
    [lia | intros; lia | exact H].
Qed.

Lemma RecordConnection_totalsMatch (now : Z) (h : string) (ts : TrafficStats) :
  totalsMatch ts -> totalsMatch (RecordConnection now h ts).
Proof.
  unfold totalsMatch, RecordConnection, sumUpload, sumDownload.
  intros [Hu Hd]. destruct (sites ts !! h) as [y|] eqn:E; simpl.
  - rewrite !(sum_insert_update _ _ _ _ y E). simpl.
    rewrite Hu, Hd. split; f_equal; lia.
  - rewrite !(sum_insert_fresh _ _ _ _ E). simpl. now rewrite Hu, Hd.
Qed.

Lemma RecordUpload_totalsMatch (now : Z) (h : string) (n : Z) (ts : TrafficStats) :
  is_Some (sites ts !! h) -> totalsMatch ts -> totalsMatch (RecordUpload now h n ts).
Proof.
  unfold totalsMatch, RecordUpload, sumUpload, sumDownload, add64.
  intros [y E] [Hu Hd]. rewrite E. simpl.
  rewrite !(sum_insert_update _ _ _ _ y E). simpl. split.
  - rewrite Hu, wrap64_add_l.
    replace (sumOf Upload (sites ts) - Upload y + wrap64 (Upload y + n))
      with ((sumOf Upload (sites ts) - Upload y) + wrap64 (Upload y + n)) by lia.
    rewrite wrap64_add_r. f_equal. lia.
  - rewrite Hd. f_equal. lia.
Qed.


(** The sites known after a call. *)
Lemma apply_dom (now : Z) (o : Op) (ts : TrafficStats) :
  dom (sites (apply now o ts))
  = match o with
    | OpConnection h => {[h]} ∪ dom (sites ts)
    | _ => dom (sites ts)
    end.
Proof.
  destruct o as [h|h n|h n]; simpl;
    unfold RecordConnection, RecordUpload, RecordDownload;
    destruct (sites ts !! h) as [y|] eqn:E; simpl; rewrite ?dom_insert_L; try reflexivity.
  all: assert (h ∈ dom (sites ts)) by (apply elem_of_dom; eauto); set_solver.
Qed.


(** The entry of a site after a run, from the entry before it. *)
Lemma run_site (clock : nat -> Z) (ops : list Op) (i : nat) (h : string)
    (ts : TrafficStats) (y : SiteStats) :
  sites ts !! h = Some y -> int64Site y ->
  exists s,
    sites (run clock i ops ts) !! h = Some s
    /\ Upload s = wrap64 (Upload y + uploaded h ops)
    /\ Download s = wrap64 (Download y + downloaded h ops)
    /\ Connections s = wrap64 (Connections y + connections h ops).
Proof.
  revert i ts y. induction ops as [|o ops IH]; intros i ts y Hy (Ru & Rd & Rc).
  - exists y. simpl. now rewrite !Z.add_0_r, Ru, Rd, Rc.
  - simpl run.
    assert (Hstep : exists y',
               sites (apply (clock i) o ts) !! h = Some y'
               /\ Upload y' = wrap64 (Upload y + uploaded h [o])
               /\ Download y' = wrap64 (Download y + downloaded h [o])
               /\ Connections y' = wrap64 (Connections y + connections h [o])).
    { destruct o as [g|g n|g n]; simpl;
        unfold RecordConnection, RecordUpload, RecordDownload, add64;
        destruct (decide (g = h)) as [->|Hne];
        rewrite ?Hy; try destruct (sites ts !! g) as [z|] eqn:Eg; simpl;
        rewrite ?lookup_insert_eq, ?lookup_insert_ne by exact Hne;
        eexists; (split; [reflexivity || exact Hy |]); simpl;
        rewrite ?Z.add_0_r, ?Ru, ?Rd, ?Rc; repeat split; f_equal; lia. }
    destruct Hstep as (y' & Hy' & Hu & Hd & Hc).
    assert (Hr : int64Site y').
    { unfold int64Site. rewrite Hu, Hd, Hc. now rewrite !wrap64_idem. }
    destruct (IH (S i) _ y' Hy' Hr) as (s & Hs & Hsu & Hsd & Hsc).
    exists s. split; [exact Hs |].
    rewrite Hsu, Hsd, Hsc, Hu, Hd, Hc, !wrap64_add_l.
    destruct o as [g|g n|g n]; simpl; repeat split; f_equal; lia.
Qed.

Lemma connections_bound (h : string) (ops : list Op) :
  0 <= connections h ops <= Z.of_nat (length ops).
Proof.
  induction ops as [|o ops IH]; simpl; [lia |].
  destruct o as [g|g n|g n]; try lia. destruct (decide (g = h)); lia.
Qed.


End StatsFacts.

Section StatsClaims.

Import Stats.

Local Open Scope Z_scope.



End StatsClaims.

(** *** Base64: decoding undoes encoding *)

Section Base64Facts.

Import Base64.

Local Open Scope N_scope.

Lemma alphabet_checked :
  forallb (fun k =>
             let i := N.of_nat k in
             match dec (enc i) with Some j => N.eqb j i | None => false end
             && negb (Ascii.eqb (enc i) padChar) && negb (isCRLF (enc i)))
    (seq 0 64) = true.
Proof. vm_compute. reflexivity. Qed.

(** The characters of the alphabet decode to their index, and none is
    the padding or a line break. *)
Lemma enc_props (i : N) :
  i < 64 ->
  dec (enc i) = Some i /\ Ascii.eqb (enc i) padChar = false /\ isCRLF (enc i) = false.
Proof.
  intros Hi. pose proof alphabet_checked as H. rewrite forallb_forall in H.
  specialize (H (N.to_nat i)). rewrite N2Nat.id in H.
  assert (Hin : In (N.to_nat i) (seq 0 64)) by (apply in_seq; lia).
  apply H in Hin. cbv zeta in Hin.
  apply andb_true_iff in Hin. destruct Hin as [Hin H3].
  apply andb_true_iff in Hin. destruct Hin as [H1 H2].
  apply negb_true_iff in H2, H3.
  destruct (dec (enc i)) as [j|]; [| discriminate].
  apply N.eqb_eq in H1. now subst j.
Qed.

Lemma byteOfN_to_N (n : N) (a : byte) : n mod 256 = Byte.to_N a -> byteOfN n = a.
Proof. intros H. unfold byteOfN. now rewrite H, Byte.of_to_N. Qed.

Ltac euclid := zify; Z.to_euclidean_division_equations; lia.

(** The four 6-bit values of three bytes, and the bytes back. *)
Lemma quantum_indices (a b c : N) :
  a <= 255 -> b <= 255 -> c <= 255 ->
  let v := a * 65536 + b * 256 + c in
  v / 262144 < 64 /\ (v / 4096) mod 64 < 64 /\ (v / 64) mod 64 < 64 /\ v mod 64 < 64
  /\ (v / 262144) * 262144 + ((v / 4096) mod 64) * 4096 + ((v / 64) mod 64) * 64 + v mod 64 = v.
Proof. intros Ha Hb Hc v. subst v. repeat split; euclid. Qed.

Lemma quantum_bytes (a b c : N) :
  a <= 255 -> b <= 255 -> c <= 255 ->
  let v := a * 65536 + b * 256 + c in
  (v / 65536) mod 256 = a /\ (v / 256) mod 256 = b /\ v mod 256 = c.
Proof. intros Ha Hb Hc v. subst v. repeat split; euclid. Qed.

Lemma triples_ind (P : list byte -> Prop) :
  P [] -> (forall a, P [a]) -> (forall a b, P [a; b]) ->
  (forall a b c rest, P rest -> P (a :: b :: c :: rest)) ->
  forall v, P v.
Proof.
  intros H0 H1 H2 H3. fix IH 1.
  intros [|a [|b [|c rest]]]; [exact H0 | apply H1 | apply H2 | apply H3, IH].
Qed.

(** The equations of the encoder and of the decoder. *)
Lemma EncodeToString_1 (a : byte) :
  EncodeToString [a]
  = String (enc (Byte.to_N a * 65536 / 262144))
      (String (enc ((Byte.to_N a * 65536 / 4096) mod 64))
         (String padChar (String padChar EmptyString))).
Proof. reflexivity. Qed.

Lemma EncodeToString_2 (a b : byte) :
  EncodeToString [a; b]
  = String (enc ((Byte.to_N a * 65536 + Byte.to_N b * 256) / 262144))
      (String (enc (((Byte.to_N a * 65536 + Byte.to_N b * 256) / 4096) mod 64))
         (String (enc (((Byte.to_N a * 65536 + Byte.to_N b * 256) / 64) mod 64))
            (String padChar EmptyString))).
Proof. reflexivity. Qed.

Lemma EncodeToString_3 (a b c : byte) (rest : list byte) :
  EncodeToString (a :: b :: c :: rest)
  = String (enc ((Byte.to_N a * 65536 + Byte.to_N b * 256 + Byte.to_N c) / 262144))
      (String (enc (((Byte.to_N a * 65536 + Byte.to_N b * 256 + Byte.to_N c) / 4096) mod 64))
         (String (enc (((Byte.to_N a * 65536 + Byte.to_N b * 256 + Byte.to_N c) / 64) mod 64))
            (String (enc ((Byte.to_N a * 65536 + Byte.to_N b * 256 + Byte.to_N c) mod 64))
               (EncodeToString rest)))).
Proof. reflexivity. Qed.

Lemma list_ascii_of_String (c : ascii) (s : string) :
  list_ascii_of_string (String c s) = c :: list_ascii_of_string s.
Proof. reflexivity. Qed.

Lemma filter_enc (i : N) (l : list ascii) :
  i < 64 ->
  List.filter (fun c => negb (isCRLF c)) (enc i :: l)
  = enc i :: List.filter (fun c => negb (isCRLF c)) l.
Proof.
  intros H. destruct (enc_props i H) as (_ & _ & E). cbn [List.filter]. now rewrite E.
Qed.

Lemma filter_pad (l : list ascii) :
  List.filter (fun c => negb (isCRLF c)) (padChar :: l)
  = padChar :: List.filter (fun c => negb (isCRLF c)) l.
Proof. reflexivity. Qed.

Lemma decodeQuanta_full (i1 i2 i3 i4 : N) (rest : list ascii) (out : list byte) :
  i1 < 64 -> i2 < 64 -> i3 < 64 -> i4 < 64 ->
  decodeQuanta rest = Some out ->
  decodeQuanta (enc i1 :: enc i2 :: enc i3 :: enc i4 :: rest)
  = Some (byteOfN ((i1 * 262144 + i2 * 4096 + i3 * 64 + i4) / 65536)
          :: byteOfN ((i1 * 262144 + i2 * 4096 + i3 * 64 + i4) / 256)
          :: byteOfN (i1 * 262144 + i2 * 4096 + i3 * 64 + i4) :: out).
Proof.
  intros H1 H2 H3 H4 Hr.
  destruct (enc_props i1 H1) as (D1 & _). destruct (enc_props i2 H2) as (D2 & _).
  destruct (enc_props i3 H3) as (D3 & P3 & _). destruct (enc_props i4 H4) as (D4 & P4 & _).
  cbn [decodeQuanta]. now rewrite D1, D2, P3, D3, P4, D4, Hr.
Qed.

Lemma decodeQuanta_two (i1 i2 i3 : N) :
  i1 < 64 -> i2 < 64 -> i3 < 64 ->
  decodeQuanta [enc i1; enc i2; enc i3; padChar]
  = Some [byteOfN ((i1 * 262144 + i2 * 4096 + i3 * 64) / 65536);
          byteOfN ((i1 * 262144 + i2 * 4096 + i3 * 64) / 256)].
Proof.
  intros H1 H2 H3.
  destruct (enc_props i1 H1) as (D1 & _). destruct (enc_props i2 H2) as (D2 & _).
  destruct (enc_props i3 H3) as (D3 & P3 & _).
  cbn [decodeQuanta]. now rewrite D1, D2, P3, D3, Ascii.eqb_refl.
Qed.

Lemma decodeQuanta_one (i1 i2 : N) :
  i1 < 64 -> i2 < 64 ->
  decodeQuanta [enc i1; enc i2; padChar; padChar]
  = Some [byteOfN ((i1 * 262144 + i2 * 4096) / 65536)].
Proof.
  intros H1 H2.
  destruct (enc_props i1 H1) as (D1 & _). destruct (enc_props i2 H2) as (D2 & _).
  cbn [decodeQuanta]. now rewrite D1, D2, Ascii.eqb_refl.
Qed.

(** The arithmetic of the padded quanta. *)
Lemma quantum_one (a : N) :
  a <= 255 ->
  a * 65536 / 262144 < 64 /\ (a * 65536 / 4096) mod 64 < 64
  /\ (((a * 65536 / 262144) * 262144 + ((a * 65536 / 4096) mod 64) * 4096) / 65536)
       mod 256 = a.
Proof. intros Ha. repeat split; euclid. Qed.

Lemma quantum_two (a b : N) :
  a <= 255 -> b <= 255 ->
  (a * 65536 + b * 256) / 262144 < 64
  /\ ((a * 65536 + b * 256) / 4096) mod 64 < 64
  /\ ((a * 65536 + b * 256) / 64) mod 64 < 64
  /\ ((((a * 65536 + b * 256) / 262144) * 262144
        + (((a * 65536 + b * 256) / 4096) mod 64) * 4096
        + (((a * 65536 + b * 256) / 64) mod 64) * 64) / 65536) mod 256 = a
  /\ ((((a * 65536 + b * 256) / 262144) * 262144
        + (((a * 65536 + b * 256) / 4096) mod 64) * 4096
        + (((a * 65536 + b * 256) / 64) mod 64) * 64) / 256) mod 256 = b.
Proof. intros Ha Hb. repeat split; euclid. Qed.

(** No byte of an encoding is skipped by the decoder. *)
Lemma encoding_has_no_line_break (v : list byte) :
  List.filter (fun c => negb (isCRLF c)) (list_ascii_of_string (EncodeToString v))
  = list_ascii_of_string (EncodeToString v).
Proof.
  induction v as [|a|a b|a b c rest IH] using triples_ind; [reflexivity | | |].
  - destruct (quantum_one _ (Byte.to_N_bounded a)) as (H1 & H2 & _).
    rewrite EncodeToString_1, !list_ascii_of_String.
    now rewrite (filter_enc _ _ H1), (filter_enc _ _ H2), !filter_pad.
  - destruct (quantum_two _ _ (Byte.to_N_bounded a) (Byte.to_N_bounded b))
      as (H1 & H2 & H3 & _).
    rewrite EncodeToString_2, !list_ascii_of_String.
    now rewrite (filter_enc _ _ H1), (filter_enc _ _ H2), (filter_enc _ _ H3), !filter_pad.
  - destruct (quantum_indices _ _ _ (Byte.to_N_bounded a) (Byte.to_N_bounded b)
                (Byte.to_N_bounded c)) as (H1 & H2 & H3 & H4 & _).
    rewrite EncodeToString_3, !list_ascii_of_String.
    now rewrite (filter_enc _ _ H1), (filter_enc _ _ H2), (filter_enc _ _ H3),
      (filter_enc _ _ H4), IH.
Qed.

Lemma decodeQuanta_encoding (v : list byte) :
  decodeQuanta (list_ascii_of_string (EncodeToString v)) = Some v.
Proof.
  induction v as [|a|a b|a b c rest IH] using triples_ind; [reflexivity | | |].
  - destruct (quantum_one _ (Byte.to_N_bounded a)) as (H1 & H2 & B1).
    rewrite EncodeToString_1, !list_ascii_of_String.
    change (list_ascii_of_string EmptyString) with (@nil ascii).
    rewrite (decodeQuanta_one _ _ H1 H2).
    now rewrite (byteOfN_to_N _ a B1).
  - destruct (quantum_two _ _ (Byte.to_N_bounded a) (Byte.to_N_bounded b))
      as (H1 & H2 & H3 & B1 & B2).
    rewrite EncodeToString_2, !list_ascii_of_String.
    change (list_ascii_of_string EmptyString) with (@nil ascii).
    rewrite (decodeQuanta_two _ _ _ H1 H2 H3).
    now rewrite (byteOfN_to_N _ a B1), (byteOfN_to_N _ b B2).
  - destruct (quantum_indices _ _ _ (Byte.to_N_bounded a) (Byte.to_N_bounded b)
                (Byte.to_N_bounded c)) as (H1 & H2 & H3 & H4 & Hv).
    destruct (quantum_bytes _ _ _ (Byte.to_N_bounded a) (Byte.to_N_bounded b)
                (Byte.to_N_bounded c)) as (B1 & B2 & B3).
    rewrite EncodeToString_3, !list_ascii_of_String.
    rewrite (decodeQuanta_full _ _ _ _ _ _ H1 H2 H3 H4 IH), Hv.
    now rewrite (byteOfN_to_N _ a B1), (byteOfN_to_N _ b B2), (byteOfN_to_N _ c B3).
Qed.

(** [DecodeString(EncodeToString(v)) = v]. *)
Lemma DecodeString_EncodeToString (v : list byte) :
  DecodeString (EncodeToString v) = Some v.
Proof.
  unfold DecodeString. rewrite encoding_has_no_line_break. apply decodeQuanta_encoding.
Qed.

(** Only the empty slice encodes to the empty string. *)
Lemma EncodeToString_empty (v : list byte) :
  String.eqb (EncodeToString v) "" = true <-> v = [].
Proof.
  split; [| intros ->; reflexivity].
  destruct v as [|a [|b [|c rest]]]; [reflexivity | discriminate ..].
Qed.

End Base64Facts.

(** *** C6: the parser on well-formed DNS answers *)

Section ResolverFacts.

Import ECH DNSWire.

Lemma to_nat_byteOfNat (n : nat) : n < 256 -> Byte.to_nat (byteOfNat n) = n.
Proof.
  intros H. unfold byteOfNat, Base64.byteOfN.
  rewrite N.mod_small by lia.
  destruct (Byte.of_N (N.of_nat n)) as [b|] eqn:E.
  - apply Byte.to_of_N in E. rewrite Byte.to_nat_via_N, E. lia.
  - apply Byte.of_N_None_iff in E. lia.
Qed.

(** Reading behind a prefix. *)
Lemma u8_app (pre l : list byte) (i : nat) : u8 (pre ++ l) (length pre + i) = u8 l i.
Proof. unfold u8. now rewrite app_nth2_plus. Qed.

Lemma u8_here (pre post : list byte) (b : byte) :
  u8 (pre ++ b :: post) (length pre) = Byte.to_nat b.
Proof. rewrite <- (Nat.add_0_r (length pre)), u8_app. reflexivity. Qed.

Lemma Uint16_be16 (pre post : list byte) (n : nat) :
  n < 256 * 256 -> Uint16 (pre ++ be16 n ++ post) (length pre) = n.
Proof.
  intros H. unfold Uint16, be16. cbn [app].
  rewrite u8_here, u8_app. unfold u8. cbn [nth].
  assert (n / 256 < 256) by (apply Nat.Div0.div_lt_upper_bound; lia).
  pose proof (Nat.mod_upper_bound n 256).
  rewrite !to_nat_byteOfNat by lia.
  pose proof (Nat.div_mod_eq n 256). lia.
Qed.

Lemma bytesSlice_app (pre l post : list byte) :
  bytesSlice (pre ++ l ++ post) (length pre) (length pre + length l) = l.
Proof.
  unfold bytesSlice. rewrite drop_app_length.
  replace (length pre + length l - length pre) with (length l) by lia.
  apply take_app_length.
Qed.

Lemma skipLabels_step (data : list byte) (fuel offset : nat) :
  offset < length data -> u8 data offset <> 0 ->
  skipLabels data (S fuel) offset = skipLabels data fuel (offset + u8 data offset + 1).
Proof.
  intros Hl Hu. cbn [skipLabels].
  apply Nat.ltb_lt in Hl. apply Nat.eqb_neq in Hu. now rewrite Hl, Hu.
Qed.

Lemma skipLabels_stop (data : list byte) (fuel offset : nat) :
  u8 data offset = 0 -> skipLabels data fuel offset = offset.
Proof.
  intros Hu. destruct fuel as [|fuel]; [reflexivity |]. cbn [skipLabels].
  rewrite Hu. cbn [Nat.eqb negb]. now rewrite andb_false_r.
Qed.

(** The label loop stops on the zero byte that closes a name. *)
Lemma skipLabels_name (labels : list (list byte)) (pre post : list byte) (fuel : nat) :
  forallb wfLabel labels = true ->
  length labels < fuel ->
  skipLabels (pre ++ flat_map encodeLabel labels ++ x00 :: post) fuel (length pre)
  = length pre + length (flat_map encodeLabel labels).
Proof.
  revert pre fuel. induction labels as [|l labels IH]; intros pre fuel Hwf Hf.
  - cbn [flat_map app length]. rewrite skipLabels_stop; [lia | apply u8_here].
  - destruct fuel as [|fuel]; [simpl in Hf; lia |].
    cbn [forallb] in Hwf. apply andb_true_iff in Hwf. destruct Hwf as [Hl Hwf].
    unfold wfLabel in Hl. apply andb_true_iff in Hl. destruct Hl as [Hl1 Hl2].
    apply Nat.leb_le in Hl1, Hl2. cbn [length] in Hf.
    assert (Hu : u8 (pre ++ flat_map encodeLabel (l :: labels) ++ x00 :: post) (length pre)
                 = length l).
    { cbn [flat_map]. unfold encodeLabel at 1. cbn [app].
      rewrite u8_here. apply to_nat_byteOfNat. lia. }
    rewrite skipLabels_step; rewrite ?Hu; [| rewrite !length_app; simpl; lia | lia].
    replace (pre ++ flat_map encodeLabel (l :: labels) ++ x00 :: post)
      with ((pre ++ encodeLabel l) ++ flat_map encodeLabel labels ++ x00 :: post)
      by (cbn [flat_map]; now rewrite <- !app_assoc).
    replace (length pre + length l + 1) with (length (pre ++ encodeLabel l))
      by (rewrite length_app; simpl; lia).
    rewrite IH by (assumption || lia).
    cbn [flat_map]. rewrite !length_app. lia.
Qed.

Lemma length_flat_map_ge {A : Type} (f : A -> list byte) (l : list A) :
  (forall x, 1 <= length (f x)) -> length l <= length (flat_map f l).
Proof.
  intros Hf. induction l as [|x l IH]; simpl; [lia |].
  rewrite length_app. specialize (Hf x). lia.
Qed.

Lemma svcParams_end (data : list byte) (fuel offset : nat) :
  length data < offset + 4 -> svcParams data fuel offset = "".
Proof.
  intros H. destruct fuel as [|fuel]; [reflexivity |]. cbn [svcParams].
  now replace (offset + 4 <=? length data) with false by (symmetry; apply Nat.leb_gt; lia).
Qed.

Lemma svcParams_step (data : list byte) (fuel offset : nat) :
  offset + 4 + Uint16 data (offset + 2) <= length data ->
  svcParams data (S fuel) offset =
    if Uint16 data offset =? 5
    then Base64.EncodeToString
           (bytesSlice data (offset + 4) (offset + 4 + Uint16 data (offset + 2)))
    else svcParams data fuel (offset + 4 + Uint16 data (offset + 2)).
Proof.
  intros H. cbn [svcParams].
  replace (offset + 4 <=? length data) with true by (symmetry; apply Nat.leb_le; lia).
  now replace (length data <? offset + 4 + Uint16 data (offset + 2)) with false
    by (symmetry; apply Nat.ltb_ge; lia).
Qed.

(** The SvcParams loop returns the value of the first key 5. *)
Lemma svcParams_params (params : list SvcParam) (pre : list byte) (fuel : nat) :
  forallb wfParam params = true ->
  length params < fuel ->
  svcParams (pre ++ flat_map encodeParam params) fuel (length pre)
  = Base64.EncodeToString (echOfParams params).
Proof.
  revert pre fuel. induction params as [|p params IH]; intros pre fuel Hwf Hf.
  - cbn [flat_map]. rewrite app_nil_r. apply svcParams_end. lia.
  - destruct fuel as [|fuel]; [simpl in Hf; lia |]. cbn [length] in Hf.
    cbn [forallb] in Hwf. apply andb_true_iff in Hwf. destruct Hwf as [Hp Hwf].
    unfold wfParam in Hp. apply andb_true_iff in Hp. destruct Hp as [Hk Hv].
    apply Nat.ltb_lt in Hk, Hv.
    set (rest := flat_map encodeParam params).
    set (data := pre ++ flat_map encodeParam (p :: params)).
    assert (Hkey : Uint16 data (length pre) = paramKey p).
    { subst data. cbn [flat_map]. unfold encodeParam at 1. rewrite <- !app_assoc.
      now apply Uint16_be16. }
    assert (Hlen : Uint16 data (length pre + 2) = length (paramValue p)).
    { subst data. cbn [flat_map]. unfold encodeParam at 1.
      replace (pre ++ (be16 (paramKey p) ++ be16 (length (paramValue p)) ++ paramValue p)
               ++ flat_map encodeParam params)
        with ((pre ++ be16 (paramKey p)) ++ be16 (length (paramValue p))
              ++ paramValue p ++ flat_map encodeParam params)
        by (now rewrite <- !app_assoc).
      replace (length pre + 2) with (length (pre ++ be16 (paramKey p)))
        by (now rewrite length_app).
      now apply Uint16_be16. }
    assert (Hval : bytesSlice data (length pre + 4) (length pre + 4 + length (paramValue p))
                   = paramValue p).
    { subst data. cbn [flat_map]. unfold encodeParam at 1.
      replace (pre ++ (be16 (paramKey p) ++ be16 (length (paramValue p)) ++ paramValue p)
               ++ flat_map encodeParam params)
        with ((pre ++ be16 (paramKey p) ++ be16 (length (paramValue p)))
              ++ paramValue p ++ flat_map encodeParam params)
        by (now rewrite <- !app_assoc).
      replace (length pre + 4)
        with (length (pre ++ be16 (paramKey p) ++ be16 (length (paramValue p))))
        by (rewrite !length_app; reflexivity).
      apply bytesSlice_app. }
    assert (Hdata : data = (pre ++ encodeParam p) ++ rest)
      by (subst data rest; cbn [flat_map]; now rewrite <- !app_assoc).
    rewrite svcParams_step; rewrite ?Hlen, ?Hkey, ?Hval.
    + unfold echOfParams. cbn [List.find]. destruct (paramKey p =? 5); [reflexivity |].
      rewrite Hdata.
      replace (length pre + 4 + length (paramValue p)) with (length (pre ++ encodeParam p))
        by (unfold encodeParam; rewrite !length_app; simpl; lia).
      apply IH; [assumption | lia].
    + rewrite Hdata. unfold encodeParam. rewrite !length_app. simpl. lia.
Qed.

(** [parseHTTPSRecord] on the data of an HTTPS record. *)
Lemma parseHTTPSRecord_https (priority : nat) (target : list (list byte))
    (params : list SvcParam) :
  wfRData (HTTPS priority target params) = true ->
  parseHTTPSRecord (encodeRData (HTTPS priority target params))
  = Base64.EncodeToString (echOfParams params).
Proof.
  cbn [wfRData encodeRData]. intros Hwf.
  apply andb_true_iff in Hwf. destruct Hwf as [Hwf Hps].
  apply andb_true_iff in Hwf. destruct Hwf as [Hpr Ht].
  set (data := be16 priority ++ encodeName target ++ flat_map encodeParam params).
  assert (Hlen : length data
                 = 3 + length (flat_map encodeLabel target)
                   + length (flat_map encodeParam params)).
  { subst data. unfold encodeName. rewrite !length_app. simpl. lia. }
  assert (Hps' : length params <= length (flat_map encodeParam params)).
  { apply length_flat_map_ge. intros x. unfold encodeParam. rewrite length_app. simpl. lia. }
  assert (Hoff : (if (2 <? length data) && (u8 data 2 =? 0) then 2 + 1
                  else skipLabels data (length data) 2 + 1)
                 = length (be16 priority ++ encodeName target)).
  { replace (2 <? length data) with true by (symmetry; apply Nat.ltb_lt; lia).
    cbn [andb]. subst data. unfold encodeName. rewrite <- !app_assoc.
    destruct target as [|l target].
    - cbn [flat_map app]. change 2 with (length (be16 priority)) at 1.
      rewrite u8_here. reflexivity.
    - assert (Hl : 1 <= length l <= 63).
      { cbn [forallb] in Ht. apply andb_true_iff in Ht. destruct Ht as [Hl _].
        unfold wfLabel in Hl. apply andb_true_iff in Hl. destruct Hl as [H1 H2].
        apply Nat.leb_le in H1, H2. lia. }
      assert (Hu : u8 (be16 priority ++ flat_map encodeLabel (l :: target)
                      ++ [x00] ++ flat_map encodeParam params) 2 = length l).
      { cbn [flat_map]. unfold encodeLabel at 1. cbn [app].
        change 2 with (length (be16 priority)) at 1.
        rewrite u8_here. apply to_nat_byteOfNat. lia. }
      rewrite Hu. replace (length l =? 0) with false by (symmetry; apply Nat.eqb_neq; lia).
      cbn [app].
      match goal with
      | |- context [skipLabels ?d ?f 2] =>
          change (skipLabels d f 2) with (skipLabels d f (length (be16 priority)))
      end.
      rewrite skipLabels_name;
        [rewrite !length_app; cbn [length]; lia | exact Ht |].
      assert (length (l :: target) <= length (flat_map encodeLabel (l :: target)))
        by (apply length_flat_map_ge; intros x; cbn [encodeLabel length]; lia).
      rewrite !length_app. cbn [length] in *. lia. }
  unfold parseHTTPSRecord. fold data.
  replace (length data <? 2) with false by (symmetry; apply Nat.ltb_ge; lia).
  rewrite Hoff. subst data. rewrite app_assoc.
  apply svcParams_params; [exact Hps |].
  rewrite !length_app. unfold encodeName. rewrite length_app. cbn [length]. lia.
Qed.

(** A byte starts a pointer exactly when it is 192 or more. *)
Lemma pointer_byte (b : byte) :
  (Nat.land (Byte.to_nat b) 192 =? 192) = (192 <=? Byte.to_nat b).
Proof. destruct b; reflexivity. Qed.

Lemma length_byte_not_pointer (n : nat) : n <= 63 -> (Nat.land n 192 =? 192) = false.
Proof.
  intros H. rewrite <- (to_nat_byteOfNat n) at 1 by lia.
  rewrite pointer_byte, to_nat_byteOfNat by lia. apply Nat.leb_gt. lia.
Qed.

(** One turn of the answer loop on a record that lies whole in the
    response: [nameEnd] is the offset behind its name. *)
Lemma answers_step (response : list byte) (count offset nameEnd : nat) :
  offset < length response ->
  (if Nat.land (u8 response offset) 192 =? 192 then offset + 2
   else skipLabels response (length response) offset + 1) = nameEnd ->
  nameEnd + 8 + 2 + Uint16 response (nameEnd + 8) <= length response ->
  answers response (S count) offset =
    let data := bytesSlice response (nameEnd + 8 + 2)
                  (nameEnd + 8 + 2 + Uint16 response (nameEnd + 8)) in
    let ech := if Uint16 response nameEnd =? typeHTTPS then parseHTTPSRecord data else "" in
    if negb (String.eqb ech "") then ech
    else answers response count (nameEnd + 8 + 2 + Uint16 response (nameEnd + 8)).
Proof.
  intros Hoff Hname Hfit. cbn [answers]. rewrite Hname.
  replace (length response <=? offset) with false by (symmetry; apply Nat.leb_gt; lia).
  replace (length response <? nameEnd + 10) with false by (symmetry; apply Nat.ltb_ge; lia).
  now replace (length response <? nameEnd + 8 + 2 + Uint16 response (nameEnd + 8))
    with false by (symmetry; apply Nat.ltb_ge; lia).
Qed.

(** The offset behind the name of an answer. *)
Lemma owner_end (n : OwnerName) (pre post : list byte) :
  wfOwner n = true ->
  let response := pre ++ encodeOwner n ++ post in
  (if Nat.land (u8 response (length pre)) 192 =? 192 then length pre + 2
   else skipLabels response (length response) (length pre) + 1)
  = length (pre ++ encodeOwner n).
Proof.
  intros Hwf response. subst response. destruct n as [labels | hi lo]; cbn [encodeOwner wfOwner] in *.
  - unfold encodeName. rewrite <- !app_assoc. cbn [app].
    assert (Hfirst : (Nat.land (u8 (pre ++ flat_map encodeLabel labels ++ x00 :: post)
                                  (length pre)) 192 =? 192) = false).
    { destruct labels as [|l labels].
      - cbn [flat_map app]. now rewrite u8_here.
      - cbn [forallb] in Hwf. apply andb_true_iff in Hwf. destruct Hwf as [Hl _].
        unfold wfLabel in Hl. apply andb_true_iff in Hl. destruct Hl as [H1 H2].
        apply Nat.leb_le in H1, H2.
        cbn [flat_map]. unfold encodeLabel at 1. cbn [app].
        rewrite u8_here, to_nat_byteOfNat by lia. now apply length_byte_not_pointer. }
    rewrite Hfirst, skipLabels_name; [rewrite !length_app; cbn [length]; lia | exact Hwf |].
    assert (length labels <= length (flat_map encodeLabel labels))
      by (apply length_flat_map_ge; intros x; cbn [encodeLabel length]; lia).
    rewrite !length_app. cbn [length]. lia.
  - cbn [app]. rewrite u8_here, pointer_byte, Hwf, length_app. reflexivity.
Qed.

(** The answer loop returns the first non-empty [ech] parameter. *)
Lemma answers_encoded (l : list Answer) (pre post : list byte) :
  forallb wfAnswer l = true ->
  answers (pre ++ flat_map encodeAnswer l ++ post) (length l) (length pre)
  = Base64.EncodeToString (firstECH l).
Proof.
  revert pre. induction l as [|a l IH]; intros pre Hwf; [reflexivity |].
  cbn [forallb] in Hwf. apply andb_true_iff in Hwf. destruct Hwf as [Ha Hwf].
  unfold wfAnswer in Ha.
  repeat (apply andb_true_iff in Ha; let H := fresh "Hw" in destruct Ha as [Ha H]).
  apply Nat.ltb_lt in Hw, Hw2. apply Nat.eqb_eq in Hw1.
  set (rd := encodeRData (rdata a)) in *.
  set (tail := flat_map encodeAnswer l ++ post).
  set (response := pre ++ flat_map encodeAnswer (a :: l) ++ post).
  set (p1 := pre ++ encodeOwner (owner a)).
  assert (Htype : rdataType (rdata a) < 256 * 256).
  { destruct (rdata a) as [pr tg ps | t d]; cbn [rdataType wfRData] in *.
    - unfold typeHTTPS. lia.
    - apply andb_true_iff in Hw0. destruct Hw0 as [Ht _]. now apply Nat.ltb_lt in Ht. }
  assert (Hr1 : response = pre ++ encodeOwner (owner a)
                           ++ (be16 (rdataType (rdata a)) ++ be16 (rrClass a) ++ rrTTL a
                               ++ be16 (length rd) ++ rd ++ tail)).
  { subst response tail rd. cbn [flat_map]. unfold encodeAnswer. now rewrite <- !app_assoc. }
  assert (Hr2 : response = p1 ++ be16 (rdataType (rdata a))
                           ++ (be16 (rrClass a) ++ rrTTL a ++ be16 (length rd) ++ rd ++ tail)).
  { rewrite Hr1. subst p1. now rewrite <- !app_assoc. }
  assert (Hr3 : response = (p1 ++ be16 (rdataType (rdata a)) ++ be16 (rrClass a) ++ rrTTL a)
                           ++ be16 (length rd) ++ (rd ++ tail)).
  { rewrite Hr2. now rewrite <- !app_assoc. }
  assert (Hr4 : response = (p1 ++ be16 (rdataType (rdata a)) ++ be16 (rrClass a) ++ rrTTL a
                            ++ be16 (length rd)) ++ rd ++ tail).
  { rewrite Hr3. now rewrite <- !app_assoc. }
  assert (Hr5 : response = (pre ++ encodeAnswer a) ++ flat_map encodeAnswer l ++ post).
  { subst response. cbn [flat_map]. now rewrite <- !app_assoc. }
  assert (L8 : length p1 + 8
               = length (p1 ++ be16 (rdataType (rdata a)) ++ be16 (rrClass a) ++ rrTTL a)).
  { rewrite !length_app, Hw1. cbn [length be16]. lia. }
  assert (L10 : length p1 + 8 + 2
                = length (p1 ++ be16 (rdataType (rdata a)) ++ be16 (rrClass a) ++ rrTTL a
                          ++ be16 (length rd))).
  { rewrite !length_app, Hw1. cbn [length be16]. lia. }
  assert (Hend : length p1 + 8 + 2 + length rd = length (pre ++ encodeAnswer a)).
  { subst p1 rd. unfold encodeAnswer. rewrite !length_app, Hw1. cbn [length be16]. lia. }
  assert (Hname : (if Nat.land (u8 response (length pre)) 192 =? 192 then length pre + 2
                   else skipLabels response (length response) (length pre) + 1)
                  = length p1).
  { rewrite Hr1. now apply owner_end. }
  assert (Hlen : Uint16 response (length p1 + 8) = length rd).
  { rewrite L8, Hr3. now apply Uint16_be16. }
  assert (Hty : Uint16 response (length p1) = rdataType (rdata a)).
  { rewrite Hr2. now apply Uint16_be16. }
  assert (Hdata : bytesSlice response (length p1 + 8 + 2) (length p1 + 8 + 2 + length rd) = rd).
  { rewrite L10, Hr4. apply bytesSlice_app. }
  cbn [length].
  rewrite (answers_step response (length l) (length pre) (length p1));
    [| rewrite Hr5, !length_app; subst p1; unfold encodeAnswer; rewrite !length_app;
       cbn [length]; lia
     | exact Hname
     | rewrite Hlen, Hend, Hr5, !length_app; lia].
  cbv zeta. rewrite Hlen, Hty, Hdata, Hend.
  assert (Hech : (if rdataType (rdata a) =? typeHTTPS then parseHTTPSRecord rd else "")
                 = Base64.EncodeToString (echOfAnswer a)).
  { unfold echOfAnswer. subst rd. destruct (rdata a) as [pr tg ps | t d] eqn:E.
    - cbn [rdataType]. rewrite Nat.eqb_refl. now apply parseHTTPSRecord_https.
    - cbn [rdataType wfRData] in *. apply andb_true_iff in Hw0. destruct Hw0 as [_ Hne].
      apply negb_true_iff in Hne. now rewrite Hne. }
  rewrite Hech. cbn [firstECH].
  destruct (String.eqb (Base64.EncodeToString (echOfAnswer a)) "") eqn:Ee.
  - apply EncodeToString_empty in Ee. rewrite Ee. cbn [negb].
    rewrite Hr5. now apply IH.
  - cbn [negb]. destruct (echOfAnswer a); [discriminate | reflexivity].
Qed.

Lemma length_encodeHeader (m : Message) : length (encodeHeader m) = 12.
Proof. reflexivity. Qed.

(** [parseDNSResponse] on the encoding of a well-formed message. *)
Lemma parseDNSResponse_encoded (m : Message) :
  wellFormed m = true ->
  parseDNSResponse (encodeMessage m) =
    match msgAnswers m with
    | [] => ("", Some ErrNoAnswerRecords)
    | _ => (Base64.EncodeToString (firstECH (msgAnswers m)), None)
    end.
Proof.
  unfold wellFormed. intros Hwf.
  apply andb_true_iff in Hwf. destruct Hwf as [Hwf Has].
  apply andb_true_iff in Hwf. destruct Hwf as [Hq Hn]. apply Nat.ltb_lt in Hn.
  set (response := encodeMessage m).
  assert (Hlen : 12 <= length response).
  { subst response. unfold encodeMessage. rewrite length_app, length_encodeHeader. lia. }
  assert (Hcount : Uint16 response 6 = length (msgAnswers m)).
  { assert (Hr : response
                 = (be16 (msgID m) ++ be16 (msgFlags m) ++ be16 1)
                   ++ be16 (length (msgAnswers m))
                   ++ (be16 (nsCount m) ++ be16 (arCount m) ++ encodeName (question m)
                       ++ be16 (qType m) ++ be16 (qClass m)
                       ++ flat_map encodeAnswer (msgAnswers m) ++ trailer m)).
    { subst response. unfold encodeMessage, encodeHeader. now rewrite <- !app_assoc. }
    rewrite Hr. change 6 with (length (be16 (msgID m) ++ be16 (msgFlags m) ++ be16 1)).
    now apply Uint16_be16. }
  assert (Hq' : length (question m) <= length (flat_map encodeLabel (question m)))
    by (apply length_flat_map_ge; intros x; cbn [encodeLabel length]; lia).
  assert (Hskip : skipLabels response (length response) 12
                  = 12 + length (flat_map encodeLabel (question m))).
  { assert (Hr : response
                 = encodeHeader m ++ flat_map encodeLabel (question m)
                   ++ x00 :: (be16 (qType m) ++ be16 (qClass m)
                              ++ flat_map encodeAnswer (msgAnswers m) ++ trailer m)).
    { subst response. unfold encodeMessage, encodeName. now rewrite <- !app_assoc. }
    change 12 with (length (encodeHeader m)). rewrite Hr.
    apply skipLabels_name; [exact Hq |].
    rewrite !length_app. cbn [length]. lia. }
  unfold parseDNSResponse. fold response.
  replace (length response <? 12) with false by (symmetry; apply Nat.ltb_ge; lia).
  rewrite Hcount, Hskip.
  destruct (msgAnswers m) as [|a l] eqn:Ea; [reflexivity |].
  cbn [length Nat.eqb]. f_equal.
  subst response. unfold encodeMessage. rewrite Ea.
  replace (encodeHeader m ++ encodeName (question m) ++ be16 (qType m) ++ be16 (qClass m)
           ++ flat_map encodeAnswer (a :: l) ++ trailer m)
    with ((encodeHeader m ++ encodeName (question m) ++ be16 (qType m) ++ be16 (qClass m))
          ++ flat_map encodeAnswer (a :: l) ++ trailer m)
    by (now rewrite <- !app_assoc).
  replace (12 + length (flat_map encodeLabel (question m)) + 5)
    with (length (encodeHeader m ++ encodeName (question m) ++ be16 (qType m)
                  ++ be16 (qClass m)))
    by (unfold encodeName; rewrite !length_app, length_encodeHeader; cbn [length be16]; lia).
  change (S (length l)) with (length (a :: l)).
  now apply answers_encoded.
Qed.

(** C6, amended.  For every well-formed DNS response (a header, one
    question, ANCOUNT answer records, each named by a pointer or by
    labels): when it has answers, the resolver returns, in base64 and
    without error, the value of the first non-empty key-5 SvcParam of
    its HTTPS records, and [prepareECH] stores exactly those bytes as
    the ECH list; when it has answers but no such parameter the resolver
    returns the empty string without error and [prepareECH] fails with
    the ech-not-found error; when ANCOUNT = 0 the resolver returns the
    empty string with the no-answer-records error and [prepareECH]
    fails with the DNS-query error that wraps it.  In the failing cases
    the ECH list is left as it was. *)
Theorem C6_resolver_on_well_formed_answers (m : Message) (echList : list byte) :
  wellFormed m = true ->
  let reply := Reply 200 (Some (encodeMessage m)) in
  let ech := firstECH (msgAnswers m) in
  (msgAnswers m <> [] ->
   queryHTTPSRecord reply = (Base64.EncodeToString ech, None)
   /\ (ech <> [] -> prepareECH reply echList = (ech, None))
   /\ (ech = [] ->
       queryHTTPSRecord reply = ("", None)
       /\ prepareECH reply echList = (echList, Some ErrECHNotFound)))
  /\ (msgAnswers m = [] ->
      queryHTTPSRecord reply = ("", Some ErrNoAnswerRecords)
      /\ prepareECH reply echList = (echList, Some (ErrDNSQueryFailed ErrNoAnswerRecords))).
Proof.
  intros Hwf reply ech. subst reply ech.
  pose proof (parseDNSResponse_encoded m Hwf) as Hp.
  unfold prepareECH, queryHTTPSRecord, queryDoH. cbn [Nat.eqb negb].
  split.
  - intros Hne. destruct (msgAnswers m) as [|a l] eqn:Ea; [congruence |].
    rewrite Hp. split; [reflexivity |]. split.
    + intros He.
      destruct (String.eqb (Base64.EncodeToString (firstECH (a :: l))) "") eqn:E.
      * apply EncodeToString_empty in E. congruence.
      * now rewrite DecodeString_EncodeToString.
    + intros He. rewrite He. split; reflexivity.
  - intros He. rewrite Hp, He. split; reflexivity.
Qed.

End ResolverFacts.

Section ResolverClaims.

Import ECH DNSWire Fixtures.

Example echAnswer_is_encoded : encodeMessage echMessage = echAnswer.
Proof. vm_compute. reflexivity. Qed.

(** The answer of the fixtures, parsed: the base64 of de ad be ef. *)
Example parse_echAnswer : parseDNSResponse echAnswer = ("3q2+7w==", None).
Proof. vm_compute. reflexivity. Qed.

(** C6, as the specification states it, fails for ANCOUNT = 0: the
    resolver does not just yield empty, it returns the no-answer-records
    error, and [prepareECH] fails with the DNS-query error, not with the
    ech-not-found error. *)
Lemma C6_counterexample :
  parseDNSResponse emptyAnswer = ("", Some ErrNoAnswerRecords)
  /\ prepareECH (Reply 200 (Some emptyAnswer)) []
     = ([], Some (ErrDNSQueryFailed ErrNoAnswerRecords))
  /\ prepareECH (Reply 200 (Some emptyAnswer)) [] <> ([], Some ErrECHNotFound).
Proof. split; [reflexivity |]. split; [reflexivity | discriminate]. Qed.

Lemma C6_resolver_on_well_formed_answers_witness :
  queryHTTPSRecord (Reply 200 (Some echAnswer)) = ("3q2+7w==", None)
  /\ prepareECH (Reply 200 (Some echAnswer)) [] = (echValue, None).
Proof.
  destruct (C6_resolver_on_well_formed_answers echMessage [] eq_refl) as (H & _).
  destruct H as (H1 & H2 & _); [discriminate |].
  split; [exact H1 |]. apply H2. discriminate.
Defined.

End ResolverClaims.

(** *** C8: the first frame and the target of an absolute-form request *)

Section HTTPFacts.

Import Client Proxy.

Lemma ReadString_line (line rest : string) :
  ContainsByte line LF = false ->
  ReadString (line +:+ String LF rest) = Some (line +:+ String LF "", rest).
Proof.
  unfold ContainsByte. induction line as [|c line IH]; simpl.
  - intros _. reflexivity.
  - destruct (Ascii.eqb c LF) eqn:E; [discriminate |].
    destruct (IndexByte line LF); [discriminate |]. intros _.
    now rewrite IH.
Qed.

(** Trailing bytes of the cut set do not change what [TrimRight]
    leaves. *)
Lemma TrimRightFunc_app (f : ascii -> bool) (s t : string) :
  TrimRightFunc f t = "" -> TrimRightFunc f (s +:+ t) = TrimRightFunc f s.
Proof.
  intros Ht. induction s as [|c s IH]; simpl; [exact Ht |]. now rewrite IH.
Qed.

Lemma FieldsFrom_word (w s : string) (cur : list ascii) :
  noSpace w = true ->
  FieldsFrom cur (w +:+ s) = FieldsFrom (rev (list_ascii_of_string w) ++ cur) s.
Proof.
  revert cur. induction w as [|c w IH]; intros cur Hw; [reflexivity |].
  simpl in Hw. apply andb_true_iff in Hw. destruct Hw as [Hc Hw].
  apply negb_true_iff in Hc. simpl. rewrite Hc, IH by exact Hw.
  now rewrite <- app_assoc.
Qed.

Lemma FieldsFrom_flush (w : string) (c : ascii) (s : string) :
  isWord w = true -> isSpace c = true ->
  FieldsFrom [] (w +:+ String c s) = w :: FieldsFrom [] s.
Proof.
  unfold isWord. intros Hw Hc. apply andb_true_iff in Hw. destruct Hw as [Hne Hw].
  rewrite FieldsFrom_word by exact Hw. rewrite app_nil_r. simpl. rewrite Hc.
  destruct w as [|x w]; [discriminate |].
  destruct (rev (list_ascii_of_string (String x w))) eqn:E.
  - apply (f_equal (@length ascii)) in E. rewrite length_rev in E. discriminate.
  - rewrite <- E, rev_involutive, string_of_list_ascii_of_string. reflexivity.
Qed.

Lemma Fields_request_line (method requestURL httpVersion : string) :
  isWord method = true -> isWord requestURL = true -> isWord httpVersion = true ->
  Fields (method +:+ " " +:+ requestURL +:+ " " +:+ httpVersion +:+ CRLF)
  = [method; requestURL; httpVersion].
Proof.
  intros Hm Hu Hv. unfold Fields, CRLF.
  change (" " +:+ requestURL +:+ " " +:+ httpVersion +:+ String "013" (String LF ""))
    with (String " " (requestURL +:+ String " " (httpVersion +:+ String "013" (String LF "")))).
  rewrite !FieldsFrom_flush by (assumption || reflexivity).
  reflexivity.
Qed.

Lemma isHeaderLine_facts (line : string) :
  isHeaderLine line = true ->
  line <> "" /\ ContainsByte line LF = false /\ TrimRightCRLF (line +:+ CRLF) = line.
Proof.
  unfold isHeaderLine. intros H.
  apply andb_true_iff in H. destruct H as [H Ht].
  apply andb_true_iff in H. destruct H as [Hne Hlf].
  apply negb_true_iff in Hne, Hlf. apply String.eqb_neq in Hne. apply String.eqb_eq in Ht.
  repeat split; [exact Hne | exact Hlf |].
  unfold TrimRightCRLF in *. now rewrite TrimRightFunc_app.
Qed.

Lemma length_headerBlock (lines : list string) :
  length lines <= String.length (headerBlock lines).
Proof.
  induction lines as [|l lines IH]; simpl; [lia |].
  rewrite !length_append. simpl. lia.
Qed.

(** The header loop on a block of header lines and the blank line. *)
Lemma readHeaders_block (lines : list string) (rest : string) (fuel : nat)
    (seen : list string) (headers : gmap string string) :
  forallb isHeaderLine lines = true ->
  length lines < fuel ->
  readHeaders fuel (headerBlock lines +:+ CRLF +:+ rest) seen headers
  = Some (seen ++ lines, fold_left recordHeader lines headers, rest).
Proof.
  revert fuel seen headers.
  induction lines as [|l lines IH]; intros fuel seen headers Hl Hf.
  - destruct fuel as [|fuel]; [simpl in Hf; lia |]. simpl. now rewrite app_nil_r.
  - destruct fuel as [|fuel]; [simpl in Hf; lia |].
    cbn [forallb] in Hl. apply andb_true_iff in Hl. destruct Hl as [Hl Hls].
    destruct (isHeaderLine_facts l Hl) as (Hne & Hlf & Htrim).
    cbn [headerBlock readHeaders].
    assert (Hread : ReadString ((l +:+ CRLF +:+ headerBlock lines) +:+ CRLF +:+ rest)
                    = Some (l +:+ CRLF, headerBlock lines +:+ CRLF +:+ rest)).
    { unfold CRLF at 1 3. rewrite !append_assoc.
      change (String "013" (String LF "") +:+ headerBlock lines +:+ CRLF +:+ rest)
        with (String "013" (String LF (headerBlock lines +:+ CRLF +:+ rest))).
      replace (l +:+ String "013" (String LF (headerBlock lines +:+ CRLF +:+ rest)))
        with ((l +:+ String "013" "") +:+ String LF (headerBlock lines +:+ CRLF +:+ rest))
        by (now rewrite append_assoc).
      rewrite ReadString_line.
      - now rewrite append_assoc.
      - apply ContainsByte_append; [exact Hlf | reflexivity]. }
    rewrite Hread, Htrim.
    apply String.eqb_neq in Hne. rewrite Hne.
    rewrite IH by (assumption || (simpl in Hf; lia)).
    now rewrite <- app_assoc.
Qed.

Lemma noSpace_no_LF (w : string) : noSpace w = true -> ContainsByte w LF = false.
Proof.
  unfold ContainsByte. induction w as [|c w IH]; [reflexivity |]. simpl.
  intros H. apply andb_true_iff in H. destruct H as [Hc Hw]. apply negb_true_iff in Hc.
  destruct (Ascii.eqb c LF) eqn:E.
  - apply Ascii.eqb_eq in E. subst c. discriminate.
  - specialize (IH Hw). now destruct (IndexByte w LF).
Qed.

Lemma isWord_noSpace (w : string) : isWord w = true -> noSpace w = true.
Proof. unfold isWord. intros H. now apply andb_true_iff in H. Qed.

(** The methods that [handleHTTP] forwards are words, and none is
    CONNECT. *)
Lemma forwarded_method (method : string) :
  isForwarded method = true -> isWord method = true /\ String.eqb method "CONNECT" = false.
Proof.
  unfold isForwarded, forwardedMethods. cbn [existsb]. intros H.
  repeat (apply orb_true_iff in H; destruct H as [H|H];
          [apply String.eqb_eq in H; subst method; split; reflexivity |]).
  discriminate.
Qed.

Lemma writeHeaders_filter (lines : list string) :
  writeHeaders lines = headerBlock (List.filter keptHeader lines).
Proof.
  induction lines as [|l lines IH]; [reflexivity |]. cbn [writeHeaders List.filter].
  destruct (keptHeader l); [cbn [headerBlock]; now rewrite IH | exact IH].
Qed.

Lemma requestOf_first_line (method requestURL httpVersion : string) (lines : list string)
    (rest : string) :
  requestOf method requestURL httpVersion lines rest
  = (method +:+ " " +:+ requestURL +:+ " " +:+ httpVersion +:+ String "013" "")
    +:+ String LF (headerBlock lines +:+ CRLF +:+ rest).
Proof. unfold requestOf, CRLF. now rewrite !append_assoc. Qed.

(** X16: [handleHTTP] on a request with one of the forwarded methods,
    sent as a request line, header lines and a blank line, all of them
    ASCII (the body may hold any bytes): without a target it answers
    400; otherwise it calls [handleTunnel] with the target (port 80
    added when the target holds no colon), in proxy mode, and with a
    first frame made of the request line with the path in place of the
    URL, the header lines that the proxy keeps, a blank line and the
    body. *)
Theorem handleHTTP_forwarded (method requestURL httpVersion : string) (lines : list string)
    (rest : string) :
  isForwarded method = true -> isWord requestURL = true -> isWord httpVersion = true ->
  forallb isHeaderLine lines = true ->
  isASCII requestURL = true -> isASCII httpVersion = true -> forallb isASCII lines = true ->
  handleHTTP (requestOf method requestURL httpVersion lines rest) =
    let headers := fold_left recordHeader lines ∅ in
    let '(target, path) := targetAndPath requestURL headers in
    if String.eqb target "" then (["HTTP/1.1 400 Bad Request" +:+ CRLF +:+ CRLF], Stop)
    else
      ([], CallTunnel (if negb (ContainsByte target ":") then target +:+ ":80" else target)
             modeHTTPProxy
             (method +:+ " " +:+ path +:+ " " +:+ httpVersion +:+ CRLF
              +:+ headerBlock (List.filter keptHeader lines) +:+ CRLF
              +:+ requestBody headers rest)).
Proof.
  intros Hm Hu Hv Hl _ _ _. destruct (forwarded_method method Hm) as [Hmw Hnc].
  unfold handleHTTP. rewrite requestOf_first_line, ReadString_line.
  - replace ((method +:+ " " +:+ requestURL +:+ " " +:+ httpVersion +:+ String "013" "")
             +:+ String LF "")
      with (method +:+ " " +:+ requestURL +:+ " " +:+ httpVersion +:+ CRLF)
      by (unfold CRLF; now rewrite !append_assoc).
    rewrite Fields_request_line by assumption.
    rewrite readHeaders_block;
      [| exact Hl
       | pose proof (length_headerBlock lines); rewrite !length_append; simpl; lia].
    rewrite Hnc, Hm, writeHeaders_filter. cbn [app].
    destruct (targetAndPath requestURL (fold_left recordHeader lines ∅)) as [target path].
    reflexivity.
  - repeat apply ContainsByte_append;
      try (apply noSpace_no_LF, isWord_noSpace; assumption); reflexivity.
Qed.

(** The body is appended exactly when [Content-Length] is there, scans
    to a number above zero and below 10 MiB, and that many bytes
    follow. *)
Lemma requestBody_read (headers : gmap string string) (body more : string) :
  header headers "content-length" <> "" ->
  (0 < Sscanf_d (header headers "content-length") < maxContentLength)%Z ->
  String.length body = Z.to_nat (Sscanf_d (header headers "content-length")) ->
  requestBody headers (body +:+ more) = body.
Proof.
  intros Hne Hn Hlen. unfold requestBody, ReadFull.
  apply String.eqb_neq in Hne. rewrite Hne. cbn [negb].
  replace ((0 <? _)%Z && (_ <? maxContentLength)%Z) with true
    by (symmetry; apply andb_true_iff; split; apply Z.ltb_lt; lia).
  rewrite <- Hlen, length_append.
  replace (String.length body + String.length more <? String.length body) with false
    by (symmetry; apply Nat.ltb_ge; lia).
  apply upto_append.
Qed.

Lemma requestBody_none (headers : gmap string string) (rest : string) :
  header headers "content-length" = ""
  \/ (Sscanf_d (header headers "content-length") <= 0)%Z
  \/ (maxContentLength <= Sscanf_d (header headers "content-length"))%Z ->
  requestBody headers rest = "".
Proof.
  intros H. unfold requestBody.
  destruct (String.eqb (header headers "content-length") "") eqn:E; [reflexivity |].
  apply String.eqb_neq in E. cbn [negb].
  destruct H as [H | [H | H]]; [contradiction | |].
  - now replace (0 <? _)%Z with false by (symmetry; apply Z.ltb_ge; lia).
  - replace (_ <? maxContentLength)%Z with false by (symmetry; apply Z.ltb_ge; lia).
    now rewrite andb_false_r.
Qed.

(** The target and the path of an absolute URI, and of a request in
    origin form. *)
Lemma targetAndPath_absolute (host path : string) (headers : gmap string string) :
  host <> "" -> ContainsByte host "/" = false ->
  targetAndPath ("http://" +:+ host +:+ "/" +:+ path) headers = (host, "/" +:+ path).
Proof.
  intros Hne Hs. unfold targetAndPath, TrimPrefix.
  rewrite HasPrefix_append. change (String.length "http://") with 7.
  change 7 with (String.length "http://"). rewrite from_append.
  change ("/" +:+ path) with (String "/" path).
  rewrite (IndexByte_append host path "/" (ContainsByte_None _ _ Hs)).
  destruct host as [|c host]; [contradiction |].
  remember (String c host) as h eqn:Eh.
  assert (Hl : String.length h = S (String.length host)) by (subst h; reflexivity).
  rewrite Hl. cbv iota beta. rewrite <- Hl.
  now rewrite upto_append, from_append.
Qed.

Lemma targetAndPath_bare (host : string) (headers : gmap string string) :
  ContainsByte host "/" = false ->
  targetAndPath ("http://" +:+ host) headers = (host, "/").
Proof.
  intros Hs. unfold targetAndPath, TrimPrefix.
  rewrite HasPrefix_append. change 7 with (String.length "http://").
  rewrite from_append. now rewrite (ContainsByte_None _ _ Hs).
Qed.

Lemma targetAndPath_origin (requestURL : string) (headers : gmap string string) :
  HasPrefix requestURL "http://" = false ->
  targetAndPath requestURL headers = (header headers "host", requestURL).
Proof. intros H. unfold targetAndPath. now rewrite H. Qed.

End HTTPFacts.

Section HTTPClaims.

Import Client Proxy.

(** The request of the specification: the first frame is the request
    line with the path, then the headers without [Proxy-Connection], and
    the target gets the default port. *)
Example http_rewrite :
  handleHTTP ("GET http://h/p HTTP/1.1" +:+ CRLF +:+ "Host: h" +:+ CRLF
              +:+ "Proxy-Connection: keep-alive" +:+ CRLF +:+ CRLF)
  = ([], CallTunnel "h:80" modeHTTPProxy
           ("GET /p HTTP/1.1" +:+ CRLF +:+ "Host: h" +:+ CRLF +:+ CRLF)).
Proof. vm_compute. reflexivity. Qed.

(** A request with a body: the body follows the blank line when
    [Content-Length] is positive and below 10 MiB, and what the client
    sent beyond it is not part of the frame. *)
Example http_rewrite_body :
  handleHTTP ("POST http://h:8080/submit HTTP/1.1" +:+ CRLF +:+ "Host: h:8080" +:+ CRLF
              +:+ "Proxy-Authorization: Basic eDp5" +:+ CRLF
              +:+ "Content-Length: 5" +:+ CRLF +:+ CRLF +:+ "helloGET")
  = ([], CallTunnel "h:8080" modeHTTPProxy
           ("POST /submit HTTP/1.1" +:+ CRLF +:+ "Host: h:8080" +:+ CRLF
            +:+ "Content-Length: 5" +:+ CRLF +:+ CRLF +:+ "hello")).
Proof. vm_compute. reflexivity. Qed.

Example http_rewrite_host_header :
  handleHTTP ("GET /p HTTP/1.0" +:+ CRLF +:+ "Host: example.org" +:+ CRLF
              +:+ "Content-Length: 0" +:+ CRLF +:+ CRLF)
  = ([], CallTunnel "example.org:80" modeHTTPProxy
           ("GET /p HTTP/1.0" +:+ CRLF +:+ "Host: example.org" +:+ CRLF
            +:+ "Content-Length: 0" +:+ CRLF +:+ CRLF)).
Proof. vm_compute. reflexivity. Qed.

(** C8 fails for an IPv6 literal without port: the test for a missing
    port is the absence of a colon in the target, so the target "[::1]"
    is handed to the tunnel as it is, without the default port 80, where
    the same request for the host "h" gets "h:80".  The relay then
    rejects the address "[::1]", which it would dial as "[::1]:80". *)
Theorem C8_ipv6_literal_gets_no_default_port :
  let request (host : string) :=
    "GET http://" +:+ host +:+ "/p HTTP/1.1" +:+ CRLF +:+ "Host: " +:+ host +:+ CRLF +:+ CRLF in
  let frame (host : string) := "GET /p HTTP/1.1" +:+ CRLF +:+ "Host: " +:+ host +:+ CRLF +:+ CRLF in
  let relay (target : string) :=
    Relay.handleMessage (fun _ => Relay.DialOk None)
      (Relay.TextMessage (connectMsg target (frame "[::1]"))) (Relay.mkSession None false []) in
  handleHTTP (request "h") = ([], CallTunnel "h:80" modeHTTPProxy (frame "h"))
  /\ handleHTTP (request "[::1]") = ([], CallTunnel "[::1]" modeHTTPProxy (frame "[::1]"))
  /\ relay "[::1]"
     = (Relay.mkSession None false [Relay.TextMessage "ERROR:invalid address: [::1]"],
        Relay.Return)
  /\ relay "[::1]:80"
     = (Relay.mkSession (Some (Relay.mkRemote "[::1]:80" [frame "[::1]"])) false
          [Relay.TextMessage "CONNECTED"], Relay.Continue).
Proof. vm_compute. repeat split. Qed.

End HTTPClaims.
(** *** The relay: the address of a CONNECT frame, the frames of a session *)

Section RelayAddressFacts.

Import Relay.

Lemma parseAddress_bracket (h : string) (c : ascii) (port : string) :
  ContainsByte h "]" = false -> port <> "" ->
  parseAddress ("[" +:+ h +:+ String "]" (String c port)) = (h, port).
Proof.
  intros Hh Hp. unfold parseAddress.
  change ("[" +:+ h +:+ String "]" (String c port))
    with (String "[" (h +:+ String "]" (String c port))).
  rewrite HasPrefix_byte. cbn [Ascii.eqb Bool.eqb andb IndexByte option_map].
  rewrite (IndexByte_append h (String c port) "]" (ContainsByte_None _ _ Hh)).
  cbn [option_map String.length].
  rewrite length_append. cbn [String.length].
  destruct port as [|p port]; [contradiction |]. cbn [String.length].
  destruct (Nat.ltb_spec (S (String.length h + S (S (S (String.length port)))))
              (S (String.length h) + 3)) as [Hlt|_]; [lia |].
  unfold slice. replace (S (String.length h) - 1) with (String.length h) by lia.
  cbn [from]. rewrite upto_append. f_equal.
  replace (S (String.length h) + 2) with (S (String.length (h +:+ "]" +:+ String c "")))
    by (rewrite !length_append; cbn [String.length]; lia).
  cbn [from].
  replace (h +:+ String "]" (String c (String p port)))
    with ((h +:+ "]" +:+ String c "") +:+ String p port)
    by (rewrite append_assoc; reflexivity).
  apply from_append.
Qed.

Lemma parseAddress_plain (host port : string) :
  HasPrefix host "[" = false -> ContainsByte host ":" = false -> ContainsByte port ":" = false ->
  parseAddress (host +:+ String ":" port) = (host, port).
Proof.
  intros Hb Hh Hp. unfold parseAddress.
  assert (Hpre : HasPrefix (host +:+ String ":" port) "[" = false).
  { destruct host as [|x host]; [reflexivity |].
    change (String x host +:+ String ":" port) with (String x (host +:+ String ":" port)).
    rewrite HasPrefix_byte in *. exact Hb. }
  rewrite Hpre, (LastIndexByte_append host port ":" (ContainsByte_None _ _ Hp)).
  rewrite upto_append. f_equal.
  replace (String.length host + 1) with (String.length (host +:+ ":"))
    by (rewrite length_append; reflexivity).
  replace (host +:+ String ":" port) with ((host +:+ ":") +:+ port)
    by (rewrite append_assoc; reflexivity).
  apply from_append.
Qed.

(** X1: [parseAddress] undoes [net.JoinHostPort].  For a host without
    colon that does not start with a bracket and a port without colon,
    and for a host with a colon (an IPv6 literal, which [JoinHostPort]
    puts in brackets) that holds no closing bracket and a port that is
    not empty, the relay reads back the host and the port that were
    joined; so the address it dials, the two joined again, is the
    address it was given. *)
Theorem parseAddress_JoinHostPort (host port : string) :
  (ContainsByte host ":" = false -> HasPrefix host "[" = false ->
   ContainsByte port ":" = false ->
   parseAddress (JoinHostPort host port) = (host, port))
  /\ (ContainsByte host ":" = true -> ContainsByte host "]" = false -> port <> "" ->
      parseAddress (JoinHostPort host port) = (host, port)).
Proof.
  unfold JoinHostPort. split.
  - intros Hc Hb Hp. rewrite Hc. now apply parseAddress_plain.
  - intros Hc Hb Hp. rewrite Hc.
    change ("[" +:+ host +:+ "]:" +:+ port) with ("[" +:+ host +:+ String "]" (String ":" port)).
    now apply parseAddress_bracket.
Qed.

Lemma parseAddress_JoinHostPort_witness :
  parseAddress (JoinHostPort "example.com" "443") = ("example.com", "443")
  /\ parseAddress (JoinHostPort "2001:db8::1" "8443") = ("2001:db8::1", "8443").
Proof.
  split.
  - apply (proj1 (parseAddress_JoinHostPort "example.com" "443")); reflexivity.
  - apply (proj2 (parseAddress_JoinHostPort "2001:db8::1" "8443"));
      [reflexivity | reflexivity | discriminate].
Defined.

(** X2: after the closing bracket of a bracketed address the relay
    skips one byte without looking at it: whatever that byte is, the
    CONNECT frame is handled as if it were the colon, and the address
    dialed is the host and the port joined the standard way. *)
Theorem connectToRemote_skips_byte_after_bracket
    (dial : string -> DialResult) (h : string) (c : ascii) (port f : string) (st : Session) :
  ContainsByte h "]" = false -> h <> "" -> port <> "" ->
  connectToRemote dial ("[" +:+ h +:+ String "]" (String c port)) f st
  = connectToRemote dial ("[" +:+ h +:+ String "]" (String ":" port)) f st
  /\ forall err, dial (JoinHostPort h port) = DialError err ->
       connectToRemote dial ("[" +:+ h +:+ String "]" (String c port)) f st = (st, Some err).
Proof.
  intros Hh Hne Hp. unfold connectToRemote.
  rewrite !parseAddress_bracket by assumption.
  apply eqb_false_neq in Hne, Hp. rewrite Hne, Hp. cbn [orb].
  split; [reflexivity |]. intros err ->. reflexivity.
Qed.

Lemma connectToRemote_skips_byte_after_bracket_witness :
  let dial := fun a : string => if String.eqb a "[::1]:80" then DialOk None else DialError a in
  connectToRemote dial "[::1]x80" "GET" (mkSession None false [])
  = connectToRemote dial "[::1]:80" "GET" (mkSession None false [])
  /\ forall err, dial (JoinHostPort "::1" "80") = DialError err ->
       connectToRemote dial "[::1]x80" "GET" (mkSession None false [])
       = (mkSession None false [], Some err).
Proof.
  intros dial.
  apply (connectToRemote_skips_byte_after_bracket dial "::1" "x" "80" "GET"
           (mkSession None false [])); [reflexivity | discriminate | discriminate].
Defined.

End RelayAddressFacts.

Section RelaySessionFacts.

Import Relay RelayFrames.

Variable dial : string -> DialResult.

Lemma data_is_no_connect (msg : string) :
  HasPrefix msg "DATA:" = true -> HasPrefix msg "CONNECT:" = false.
Proof.
  destruct msg as [|x msg]; [discriminate |].
  unfold HasPrefix. cbn [String.prefix].
  destruct (Ascii.ascii_dec "D" x) as [<-|_]; [| discriminate].
  intros _. now destruct (Ascii.ascii_dec "C" "D").
Qed.

Lemma handleMessage_data (m : WsMessage) (st : Session) :
  closed st = false -> isData m = true ->
  handleMessage dial m st = (writeRemote (payload m) st, Continue).
Proof.
  intros Hc Hd. unfold handleMessage. rewrite Hc.
  destruct m as [msg|data]; [| reflexivity].
  simpl in Hd. now rewrite (data_is_no_connect msg Hd), Hd.
Qed.

(** X3: on a session with a connected target, the read loop writes the
    payloads of DATA text frames and of binary frames to the target, one
    write per frame, in the order of arrival, and sends nothing on the
    WebSocket; on a session without target (no CONNECT yet) it drops
    them without reply and reads on. *)
Theorem readLoop_forwards_data_in_order (msgs : list WsMessage) (st : Session) :
  closed st = false -> forallb isData msgs = true ->
  readLoop dial msgs st =
    match remoteConn st with
    | Some r =>
        mkSession (Some (mkRemote (remoteAddr r) (remoteWritten r ++ map payload msgs)))
          false (wsSent st)
    | None => st
    end.
Proof.
  revert st. induction msgs as [|m msgs IH]; intros st Hc Hd.
  - destruct st as [[[a w]|] cl sent]; simpl in *; subst; now rewrite ?app_nil_r.
  - simpl in Hd. apply andb_true_iff in Hd. destruct Hd as [Hm Hd].
    cbn [readLoop]. rewrite (handleMessage_data m st Hc Hm).
    destruct st as [[[a w]|] cl sent]; simpl in Hc; subst cl.
    + unfold writeRemote. cbn [remoteConn remoteAddr remoteWritten closed wsSent].
      rewrite IH by (assumption || reflexivity).
      cbn [remoteConn remoteAddr remoteWritten closed wsSent map].
      now rewrite <- app_assoc.
    + unfold writeRemote. cbn [remoteConn]. now rewrite IH.
Qed.

Lemma readLoop_reply_invariant (msgs : list WsMessage) (st : Session) :
  closed st = false -> Forall isReply (wsSent st) ->
  closed (readLoop dial msgs st) = false /\ Forall isReply (wsSent (readLoop dial msgs st)).
Proof.
  revert st. induction msgs as [|m msgs IH]; intros st Hc Hs; [easy |].
  cbn [readLoop].
  assert (Hstep : closed (fst (handleMessage dial m st)) = false
                  /\ Forall isReply (wsSent (fst (handleMessage dial m st)))).
  { unfold handleMessage, connectToRemote, writeRemote, send. rewrite Hc.
    repeat case_match; simplify_eq; cbn [fst closed wsSent]; split; try assumption;
      rewrite ?Forall_app; repeat split; try assumption;
      apply Forall_singleton; unfold isReply;
      first [left; reflexivity | right; eexists; reflexivity]. }
  destruct (handleMessage dial m st) as [st' []]; cbn [fst] in Hstep;
    [now apply IH | exact Hstep].
Qed.

Lemma readLoop_close (msgs rest : list WsMessage) (st : Session) :
  readLoop dial (msgs ++ TextMessage "CLOSE" :: rest) st = readLoop dial msgs st.
Proof.
  revert st. induction msgs as [|m msgs IH]; intros st.
  - cbn [app readLoop]. unfold handleMessage. destruct (closed st); reflexivity.
  - cbn [app readLoop]. destruct (handleMessage dial m st) as [st' []]; [apply IH | reflexivity].
Qed.

(** X4: the read loop of a session answers on the WebSocket with
    nothing but the text [CONNECTED] and texts that start with
    [ERROR:] (what the target sends back is the pump goroutine's to
    forward, not the loop's), and a [CLOSE] text frame ends the loop:
    the frames behind it are never handled. *)
Theorem readLoop_replies_and_close (msgs rest : list WsMessage) :
  let fresh := mkSession None false [] in
  Forall isReply (wsSent (readLoop dial msgs fresh))
  /\ readLoop dial (msgs ++ TextMessage "CLOSE" :: rest) fresh = readLoop dial msgs fresh.
Proof.
  intros fresh. split; [| apply readLoop_close].
  destruct (readLoop_reply_invariant msgs fresh eq_refl) as [_ H]; [constructor | exact H].
Qed.

End RelaySessionFacts.

Section RelaySessionExamples.

Import Relay RelayFrames.

Lemma readLoop_forwards_data_in_order_witness :
  let st := mkSession (Some (mkRemote "example.com:443" ["hello"])) false
              [TextMessage "CONNECTED"] in
  readLoop (fun _ => DialOk None)
    [TextMessage "DATA:abc"; BinaryMessage "def"; TextMessage "DATA:"] st
  = mkSession (Some (mkRemote "example.com:443" ["hello"; "abc"; "def"; ""])) false
      [TextMessage "CONNECTED"].
Proof.
  intros st.
  exact (readLoop_forwards_data_in_order (fun _ => DialOk None)
           [TextMessage "DATA:abc"; BinaryMessage "def"; TextMessage "DATA:"] st
           eq_refl eq_refl).
Defined.

End RelaySessionExamples.
(** *** The traffic statistics: the sites, the counters, the snapshot *)

Section StatsSiteFacts.

Import Stats.

Local Open Scope Z_scope.

Lemma GetSiteStats_lookup (h : string) (ts : TrafficStats) :
  GetSiteStats h ts = sites ts !! h.
Proof. unfold GetSiteStats. destruct (sites ts !! h) as [[]|]; reflexivity. Qed.

Lemma run_app (clock : nat -> Z) (a b : list Op) (i : nat) (ts : TrafficStats) :
  run clock i (a ++ b) ts = run clock (i + length a) b (run clock i a ts).
Proof.
  revert i ts. induction a as [|o a IH]; intros i ts; simpl.
  - now rewrite Nat.add_0_r.
  - rewrite IH. f_equal. lia.
Qed.

(** The hosts given to [RecordConnection] by [ops]. *)
Lemma run_dom (clock : nat -> Z) (ops : list Op) (i : nat) (ts : TrafficStats) (h : string) :
  h ∈ dom (sites (run clock i ops ts)) <-> h ∈ dom (sites ts) \/ In (OpConnection h) ops.
Proof.
  revert i ts. induction ops as [|o ops IH]; intros i ts; simpl; [tauto |].
  rewrite IH, apply_dom. destruct o as [g|g n|g n].
  - rewrite elem_of_union, elem_of_singleton. split.
    + intros [[->|]|]; auto.
    + intros [|[Heq|]]; auto. injection Heq as ->. auto.
  - split; [intros [|]; auto | intros [|[|]]; auto; discriminate].
  - split; [intros [|]; auto | intros [|[|]]; auto; discriminate].
Qed.

Lemma apply_host (now : Z) (o : Op) (ts : TrafficStats) :
  (forall h s, sites ts !! h = Some s -> Host s = h) ->
  forall h s, sites (apply now o ts) !! h = Some s -> Host s = h.
Proof.
  intros Hinv h s. destruct o as [g|g n|g n]; simpl;
    unfold RecordConnection, RecordUpload, RecordDownload;
    destruct (sites ts !! g) as [y|] eqn:E; simpl;
    try (destruct (decide (g = h)) as [->|Hne];
         [rewrite lookup_insert_eq; intros [= <-]; simpl; eauto
         | rewrite lookup_insert_ne by exact Hne; apply Hinv]);
    apply Hinv.
Qed.

Lemma run_host (clock : nat -> Z) (ops : list Op) (i : nat) (ts : TrafficStats) :
  (forall h s, sites ts !! h = Some s -> Host s = h) ->
  forall h s, sites (run clock i ops ts) !! h = Some s -> Host s = h.
Proof.
  revert i ts. induction ops as [|o ops IH]; intros i ts Hinv; [exact Hinv |].
  simpl. apply IH. now apply apply_host.
Qed.

(** X5: on a store that starts empty, the sites that have an entry after
    any sequence of calls are exactly the hosts given to
    [RecordConnection]: [RecordUpload] and [RecordDownload] never create
    one; and the [Host] field of each entry is the host it is kept
    under. *)
Theorem sites_are_the_connected_hosts
    (clock : nat -> Z) (dir : string) (ops : list Op) (h : string) :
  let ts := run clock 0 ops (NewTrafficStats dir None) in
  (is_Some (GetSiteStats h ts) <-> In (OpConnection h) ops)
  /\ (forall s, GetSiteStats h ts = Some s -> Host s = h).
Proof.
  intros ts. subst ts. rewrite GetSiteStats_lookup. split.
  - rewrite <- elem_of_dom, run_dom. simpl. rewrite dom_empty_L, elem_of_empty. tauto.
  - intros s. apply run_host. intros g x. simpl. now rewrite lookup_empty.
Qed.

(** The times of an entry after a run: the first access stays, and the
    last access is the one before or the time of a later call. *)
Lemma run_times (clock : nat -> Z) (ops : list Op) (i : nat) (h : string)
    (ts : TrafficStats) (y : SiteStats) :
  sites ts !! h = Some y ->
  exists s,
    sites (run clock i ops ts) !! h = Some s
    /\ FirstAccess s = FirstAccess y
    /\ (LastAccess s = LastAccess y \/ exists j, (i <= j)%nat /\ LastAccess s = clock j).
Proof.
  revert i ts y. induction ops as [|o ops IH]; intros i ts y Hy.
  - exists y. auto.
  - simpl run.
    assert (Hstep : exists y',
               sites (apply (clock i) o ts) !! h = Some y'
               /\ FirstAccess y' = FirstAccess y
               /\ (LastAccess y' = LastAccess y \/ LastAccess y' = clock i)).
    { destruct o as [g|g n|g n]; simpl;
        unfold RecordConnection, RecordUpload, RecordDownload;
        destruct (decide (g = h)) as [->|Hne];
        rewrite ?Hy; try destruct (sites ts !! g) as [z|] eqn:Eg; simpl;
        rewrite ?lookup_insert_eq, ?lookup_insert_ne by exact Hne;
        eexists; (split; [reflexivity || exact Hy |]); simpl; auto. }
    destruct Hstep as (y' & Hy' & Hf & Hl).
    destruct (IH (S i) _ y' Hy') as (s & Hs & Hsf & Hsl).
    exists s. split; [exact Hs |]. split; [congruence |].
    destruct Hsl as [Hsl | (j & Hj & Hsl)].
    + rewrite Hsl. destruct Hl as [Hl | Hl]; [left; exact Hl | right; exists i; auto].
    + right. exists j. split; [lia | exact Hsl].
Qed.

(** X6: on a store that starts empty, after the first
    [RecordConnection] for a host and the calls that follow it, the
    entry of the host counts that call and every later
    [RecordConnection] for it, its first access is the time of that
    first call, and its last access is that time or the time of a later
    call. *)
Theorem connections_and_access_times
    (clock : nat -> Z) (dir : string) (pre post : list Op) (h : string) :
  ~ In (OpConnection h) pre ->
  Z.of_nat (length post) < 2 ^ 63 - 1 ->
  exists s,
    GetSiteStats h (run clock 0 (pre ++ OpConnection h :: post) (NewTrafficStats dir None))
    = Some s
    /\ Connections s = 1 + connections h post
    /\ FirstAccess s = clock (length pre)
    /\ exists j, (length pre <= j)%nat /\ LastAccess s = clock j.
Proof.
  intros Hpre Hlen. rewrite GetSiteStats_lookup, run_app. cbn [run Nat.add].
  set (ts := run clock 0 pre (NewTrafficStats dir None)).
  assert (Hnone : sites ts !! h = None).
  { apply not_elem_of_dom. subst ts. rewrite run_dom. simpl.
    rewrite dom_empty_L, elem_of_empty. tauto. }
  set (now := clock (length pre)).
  assert (Hy : sites (apply now (OpConnection h) ts) !! h = Some (mkSite h 0 0 1 now now)).
  { simpl. unfold RecordConnection. rewrite Hnone. simpl. apply lookup_insert_eq. }
  destruct (run_site clock post (S (length pre)) h _ _ Hy) as (s & Hs & _ & _ & Hc);
    [repeat split |].
  destruct (run_times clock post (S (length pre)) h _ _ Hy) as (s' & Hs' & Hf & Hl).
  rewrite Hs in Hs'. injection Hs' as <-.
  exists s. split; [exact Hs |].
  pose proof (connections_bound h post) as Hb. simpl in Hc, Hf, Hl.
  rewrite wrap64_small in Hc by lia.
  split; [exact Hc |]. split; [exact Hf |].
  destruct Hl as [Hl | (j & Hj & Hl)]; [exists (length pre); auto | exists j; split; [lia | exact Hl]].
Qed.

End StatsSiteFacts.

Section StatsSiteExamples.

Import Stats.

Local Open Scope Z_scope.

Lemma connections_and_access_times_witness :
  exists s,
    GetSiteStats "a.example"
      (run (fun i => 100 + Z.of_nat i) 0
         ([OpUpload "a.example" 7; OpConnection "b.example"]
          ++ OpConnection "a.example"
             :: [OpUpload "a.example" 5; OpConnection "a.example"; OpDownload "b.example" 9])
         (NewTrafficStats "" None))
    = Some s
    /\ Connections s = 1 + connections "a.example"
                            [OpUpload "a.example" 5; OpConnection "a.example";
                             OpDownload "b.example" 9]
    /\ FirstAccess s = 100 + Z.of_nat 2
    /\ exists j, (2 <= j)%nat /\ LastAccess s = 100 + Z.of_nat j.
Proof.
  apply (connections_and_access_times (fun i => 100 + Z.of_nat i) ""
           [OpUpload "a.example" 7; OpConnection "b.example"]
           [OpUpload "a.example" 5; OpConnection "a.example"; OpDownload "b.example" 9]
           "a.example").
  - simpl. intros [H | [H | []]]; discriminate.
  - simpl. lia.
Defined.

End StatsSiteExamples.

(** *** The busiest sites *)

Section TopSitesFacts.

Import Stats TopSites.

Local Open Scope Z_scope.

Variable rangeOrder : gmap string SiteStats -> list SiteStats.
Variable sortSlice : (SiteStats -> SiteStats -> bool) -> list SiteStats -> list SiteStats.

(** A [range] loop visits every entry of the map once. *)
Hypothesis rangeOrder_entries : forall m, rangeOrder m ≡ₚ (map_to_list m).*2.

(** [sort.Slice] rearranges the slice so that no element is [less] than
    the one before it. *)
Hypothesis sortSlice_sorts :
  forall l, sortSlice busier l ≡ₚ l /\ Sorted (fun a b => busier b a = false) (sortSlice busier l).

Lemma GetAllStats_entries (ts : TrafficStats) :
  GetAllStats rangeOrder ts ≡ₚ (map_to_list (sites ts)).*2.
Proof.
  unfold GetAllStats. rewrite <- (rangeOrder_entries (sites ts)).
  replace (map _ (rangeOrder (sites ts))) with (rangeOrder (sites ts)); [reflexivity |].
  induction (rangeOrder (sites ts)) as [|[] l IH]; [reflexivity |]. simpl. now rewrite <- IH.
Qed.

Lemma not_busier_trans : Transitive (fun a b : SiteStats => busier b a = false).
Proof. intros a b c. unfold busier. rewrite !Z.ltb_ge. lia. Qed.

(** X8: [GetTopSites(n)] for [n >= 0] returns [min(n, number of
    sites)] entries, in descending order of traffic (upload plus
    download, as [int64]); they are entries of the store, each returned
    once, and no entry left out has more traffic than one returned.  For
    a negative [n] the slice expression panics. *)
Theorem GetTopSites_busiest (n : Z) (ts : TrafficStats) :
  (n < 0 -> GetTopSites rangeOrder sortSlice n ts = None)
  /\ (0 <= n ->
      exists top rest,
        GetTopSites rangeOrder sortSlice n ts = Some top
        /\ length top = Nat.min (Z.to_nat n) (size (sites ts))
        /\ top ++ rest ≡ₚ (map_to_list (sites ts)).*2
        /\ StronglySorted (fun a b => traffic b <= traffic a) top
        /\ (forall a b, a ∈ top -> b ∈ rest -> traffic b <= traffic a)).
Proof.
  unfold GetTopSites.
  set (all := sortSlice busier (GetAllStats rangeOrder ts)).
  destruct (sortSlice_sorts (GetAllStats rangeOrder ts)) as [Hperm Hsorted]. fold all in Hperm, Hsorted.
  assert (Hlen : length all = size (sites ts)).
  { rewrite Hperm, GetAllStats_entries, length_fmap. apply length_map_to_list. }
  split.
  - intros Hn. destruct (Z.ltb_spec (Z.of_nat (length all)) n) as [H|H]; [lia |].
    destruct (Z.ltb_spec n 0); [reflexivity | lia].
  - intros Hn.
    set (k := if Z.of_nat (length all) <? n then Z.of_nat (length all) else n).
    assert (Hk : Z.to_nat k = Nat.min (Z.to_nat n) (length all)).
    { subst k. destruct (Z.ltb_spec (Z.of_nat (length all)) n); lia. }
    assert (Hk0 : (k <? 0) = false).
    { subst k. destruct (Z.ltb_spec (Z.of_nat (length all)) n); apply Z.ltb_ge; lia. }
    rewrite Hk0. exists (take (Z.to_nat k) all), (drop (Z.to_nat k) all).
    apply (@Sorted_StronglySorted _ _ not_busier_trans) in Hsorted.
    assert (Hss : StronglySorted (fun a b => traffic b <= traffic a) all).
    { clear -Hsorted. induction Hsorted as [|a l Hl IH Ha]; constructor; [exact IH |].
      eapply Forall_impl; [exact Ha |]. intros b. unfold busier. now rewrite Z.ltb_ge. }
    rewrite <- (take_drop (Z.to_nat k) all) in Hss.
    split; [reflexivity |].
    split; [rewrite length_take, Hk, Hlen; lia |].
    split; [now rewrite take_drop, Hperm, GetAllStats_entries |].
    split; [now apply StronglySorted_app_1_l in Hss |].
    intros a b Ha Hb. exact (StronglySorted_app_1_elem_of _ _ _ a b Hss Ha Hb).
Qed.

End TopSitesFacts.

Section TopSitesExamples.

Import Stats TopSites TopSitesFixtures.

Local Open Scope Z_scope.

Lemma mapOrder_entries (m : gmap string SiteStats) : mapOrder m ≡ₚ (map_to_list m).*2.
Proof. reflexivity. Qed.

Lemma not_busier_total : Total (fun a b : SiteStats => busier b a = false).
Proof. intros a b. unfold busier. rewrite !Z.ltb_ge. lia. Qed.

Lemma mergeSort_sorts (l : list SiteStats) :
  mergeSort busier l ≡ₚ l /\ Sorted (fun a b => busier b a = false) (mergeSort busier l).
Proof.
  unfold mergeSort. split; [apply merge_sort_Permutation |].
  apply (@Sorted_merge_sort _ _ _ not_busier_total).
Qed.

(** Three sites with 30, 4100 and 5 bytes of traffic. *)
Lemma GetTopSites_busiest_witness :
  let ts := run (fun _ => 0) 0
              [OpConnection "a"; OpUpload "a" 30; OpConnection "b"; OpDownload "b" 4096;
               OpUpload "b" 4; OpConnection "c"; OpUpload "c" 5]
              (NewTrafficStats "" None) in
  GetTopSites mapOrder mergeSort (-1) ts = None
  /\ exists top rest,
       GetTopSites mapOrder mergeSort 2 ts = Some top
       /\ length top = Nat.min (Z.to_nat 2) (size (sites ts))
       /\ top ++ rest ≡ₚ (map_to_list (sites ts)).*2
       /\ StronglySorted (fun a b => traffic b <= traffic a) top
       /\ (forall a b, a ∈ top -> b ∈ rest -> traffic b <= traffic a).
Proof.
  intros ts. split.
  - apply (proj1 (GetTopSites_busiest mapOrder mergeSort mapOrder_entries mergeSort_sorts
                    (-1) ts)). lia.
  - apply (proj2 (GetTopSites_busiest mapOrder mergeSort mapOrder_entries mergeSort_sorts
                    2 ts)). lia.
Defined.

Example top_two_sites :
  let ts := run (fun _ => 0) 0
              [OpConnection "a"; OpUpload "a" 30; OpConnection "b"; OpDownload "b" 4096;
               OpUpload "b" 4; OpConnection "c"; OpUpload "c" 5]
              (NewTrafficStats "" None) in
  option_map (map Host) (GetTopSites mapOrder mergeSort 2 ts) = Some ["b"; "a"].
Proof. vm_compute. reflexivity. Qed.

End TopSitesExamples.
(** *** Addresses: the order of IPv6 addresses, the IPv6 ranges, the
    number of an IPv4 address *)

Section IPv6OrderFacts.

Import IPAddr IPv6Ranges.

Local Open Scope Z_scope.

Lemma byteZ_inj (x y : byte) : byteZ x = byteZ y -> x = y.
Proof.
  unfold byteZ. intros H. apply N2Z.inj in H.
  pose proof (Byte.of_to_N x) as Hx. pose proof (Byte.of_to_N y) as Hy.
  rewrite H in Hx. congruence.
Qed.

Lemma compareIPv6_cons (x y : byte) (a b : list byte) :
  compareIPv6 (x :: a) (y :: b) =
    if byteZ x <? byteZ y then -1 else if byteZ y <? byteZ x then 1 else compareIPv6 a b.
Proof. reflexivity. Qed.

Lemma compareIPv6_values (a b : list byte) :
  compareIPv6 a b = -1 \/ compareIPv6 a b = 0 \/ compareIPv6 a b = 1.
Proof.
  revert b. induction a as [|x a IH]; intros [|y b]; try (simpl; auto; fail).
  rewrite compareIPv6_cons. destruct (byteZ x <? byteZ y); [auto |].
  destruct (byteZ y <? byteZ x); auto.
Qed.

Lemma compareIPv6_flip (a b : list byte) : compareIPv6 b a = - compareIPv6 a b.
Proof.
  revert b. induction a as [|x a IH]; intros [|y b]; try reflexivity.
  rewrite !compareIPv6_cons.
  destruct (Z.ltb_spec (byteZ x) (byteZ y)), (Z.ltb_spec (byteZ y) (byteZ x));
    try lia; try reflexivity. apply IH.
Qed.

Lemma compareIPv6_zero (a b : list byte) :
  length a = length b -> compareIPv6 a b = 0 <-> a = b.
Proof.
  revert b. induction a as [|x a IH]; intros [|y b] Hl; try discriminate; [easy |].
  rewrite compareIPv6_cons. injection Hl as Hl.
  destruct (Z.ltb_spec (byteZ x) (byteZ y)) as [H1|H1].
  - split; [discriminate | intros [= -> _]; lia].
  - destruct (Z.ltb_spec (byteZ y) (byteZ x)) as [H2|H2].
    + split; [discriminate | intros [= -> _]; lia].
    + assert (x = y) as -> by (apply byteZ_inj; lia).
      rewrite (IH b Hl). split; [now intros -> | now intros [= ->]].
Qed.

Lemma compareIPv6_trans (a b c : list byte) :
  length a = length b -> length b = length c ->
  (compareIPv6 a b <= 0 -> compareIPv6 b c <= 0 -> compareIPv6 a c <= 0)
  /\ (compareIPv6 a b < 0 -> compareIPv6 b c <= 0 -> compareIPv6 a c < 0)
  /\ (compareIPv6 a b <= 0 -> compareIPv6 b c < 0 -> compareIPv6 a c < 0).
Proof.
  revert b c. induction a as [|x a IH]; intros [|y b] [|z c] Hab Hbc; try discriminate.
  - simpl. lia.
  - injection Hab as Hab. injection Hbc as Hbc. rewrite !compareIPv6_cons.
    destruct (Z.ltb_spec (byteZ x) (byteZ y)), (Z.ltb_spec (byteZ y) (byteZ x)),
      (Z.ltb_spec (byteZ y) (byteZ z)), (Z.ltb_spec (byteZ z) (byteZ y)),
      (Z.ltb_spec (byteZ x) (byteZ z)), (Z.ltb_spec (byteZ z) (byteZ x));
      try lia; apply (IH b c Hab Hbc).
Qed.

Lemma compareIPv6_lt_le (a b c : list byte) :
  length a = length b -> length b = length c ->
  compareIPv6 a b < 0 -> compareIPv6 b c <= 0 -> compareIPv6 a c < 0.
Proof. intros Hab Hbc. now apply compareIPv6_trans. Qed.

(** X9: [compareIPv6] is the comparison of a total order on arrays of
    the same length: it returns -1, 0 or 1; it returns 0 exactly for
    equal arrays; swapping its arguments negates the result; and "less
    or equal" and "less" are transitive. *)
Theorem compareIPv6_total_order (a b c : list byte) :
  length a = length b -> length b = length c ->
  (compareIPv6 a b = -1 \/ compareIPv6 a b = 0 \/ compareIPv6 a b = 1)
  /\ (compareIPv6 a b = 0 <-> a = b)
  /\ compareIPv6 b a = - compareIPv6 a b
  /\ (compareIPv6 a b <= 0 -> compareIPv6 b c <= 0 -> compareIPv6 a c <= 0)
  /\ (compareIPv6 a b < 0 -> compareIPv6 b c <= 0 -> compareIPv6 a c < 0)
  /\ (compareIPv6 a b <= 0 -> compareIPv6 b c < 0 -> compareIPv6 a c < 0).
Proof.
  intros Hab Hbc.
  split; [apply compareIPv6_values |]. split; [now apply compareIPv6_zero |].
  split; [apply compareIPv6_flip |]. now apply compareIPv6_trans.
Qed.

Lemma searchV6_step (ranges : list ipRangeV6) (ip : list byte) (fuel left right : nat) :
  searchV6 ranges ip (S fuel) left right =
    if (left <? right)%nat then
      match ranges !! ((left + right) / 2)%nat with
      | Some r =>
          if compareIPv6 ip (rstart6 r) <? 0
          then searchV6 ranges ip fuel left ((left + right) / 2)%nat
          else if 0 <? compareIPv6 ip (rend6 r)
          then searchV6 ranges ip fuel ((left + right) / 2 + 1)%nat right
          else true
      | None => false
      end
    else false.
Proof. reflexivity. Qed.

Lemma searchV6_window (ranges : list ipRangeV6) (ip : list byte) (fuel left right : nat) :
  sortedDisjointV6 ranges -> length ip = 16%nat ->
  (right - left <= fuel)%nat -> (right <= length ranges)%nat ->
  (forall i r, (i < left)%nat -> ranges !! i = Some r -> compareIPv6 (rend6 r) ip < 0) ->
  (forall i r, (right <= i)%nat -> ranges !! i = Some r -> compareIPv6 ip (rstart6 r) < 0) ->
  searchV6 ranges ip fuel left right = true <-> containsV6 ranges ip.
Proof.
  intros [Hord Hdis] Hip. revert left right.
  assert (Hout : forall left right,
             (forall i r, (i < left)%nat -> ranges !! i = Some r -> compareIPv6 (rend6 r) ip < 0) ->
             (forall i r, (right <= i)%nat -> ranges !! i = Some r -> compareIPv6 ip (rstart6 r) < 0) ->
             (right <= left)%nat -> ~ containsV6 ranges ip).
  { intros left right Hlo Hhi Hle (i & r & Hi & Hs & He).
    destruct (Nat.lt_ge_cases i left) as [Hl|Hl].
    - specialize (Hlo i r Hl Hi). rewrite (compareIPv6_flip ip) in Hlo. lia.
    - assert (Hr : (right <= i)%nat) by lia. specialize (Hhi i r Hr Hi).
      rewrite (compareIPv6_flip (rstart6 r)) in Hhi. lia. }
  induction fuel as [|fuel IH]; intros left right Hf Hr Hlo Hhi.
  - split; [discriminate |]. intros Hc. exfalso. apply (Hout left right Hlo Hhi); [lia | exact Hc].
  - rewrite searchV6_step. destruct (Nat.ltb_spec left right) as [Hlt|Hge].
    + assert (Hmid : (left <= (left + right) / 2 < right)%nat).
      { pose proof (Nat.div_mod_eq (left + right) 2) as Hd.
        pose proof (Nat.mod_upper_bound (left + right) 2). lia. }
      destruct (ranges !! ((left + right) / 2)%nat) as [rm|] eqn:Em.
      * destruct (Hord _ _ Em) as (Hls & Hle & Hm).
        destruct (Z.ltb_spec (compareIPv6 ip (rstart6 rm)) 0) as [Hb|Hb].
        { apply IH; [lia | lia | exact Hlo |].
          intros i r Hi Hri.
          destruct (Nat.eq_dec i ((left + right) / 2)%nat) as [->|Hne]; [now simplify_eq |].
          assert (Hlt' : ((left + right) / 2 < i)%nat) by lia.
          specialize (Hdis _ _ _ _ Hlt' Em Hri). destruct (Hord _ _ Hri) as (Hl1 & _ & _).
          assert (H1 : compareIPv6 ip (rend6 rm) < 0)
            by (apply (compareIPv6_lt_le ip (rstart6 rm) (rend6 rm)); [lia | lia | exact Hb | exact Hm]).
          apply (compareIPv6_lt_le ip (rend6 rm) (rstart6 r)); [lia | lia | exact H1 | lia]. }
        destruct (Z.ltb_spec 0 (compareIPv6 ip (rend6 rm))) as [Ha|Ha].
        { apply IH; [lia | lia | | exact Hhi].
          assert (Hend : compareIPv6 (rend6 rm) ip < 0)
            by (rewrite (compareIPv6_flip ip); lia).
          intros i r Hi Hri.
          destruct (Nat.eq_dec i ((left + right) / 2)%nat) as [->|Hne]; [now simplify_eq |].
          assert (Hlt' : (i < (left + right) / 2)%nat) by lia.
          specialize (Hdis _ _ _ _ Hlt' Hri Em). destruct (Hord _ _ Hri) as (_ & Hl2 & _).
          assert (H1 : compareIPv6 (rend6 r) (rend6 rm) < 0)
            by (apply (compareIPv6_lt_le (rend6 r) (rstart6 rm) (rend6 rm));
                [lia | lia | exact Hdis | exact Hm]).
          apply (compareIPv6_lt_le (rend6 r) (rend6 rm) ip); [lia | lia | exact H1 | lia]. }
        split; [| reflexivity]. intros _. exists ((left + right) / 2)%nat, rm.
        split; [exact Em |]. split; [rewrite (compareIPv6_flip ip); lia | lia].
      * apply lookup_ge_None in Em. lia.
    + split; [discriminate |]. intros Hc. exfalso. apply (Hout left right Hlo Hhi); [lia | exact Hc].
Qed.

Lemma length_toArray16 (p : list byte) : length (toArray16 p) = 16%nat.
Proof. unfold toArray16. rewrite length_take, length_app, length_replicate. lia. Qed.

(** X10: with the invariant of the data model (ranges of 16-byte
    arrays, each in order and ending before the next ones start),
    [isChinaIP] answers for an IPv6 address whether a loaded IPv6 range
    holds it. *)
Theorem isChinaAddr_contains_v6
    (ranges : list ipRange) (ranges6 : list ipRangeV6) (ip ipBytes : IP) :
  sortedDisjointV6 ranges6 ->
  To4 ip = None -> To16 ip = Some ipBytes ->
  isChinaAddr ranges ranges6 ip = true <-> containsV6 ranges6 (toArray16 ipBytes).
Proof.
  intros Hs H4 H16. unfold isChinaAddr. rewrite H4, H16.
  apply searchV6_window; [exact Hs | apply length_toArray16 | lia | lia | intros; lia |].
  intros i r Hi Hri. apply lookup_lt_Some in Hri. lia.
Qed.

End IPv6OrderFacts.

Section IPv4NumberFacts.

Import IPAddr.

Local Open Scope Z_scope.

Lemma lor_shiftl (hi lo n : Z) :
  0 <= n -> 0 <= lo < 2 ^ n -> Z.lor (Z.shiftl hi n) lo = hi * 2 ^ n + lo.
Proof.
  intros Hn Hlo. rewrite Z.shiftl_mul_pow2 by exact Hn.
  symmetry. apply Z.add_nocarry_lor. apply Z.bits_inj'. intros i Hi.
  rewrite Z.land_spec, Z.bits_0.
  destruct (Z.lt_ge_cases i n) as [Hlt|Hge].
  - now rewrite Z.mul_pow2_bits_low.
  - rewrite <- (Z.mod_small lo (2 ^ n)) by exact Hlo.
    rewrite Z.mod_pow2_bits_high by lia. apply andb_false_r.
Qed.

Lemma byteZ_range (b : byte) : 0 <= byteZ b < 256.
Proof.
  unfold byteZ. pose proof (Byte.to_N_bounded b) as H. lia.
Qed.

Lemma lor_add (x lo n k : Z) :
  0 <= n -> 0 <= lo < 2 ^ n -> x = k * 2 ^ n -> Z.lor x lo = x + lo.
Proof.
  intros Hn Hlo ->. rewrite <- (lor_shiftl k lo n Hn Hlo).
  now rewrite Z.shiftl_mul_pow2 by exact Hn.
Qed.

Lemma ipToUint32_four (a b c d : byte) :
  ipToUint32 [a; b; c; d]
  = byteZ a * 2 ^ 24 + byteZ b * 2 ^ 16 + byteZ c * 2 ^ 8 + byteZ d.
Proof.
  unfold ipToUint32, To4. cbn [length Nat.eqb].
  pose proof (byteZ_range a). pose proof (byteZ_range b).
  pose proof (byteZ_range c). pose proof (byteZ_range d).
  rewrite !Z.shiftl_mul_pow2 by lia.
  rewrite (lor_add (byteZ a * 2 ^ 24) (byteZ b * 2 ^ 16) 24 (byteZ a)) by lia.
  rewrite (lor_add _ (byteZ c * 2 ^ 8) 16 (byteZ a * 2 ^ 8 + byteZ b)) by lia.
  rewrite (lor_add _ (byteZ d) 8 ((byteZ a * 2 ^ 8 + byteZ b) * 2 ^ 8 + byteZ c)) by lia.
  reflexivity.
Qed.

(** X11: the number that [ipToUint32] gives to an IPv4 address of
    bytes a, b, c, d is a*2^24 + b*2^16 + c*2^8 + d, a [uint32]; it is
    the same for the 4-byte form and for the IPv4-mapped 16-byte form
    that [net.ParseIP] returns; two IPv4 addresses with the same number
    are the same address; and every slice that is no IPv4 address (an
    IPv6 address, a [nil] slice) has the number 0. *)
Theorem ipToUint32_big_endian (a b c d a' b' c' d' : byte) (ip : IP) :
  ipToUint32 [a; b; c; d] = byteZ a * 2 ^ 24 + byteZ b * 2 ^ 16 + byteZ c * 2 ^ 8 + byteZ d
  /\ ipToUint32 (v4InV6Prefix ++ [a; b; c; d]) = ipToUint32 [a; b; c; d]
  /\ 0 <= ipToUint32 [a; b; c; d] < 2 ^ 32
  /\ (ipToUint32 [a; b; c; d] = ipToUint32 [a'; b'; c'; d'] ->
      [a; b; c; d] = [a'; b'; c'; d'])
  /\ (To4 ip = None -> ipToUint32 ip = 0).
Proof.
  pose proof (byteZ_range a). pose proof (byteZ_range b).
  pose proof (byteZ_range c). pose proof (byteZ_range d).
  pose proof (byteZ_range a'). pose proof (byteZ_range b').
  pose proof (byteZ_range c'). pose proof (byteZ_range d').
  split; [apply ipToUint32_four |]. split; [reflexivity |].
  rewrite !ipToUint32_four. split; [lia |]. split.
  - intros Heq.
    assert (byteZ a = byteZ a' /\ byteZ b = byteZ b' /\ byteZ c = byteZ c' /\ byteZ d = byteZ d')
      as (Ha & Hb & Hc & Hd) by lia.
    apply byteZ_inj in Ha, Hb, Hc, Hd. now subst.
  - intros Hno. unfold ipToUint32. now rewrite Hno.
Qed.

End IPv4NumberFacts.

Section AddressExamples.

Import IPAddr IPv6Ranges IPv6Fixtures.

Local Open Scope Z_scope.

Lemma compareIPv6_total_order_witness :
  (compareIPv6 aliStart aliOne = -1 \/ compareIPv6 aliStart aliOne = 0
   \/ compareIPv6 aliStart aliOne = 1)
  /\ (compareIPv6 aliStart aliOne = 0 <-> aliStart = aliOne)
  /\ compareIPv6 aliOne aliStart = - compareIPv6 aliStart aliOne
  /\ (compareIPv6 aliStart aliOne <= 0 -> compareIPv6 aliOne aliEnd <= 0 ->
      compareIPv6 aliStart aliEnd <= 0)
  /\ (compareIPv6 aliStart aliOne < 0 -> compareIPv6 aliOne aliEnd <= 0 ->
      compareIPv6 aliStart aliEnd < 0)
  /\ (compareIPv6 aliStart aliOne <= 0 -> compareIPv6 aliOne aliEnd < 0 ->
      compareIPv6 aliStart aliEnd < 0).
Proof. exact (compareIPv6_total_order aliStart aliOne aliEnd eq_refl eq_refl). Defined.

Lemma threeRangesV6_sortedDisjoint : sortedDisjointV6 threeRangesV6.
Proof.
  split.
  - intros [|[|[|i]]] r; [| | | discriminate]; intros [= <-];
      (split; [reflexivity |]); (split; [reflexivity |]); vm_compute; discriminate.
  - intros [|[|[|i]]] [|[|[|j]]] ri rj Hij; try lia; try discriminate;
      intros [= <-] [= <-]; vm_compute; reflexivity.
Qed.

(** 240e::1 lies in the last of the three ranges: the search goes
    through the range in the middle first. *)
Lemma isChinaAddr_contains_v6_witness :
  isChinaAddr [] threeRangesV6 telOne = true
  <-> containsV6 threeRangesV6 (toArray16 telOne).
Proof.
  exact (isChinaAddr_contains_v6 [] threeRangesV6 telOne telOne
           threeRangesV6_sortedDisjoint eq_refl eq_refl).
Defined.

Example china_membership_v6 :
  map (isChinaAddr [] threeRangesV6)
    [aliStart; aliOne; aliEnd; eduStart; telOne; telEnd;
     ip6 [0x24; 0; 0x32; 1; 0; 0; 0; 0; 0; 0; 0; 0; 0; 0; 0]%N 0;
     ip6 [0x20; 1; 2; 0x4f; 0; 0; 0; 0; 0; 0; 0; 0; 0; 0; 0]%N 0;
     ip6 [0x24; 0x0f; 0; 0; 0; 0; 0; 0; 0; 0; 0; 0; 0; 0; 0]%N 0]
  = [true; true; true; true; true; true; false; false; false].
Proof. vm_compute. reflexivity. Qed.

End AddressExamples.

Section IPv4RangeExamples.

Import IPAddr Fixtures.

Local Open Scope Z_scope.

(** X13: the binary search relies on disjoint ranges, which the loader
    does not establish: when a list holds a range and, behind it in the
    order of the starts, a range nested inside it, every address of the
    outer range above the end of the inner one is reported as not
    Chinese, although a loaded range holds it. *)
Theorem nested_range_hides_addresses
    (outer inner : ipRange) (ranges6 : list ipRangeV6) (ip ip4 : IP) :
  keptRange inner ->
  rstart outer < rstart inner ->
  rend inner < ipToUint32 ip <= rend outer ->
  To4 ip = Some ip4 ->
  sortRanges [inner; outer] = [outer; inner]
  /\ containsV4 [outer; inner] (ipToUint32 ip)
  /\ isChinaAddr [outer; inner] ranges6 ip = false.
Proof.
  intros (Hs & He & Hse) Hlt Hip H4. split; [| split].
  - unfold sortRanges. cbn [foldr insertRange].
    destruct (Z.ltb_spec (rstart outer) (rstart inner)); [reflexivity | lia].
  - exists 0%nat, outer. split; [reflexivity | lia].
  - unfold isChinaAddr. rewrite H4.
    destruct (Z.eqb_spec (ipToUint32 ip) 0) as [Hz|_]; [reflexivity |].
    cbn [length]. rewrite searchV4_step. cbn [Nat.ltb Nat.leb].
    change ((0 + 2) / 2)%nat with 1%nat. cbn [lookup list_lookup].
    destruct (Z.ltb_spec (ipToUint32 ip) (rstart inner)); [lia |].
    destruct (Z.ltb_spec (rend inner) (ipToUint32 ip)); [| lia].
    reflexivity.
Qed.

(** 1.0.0.0 - 1.255.255.255 with 1.2.0.0 - 1.2.255.255 listed as well:
    1.3.0.1 is missed. *)
Lemma nested_range_hides_addresses_witness :
  sortRanges [mkRange 16908288 16973823; mkRange 16777216 33554431]
  = [mkRange 16777216 33554431; mkRange 16908288 16973823]
  /\ containsV4 [mkRange 16777216 33554431; mkRange 16908288 16973823]
       (ipToUint32 (ip4 1 3 0 1))
  /\ isChinaAddr [mkRange 16777216 33554431; mkRange 16908288 16973823] [] (ip4 1 3 0 1)
     = false.
Proof.
  apply (nested_range_hides_addresses (mkRange 16777216 33554431) (mkRange 16908288 16973823)
           [] (ip4 1 3 0 1) (ECH.octets [1; 3; 0; 1]%N)).
  - unfold keptRange. simpl. lia.
  - simpl. lia.
  - vm_compute. split; [reflexivity | discriminate].
  - reflexivity.
Defined.

Lemma two_ranges_sortedDisjoint :
  sortedDisjoint [mkRange 16777216 33554431; mkRange 1912602624 1929379839].
Proof.
  split.
  - intros [|[|i]] r; try discriminate; intros [= <-]; simpl; lia.
  - intros [|[|i]] [|[|j]] ri rj Hij; try lia; try discriminate.
    intros [= <-] [= <-]. simpl. lia.
Qed.

Lemma isChinaAddr_contains_witness :
  isChinaAddr [mkRange 16777216 33554431; mkRange 1912602624 1929379839] []
    (ip4 114 114 114 114) = true
  <-> containsV4 [mkRange 16777216 33554431; mkRange 1912602624 1929379839]
        (ipToUint32 (ip4 114 114 114 114)).
Proof.
  apply (isChinaAddr_contains _ [] (ip4 114 114 114 114) (ECH.octets [114; 114; 114; 114]%N)
           two_ranges_sortedDisjoint eq_refl).
  vm_compute. discriminate.
Defined.

End IPv4RangeExamples.
(** *** The SOCKS5 handler *)

Section SocksFacts.

Import IPAddr Client Proxy SocksWire.

Variable IPString : IP -> string.

Lemma ReadFull_append (n : nat) (a b : string) :
  String.length a = n -> ReadFull n (a +:+ b) = Some (a, b).
Proof.
  intros <-. unfold ReadFull. rewrite length_append.
  destruct (Nat.ltb_spec (String.length a + String.length b) (String.length a)); [lia |].
  now rewrite upto_append, from_append.
Qed.

Lemma byte_of_nat (n : nat) : n < 256 -> nat_of_ascii (ascii_of_nat n) = n.
Proof. apply nat_ascii_embedding. Qed.

(** X14: a SOCKS5 client that offers any methods and sends a
    well-formed request is answered with the method selection "no
    authentication" (05 00), whatever it offered.  When the write of
    that answer fails, the handler returns without reading the request.
    When it succeeds, a CONNECT request is handed to the tunnel with the
    target "host:port" (an IPv6 host in brackets, the port in decimal),
    in SOCKS5 mode and without first frame; a UDP ASSOCIATE request goes
    to the UDP relay; any other command is answered with the reply 07
    (command not supported), after the whole request has been read.
    The reserved byte is not looked at, and bytes behind the request
    are left unread. *)
Theorem handleSOCKS5_request
    (helloWriteErr : option string) (methods : string) (command rsv : nat) (a : Address)
    (port : nat) (rest : string) :
  String.length methods < 256 -> command < 256 -> rsv < 256 ->
  wfAddress a = true -> port < 256 * 256 ->
  handleSOCKS5 IPString helloWriteErr
    (greeting methods +:+ request command rsv a port +:+ rest) =
    match helloWriteErr with
    | Some _ => ([], Stop)
    | None =>
        if command =? 1
        then ([bytes [5; 0]], CallTunnel (targetOf IPString a port) modeSOCKS5 "")
        else if command =? 3 then ([bytes [5; 0]], CallUDPAssociate)
        else ([bytes [5; 0]; socksReply 7], Stop)
    end.
Proof.
  intros Hm Hc Hr Ha Hp. unfold handleSOCKS5, greeting, request.
  change (bytes [String.length methods]) with (String (ascii_of_nat (String.length methods)) "").
  rewrite !append_assoc.
  rewrite (ReadFull_append 1 (String (ascii_of_nat (String.length methods)) "")) by reflexivity.
  cbn [at_ String.get default from_option id]. rewrite (byte_of_nat _ Hm).
  rewrite (ReadFull_append (String.length methods) methods) by reflexivity.
  destruct helloWriteErr as [err|]; [reflexivity |].
  rewrite (ReadFull_append 4 (bytes [5; command; rsv; atypOf a])) by reflexivity.
  change (bytes [5; command; rsv; atypOf a])
    with (String (ascii_of_nat 5) (String (ascii_of_nat command) (String (ascii_of_nat rsv)
            (String (ascii_of_nat (atypOf a)) "")))).
  cbn [at_ String.get default from_option id].
  rewrite (byte_of_nat command Hc).
  assert (Hport : 256 * nat_of_ascii (ascii_of_nat (port / 256))
                  + nat_of_ascii (ascii_of_nat (port mod 256)) = port).
  { rewrite !byte_of_nat.
    - symmetry. apply Nat.div_mod_eq.
    - apply Nat.mod_upper_bound. lia.
    - apply Nat.Div0.div_lt_upper_bound. lia. }
  change (bytes [port / 256; port mod 256])
    with (String (ascii_of_nat (port / 256)) (String (ascii_of_nat (port mod 256)) "")).
  destruct a as [b|name|b]; cbn [atypOf encodeAddress wfAddress targetOf] in *.
  - apply Nat.eqb_eq in Ha.
    change (nat_of_ascii (ascii_of_nat 5) =? 5) with true.
    change (nat_of_ascii (ascii_of_nat 1) =? 1) with true.
    change (nat_of_ascii (ascii_of_nat 1) =? 4) with false.
    cbn [negb]. rewrite (ReadFull_append 4 b) by exact Ha.
    rewrite (ReadFull_append 2 (String _ (String _ ""))) by reflexivity.
    cbn [at_ String.get default from_option id]. rewrite Hport. reflexivity.
  - apply Nat.ltb_lt in Ha.
    change (nat_of_ascii (ascii_of_nat 5) =? 5) with true.
    change (nat_of_ascii (ascii_of_nat 3) =? 1) with false.
    change (nat_of_ascii (ascii_of_nat 3) =? 3) with true.
    change (nat_of_ascii (ascii_of_nat 3) =? 4) with false.
    cbn [negb].
    change (bytes [String.length name]) with (String (ascii_of_nat (String.length name)) "").
    rewrite !append_assoc.
    rewrite (ReadFull_append 1 (String (ascii_of_nat (String.length name)) "")) by reflexivity.
    cbn [at_ String.get default from_option id]. rewrite (byte_of_nat _ Ha).
    rewrite (ReadFull_append (String.length name) name) by reflexivity.
    rewrite (ReadFull_append 2 (String _ (String _ ""))) by reflexivity.
    cbn [at_ String.get default from_option id]. rewrite Hport. reflexivity.
  - apply Nat.eqb_eq in Ha.
    change (nat_of_ascii (ascii_of_nat 5) =? 5) with true.
    change (nat_of_ascii (ascii_of_nat 4) =? 1) with false.
    change (nat_of_ascii (ascii_of_nat 4) =? 3) with false.
    change (nat_of_ascii (ascii_of_nat 4) =? 4) with true.
    cbn [negb]. rewrite (ReadFull_append 16 b) by exact Ha.
    rewrite (ReadFull_append 2 (String _ (String _ ""))) by reflexivity.
    cbn [at_ String.get default from_option id]. rewrite Hport. reflexivity.
Qed.

(** X15: the requests that the SOCKS5 handler turns down.  The method
    selection 05 00 is written first, whatever the request is, and a
    failure of that write ends the session before the request is read.
    After it, a request whose version byte is not 5 ends the session
    without a reply, and a request with an address type other than 1, 3
    and 4 is answered with the reply 08 (address type not supported) as
    soon as its first four bytes are read. *)
Theorem handleSOCKS5_rejects
    (helloWriteErr : option string) (methods : string) (version command rsv atyp : nat)
    (rest : string) :
  String.length methods < 256 -> version < 256 -> atyp < 256 ->
  (version <> 5 ->
   handleSOCKS5 IPString helloWriteErr
     (greeting methods +:+ bytes [version; command; rsv; atyp] +:+ rest)
   = match helloWriteErr with
     | Some _ => ([], Stop)
     | None => ([bytes [5; 0]], Stop)
     end)
  /\ (atyp <> 1 -> atyp <> 3 -> atyp <> 4 ->
      handleSOCKS5 IPString helloWriteErr
        (greeting methods +:+ bytes [5; command; rsv; atyp] +:+ rest)
      = match helloWriteErr with
        | Some _ => ([], Stop)
        | None => ([bytes [5; 0]; socksReply 8], Stop)
        end).
Proof.
  intros Hm Hv Ha.
  assert (Hhead : forall v,
             handleSOCKS5 IPString helloWriteErr
               (greeting methods +:+ bytes [v; command; rsv; atyp] +:+ rest)
             = handleSOCKS5 IPString helloWriteErr
                 (String (ascii_of_nat (String.length methods)) ""
                  +:+ methods
                  +:+ String (ascii_of_nat v) (String (ascii_of_nat command)
                        (String (ascii_of_nat rsv) (String (ascii_of_nat atyp) ""))) +:+ rest)).
  { intros v. unfold greeting. now rewrite !append_assoc. }
  split.
  - intros Hne. rewrite Hhead. unfold handleSOCKS5.
    rewrite (ReadFull_append 1 (String (ascii_of_nat (String.length methods)) ""))
      by reflexivity.
    cbn [at_ String.get default from_option id]. rewrite (byte_of_nat _ Hm).
    rewrite (ReadFull_append (String.length methods) methods) by reflexivity.
    destruct helloWriteErr as [err|]; [reflexivity |].
    rewrite (ReadFull_append 4 (String _ (String _ (String _ (String _ ""))))) by reflexivity.
    cbn [at_ String.get default from_option id]. rewrite (byte_of_nat _ Hv).
    apply Nat.eqb_neq in Hne. now rewrite Hne.
  - intros H1 H3 H4. rewrite Hhead. unfold handleSOCKS5.
    rewrite (ReadFull_append 1 (String (ascii_of_nat (String.length methods)) ""))
      by reflexivity.
    cbn [at_ String.get default from_option id]. rewrite (byte_of_nat _ Hm).
    rewrite (ReadFull_append (String.length methods) methods) by reflexivity.
    destruct helloWriteErr as [err|]; [reflexivity |].
    rewrite (ReadFull_append 4 (String _ (String _ (String _ (String _ ""))))) by reflexivity.
    cbn [at_ String.get default from_option id]. rewrite (byte_of_nat _ Ha).
    change (nat_of_ascii (ascii_of_nat 5) =? 5) with true. cbn [negb].
    apply Nat.eqb_neq in H1, H3, H4. now rewrite H1, H3, H4.
Qed.

End SocksFacts.

Section SocksExamples.

Import IPAddr Client Proxy SocksWire Fixtures.

Lemma handleSOCKS5_request_witness :
  handleSOCKS5 ipv4String None
    (greeting (bytes [0; 2]) +:+ request 1 0 (Domain "example.com") 443 +:+ "early data")
  = match @None string with
    | Some _ => ([], Stop)
    | None =>
        if 1 =? 1
        then ([bytes [5; 0]],
              CallTunnel (targetOf ipv4String (Domain "example.com") 443) modeSOCKS5 "")
        else if 1 =? 3 then ([bytes [5; 0]], CallUDPAssociate)
        else ([bytes [5; 0]; socksReply 7], Stop)
    end.
Proof.
  apply (handleSOCKS5_request ipv4String None (bytes [0; 2]) 1 0 (Domain "example.com") 443
           "early data"); [cbn; lia | lia | lia | reflexivity | lia].
Defined.

Lemma handleSOCKS5_rejects_witness :
  handleSOCKS5 ipv4String None (greeting (bytes [0]) +:+ bytes [4; 1; 0; 1] +:+ "")
  = ([bytes [5; 0]], Stop)
  /\ handleSOCKS5 ipv4String None (greeting (bytes [0]) +:+ bytes [5; 1; 0; 9] +:+ "")
     = ([bytes [5; 0]; socksReply 8], Stop)
  /\ handleSOCKS5 ipv4String (Some "broken pipe")
       (greeting (bytes [0]) +:+ bytes [5; 1; 0; 9] +:+ "")
     = ([], Stop).
Proof.
  destruct (handleSOCKS5_rejects ipv4String None (bytes [0]) 4 1 0 1 "") as [H1 _];
    [cbn; lia | lia | lia |].
  destruct (handleSOCKS5_rejects ipv4String None (bytes [0]) 5 1 0 9 "") as [_ H2];
    [cbn; lia | lia | lia |].
  destruct (handleSOCKS5_rejects ipv4String (Some "broken pipe") (bytes [0]) 5 1 0 9 "")
    as [_ H3]; [cbn; lia | lia | lia |].
  split; [apply H1; lia |]. split; [apply H2; lia | apply H3; lia].
Defined.

Example socks_connect_targets :
  map (fun a => snd (handleSOCKS5 ipv4String None
                       (greeting (bytes [0]) +:+ request 1 0 a 80)))
    [Domain "example.com"; IPv4 (bytes [10; 0; 0; 1])]
  = [CallTunnel "example.com:80" modeSOCKS5 ""; CallTunnel "10.0.0.1:80" modeSOCKS5 ""].
Proof. vm_compute. reflexivity. Qed.

End SocksExamples.
(** *** The HTTP handler: CONNECT, the methods that are not supported *)

Section HTTPMethodFacts.

Import Client Proxy.



End HTTPMethodFacts.

Section HTTPMethodExamples.

Import Client Proxy.


Lemma handleHTTP_forwarded_witness :
  handleHTTP (requestOf "POST" "http://h:8080/submit" "HTTP/1.1"
                ["Host: h:8080"; "Proxy-Connection: keep-alive"; "Content-Length: 5"]
                "helloGET")
  = ([], CallTunnel "h:8080" modeHTTPProxy
           ("POST /submit HTTP/1.1" +:+ CRLF +:+ "Host: h:8080" +:+ CRLF
            +:+ "Content-Length: 5" +:+ CRLF +:+ CRLF +:+ "hello")).
Proof.
  rewrite (handleHTTP_forwarded "POST" "http://h:8080/submit" "HTTP/1.1"
             ["Host: h:8080"; "Proxy-Connection: keep-alive"; "Content-Length: 5"]
             "helloGET" eq_refl eq_refl eq_refl eq_refl eq_refl eq_refl eq_refl).
  vm_compute. reflexivity.
Defined.

End HTTPMethodExamples.
(** *** The sessions and the statistics *)

Section SessionStatsFacts.

Import IPAddr Client Proxy SessionHost.

Variable ParseIP : string -> option IP.
Variable IPString : IP -> string.
Variable Resolver : Type.
Variable LookupIP : string -> Resolver -> option (list IP) * Resolver.

Lemma dialLoop_stats (env : TLSEnv) (wsDial : nat -> DialAttempt -> option string)
    (doh : nat -> ECH.DoHReply) (host port path : string) (maxRetries : Z)
    (left attempt : nat) (s : ProxyServer) :
  trafficStats (fst (dialLoop env wsDial doh host port path maxRetries left attempt s))
  = trafficStats s.
Proof.
  revert attempt s. induction left as [|left IH]; intros attempt s; simpl; [reflexivity |].
  repeat case_match; simpl; try reflexivity; now rewrite IH.
Qed.

Lemma dialWebSocketWithECH_stats (env : TLSEnv)
    (wsDial : nat -> DialAttempt -> option string)
    (doh : nat -> ECH.DoHReply) (maxRetries : Z) (s : ProxyServer) :
  trafficStats (fst (dialWebSocketWithECH env wsDial doh maxRetries s)) = trafficStats s.
Proof.
  unfold dialWebSocketWithECH. repeat case_match; simpl; try reflexivity.
  apply dialLoop_stats.
Qed.

Lemma handleDirectConnection_stats (w : World) (target : string) (mode : nat)
    (firstFrame host : string) (st : State Resolver) :
  let before := trafficStats (server st) in
  let after := trafficStats (server (fst (handleDirectConnection Resolver w target mode
                                            firstFrame host st))) in
  after = before
  \/ after = Stats.RecordUpload (clock w) host (Z.of_nat (String.length firstFrame)) before.
Proof.
  unfold handleDirectConnection. repeat case_match; simpl; auto.
Qed.

Lemma handleTunnel_stats (w : World) (target : string) (mode : nat) (firstFrame : string)
    (st : State Resolver) :
  let host := hostOfTarget target in
  let counted := Stats.RecordConnection (clock w) host (trafficStats (server st)) in
  let after := trafficStats (server (fst (handleTunnel ParseIP IPString Resolver LookupIP w
                                            target mode firstFrame st))) in
  after = counted
  \/ exists frame, after = Stats.RecordUpload (clock w) host
                              (Z.of_nat (String.length frame)) counted.
Proof.
  intros host counted after. subst host counted after.
  unfold handleTunnel, hostOfTarget.
  set (host := match SplitHostPort target with inl (h, _) => h | inr _ => target end).
  set (st1 := onStats (Stats.RecordConnection (clock w) host) st).
  destruct (shouldBypassProxy ParseIP IPString Resolver LookupIP (server st1) host (resolver st1))
    as [bypass rs] eqn:Eb.
  destruct bypass.
  - match goal with
    | |- context [handleDirectConnection Resolver w target mode firstFrame host ?s] =>
        destruct (handleDirectConnection_stats w target mode firstFrame host s) as [H|H]
    end; rewrite H; simpl; eauto.
  - cbn [server conn resolver wsOut directAddr directOut].
    pose proof (dialWebSocketWithECH_stats (tlsEnv w) (wsDial w) (doh w) 2 (server st1)) as Hd.
    destruct (dialWebSocketWithECH (tlsEnv w) (wsDial w) (doh w) 2 (server st1))
      as [s' [a|f]];
      cbn [fst] in Hd; [| simpl; left; exact Hd].
    repeat case_match; simpl; rewrite ?Hd; eauto.
Qed.

Lemma RecordConnection_known (now : Z) (host : string) (ts : Stats.TrafficStats) :
  is_Some (Stats.sites (Stats.RecordConnection now host ts) !! host).
Proof.
  unfold Stats.RecordConnection. destruct (Stats.sites ts !! host); simpl;
    rewrite lookup_insert_eq; eauto.
Qed.

Lemma RecordUpload_known (now : Z) (host : string) (n : Z) (ts : Stats.TrafficStats) :
  is_Some (Stats.sites ts !! host) ->
  is_Some (Stats.sites (Stats.RecordUpload now host n ts) !! host).
Proof.
  intros [y Hy]. unfold Stats.RecordUpload. rewrite Hy. simpl.
  rewrite lookup_insert_eq. eauto.
Qed.

(** X18: every call of [handleTunnel] counts a connection for the host
    of its target before it decides the route, so also when the dial of
    the relay or of the target fails; the only other record it makes
    before the relay starts is the upload of the first frame, for the
    same host.  The host therefore has an entry when the session ends
    or the relay starts, and a store whose totals equal the sums over
    its sites still has that property; the same holds for everything
    [handleConnection] does with a connection up to that point. *)
Theorem sessions_keep_totals (w : World) (target : string) (mode : nat) (firstFrame : string)
    (st : State Resolver) (now : Z) (input : string) (s : ProxyServer) (rs : Resolver) :
  let after := trafficStats (server (fst (handleTunnel ParseIP IPString Resolver LookupIP w
                                            target mode firstFrame st))) in
  is_Some (Stats.GetSiteStats (hostOfTarget target) after)
  /\ (Stats.totalsMatch (trafficStats (server st)) -> Stats.totalsMatch after)
  /\ (Stats.totalsMatch (trafficStats s) ->
      Stats.totalsMatch
        (trafficStats (server (fst (handleConnection ParseIP IPString Resolver LookupIP w now
                                      input s rs))))).
Proof.
  assert (Htunnel : forall target mode firstFrame (st : State Resolver),
             let after := trafficStats (server (fst (handleTunnel ParseIP IPString Resolver
                                                       LookupIP w target mode firstFrame st))) in
             is_Some (Stats.sites after !! hostOfTarget target)
             /\ (Stats.totalsMatch (trafficStats (server st)) -> Stats.totalsMatch after)).
  { clear. intros target mode firstFrame st after.
    destruct (handleTunnel_stats w target mode firstFrame st) as [H | [frame H]];
      fold after in H; rewrite H.
    - split; [apply RecordConnection_known | apply RecordConnection_totalsMatch].
    - split; [apply RecordUpload_known, RecordConnection_known |].
      intros Hm. apply RecordUpload_totalsMatch; [apply RecordConnection_known |].
      now apply RecordConnection_totalsMatch. }
  intros after. destruct (Htunnel target mode firstFrame st) as [Hk Hm]. fold after in Hk, Hm.
  split; [now rewrite GetSiteStats_lookup |]. split; [exact Hm |].
  intros Hs. unfold handleConnection.
  destruct input as [|first rest]; [exact Hs |].
  match goal with
  | |- context [if ?c then Some (handleSOCKS5 IPString ?h rest) else ?e] =>
      destruct (if c then Some (handleSOCKS5 IPString h rest) else e) as [[writes next]|];
        [| exact Hs]
  end.
  destruct next as [|t m f|]; try exact Hs.
  apply Htunnel. exact Hs.
Qed.

End SessionStatsFacts.
(** *** The DNS query of the resolver *)

Section DNSQueryFacts.

Import ECH DNSWire DNSQuery.

Lemma length_list_byte_of_string (s : string) :
  length (list_byte_of_string s) = String.length s.
Proof.
  unfold list_byte_of_string. rewrite List.length_map.
  induction s as [|c s IH]; [reflexivity |]. simpl. now rewrite IH.
Qed.

Lemma byteOfNat_mod (n : nat) : byteOfNat (n mod 256) = byteOfNat n.
Proof.
  unfold byteOfNat, Base64.byteOfN. f_equal.
  rewrite Nat2N.inj_mod. change (N.of_nat 256) with 256%N.
  now rewrite N.Div0.mod_mod.
Qed.

Lemma encodeName_labels (labels : list string) :
  flat_map (fun label => byteOfNat (String.length label) :: list_byte_of_string label) labels
  = flat_map encodeLabel (map list_byte_of_string labels).
Proof.
  induction labels as [|l labels IH]; [reflexivity |]. cbn [map flat_map].
  rewrite IH. f_equal. unfold encodeLabel. now rewrite length_list_byte_of_string.
Qed.

(** X19: the query that [buildDNSQuery] writes is the DNS message with
    ID 1, the flag RD, one question for the labels of the domain (the
    strings between its dots) with the given type and class IN, and no
    other record.  When every label has 1 to 63 bytes the message is
    well formed, and in every response that repeats this question
    behind its header the parser of the resolver finds the first answer
    record right behind the question. *)
Theorem buildDNSQuery_wire (domain : string) (qtype : nat) (header answers : list byte) :
  qtype < 256 * 256 ->
  let labels := map list_byte_of_string (Split domain ".") in
  let m := mkMessage 1 256 labels qtype 1 [] 0 0 [] in
  buildDNSQuery domain qtype = encodeMessage m
  /\ (forallb wfLabel labels = true ->
      wellFormed m = true
      /\ (length header = 12 ->
          skipLabels (header ++ drop 12 (buildDNSQuery domain qtype) ++ answers)
            (length (header ++ drop 12 (buildDNSQuery domain qtype) ++ answers)) 12 + 5
          = length (header ++ drop 12 (buildDNSQuery domain qtype)))).
Proof.
  intros Hq labels m.
  assert (Hdrop : drop 12 (buildDNSQuery domain qtype)
                  = flat_map encodeLabel labels ++ x00 :: be16 qtype ++ be16 1).
  { unfold buildDNSQuery. cbn [drop app]. rewrite encodeName_labels.
    unfold be16. rewrite byteOfNat_mod. reflexivity. }
  split.
  - unfold buildDNSQuery, encodeMessage, encodeHeader, encodeName, m.
    cbn [msgID msgFlags msgAnswers nsCount arCount question qType qClass trailer
         flat_map length].
    rewrite encodeName_labels. unfold be16 at 7. rewrite byteOfNat_mod.
    rewrite app_nil_r, <- !app_assoc. reflexivity.
  - intros Hwf. split.
    + unfold wellFormed, m. cbn [question msgAnswers forallb length]. now rewrite Hwf.
    + intros Hh. rewrite Hdrop, <- Hh.
      rewrite <- app_assoc. cbn [app].
      rewrite skipLabels_name.
      * unfold be16. rewrite !length_app. cbn [length app]. lia.
      * exact Hwf.
      * rewrite !length_app.
        pose proof (length_flat_map_ge encodeLabel labels) as Hge.
        assert (forall x : list byte, 1 <= length (encodeLabel x)) by (intros x; simpl; lia).
        specialize (Hge H). cbn [length]. lia.
Qed.

End DNSQueryFacts.

Section DNSQueryExamples.

Import ECH DNSWire DNSQuery Fixtures.

(** The query for the HTTPS record of cloudflare-ech.com, and the
    answer of [echAnswer] to it. *)
Lemma buildDNSQuery_wire_witness :
  let labels := map list_byte_of_string (Split "cloudflare-ech.com" ".") in
  let m := mkMessage 1 256 labels 65 1 [] 0 0 [] in
  let query := buildDNSQuery "cloudflare-ech.com" 65 in
  let header := take 12 echAnswer in
  let answers := drop (length query) echAnswer in
  query = encodeMessage m
  /\ wellFormed m = true
  /\ skipLabels (header ++ drop 12 query ++ answers)
       (length (header ++ drop 12 query ++ answers)) 12 + 5
     = length (header ++ drop 12 query).
Proof.
  intros labels m query header answers.
  destruct (buildDNSQuery_wire "cloudflare-ech.com" 65 header answers) as [H1 H2]; [lia |].
  destruct (H2 eq_refl) as [H3 H4].
  split; [exact H1 |]. split; [exact H3 |]. apply H4. reflexivity.
Defined.

Example query_bytes :
  buildDNSQuery "a.bc" 65
  = ECH.octets [0; 1; 1; 0; 0; 1; 0; 0; 0; 0; 0; 0; 1; 97; 2; 98; 99; 0; 0; 65; 0; 1]%N
  /\ take 12 echAnswer ++ drop 12 (buildDNSQuery "cloudflare-ech.com" 65)
     ++ drop (length (buildDNSQuery "cloudflare-ech.com" 65)) echAnswer = echAnswer.
Proof. split; vm_compute; reflexivity. Qed.

End DNSQueryExamples.
(** *** The parser of the DNS answer never reads out of bounds *)

Section CheckedFacts.

Import ECH.

Lemma at_in_range (data : list byte) (i : nat) :
  i < length data -> Checked.at_ data i = Checked.Done (u8 data i).
Proof.
  intros H. unfold Checked.at_, u8.
  destruct (lookup_lt_is_Some_2 data i H) as [b Hb]. rewrite Hb.
  f_equal. f_equal. symmetry. apply nth_lookup_Some with (d := x00) in Hb. exact Hb.
Qed.

Lemma sub_in_range (data : list byte) (a b : nat) :
  a <= b -> b <= length data -> Checked.sub data a b = Checked.Done (bytesSlice data a b).
Proof.
  intros Ha Hb. unfold Checked.sub, bytesSlice.
  apply Nat.leb_le in Ha, Hb. now rewrite Ha, Hb.
Qed.

Lemma uint16_slice (data : list byte) (a : nat) :
  a + 2 <= length data ->
  Checked.uint16 (bytesSlice data a (a + 2)) = Checked.Done (Uint16 data a).
Proof.
  intros H. unfold bytesSlice, Uint16, u8.
  replace (a + 2 - a) with 2 by lia.
  rewrite <- (take_drop a data) at 2 3. rewrite !app_nth2 by (rewrite length_take; lia).
  rewrite length_take. replace (a `min` length data) with a by lia.
  replace (a - a) with 0 by lia. replace (a + 1 - a) with 1 by lia.
  assert (Hl : 2 <= length (drop a data)) by (rewrite length_drop; lia).
  destruct (drop a data) as [|b0 [|b1 l]]; simpl in Hl; try lia. reflexivity.
Qed.

(** The checked label loop ends, without panic, where the loop of the
    model ends. *)
Lemma skipLabels_checked (data : list byte) (fuelC fuelU offset : nat) :
  length data - offset <= fuelU -> length data - offset < fuelC ->
  Checked.skipLabels data fuelC offset = Checked.Done (skipLabels data fuelU offset).
Proof.
  revert fuelU offset. induction fuelC as [|fuelC IH]; intros fuelU offset HU HC; [lia |].
  cbn [Checked.skipLabels]. destruct (Nat.ltb_spec offset (length data)) as [Hlt|Hge].
  - rewrite at_in_range by exact Hlt. cbn [Checked.bind].
    destruct fuelU as [|fuelU]; [lia |]. cbn [skipLabels].
    apply Nat.ltb_lt in Hlt as Hlt'. rewrite Hlt'. cbn [andb].
    destruct (u8 data offset =? 0) eqn:E; [reflexivity |]. cbn [negb].
    apply IH; lia.
  - destruct fuelU as [|fuelU]; [reflexivity |]. cbn [skipLabels].
    apply Nat.ltb_ge in Hge. now rewrite Hge.
Qed.

Lemma svcParams_checked (data : list byte) (fuelC fuelU offset : nat) :
  length data - offset <= fuelU -> length data - offset < fuelC ->
  Checked.svcParams data fuelC offset = Checked.Done (svcParams data fuelU offset).
Proof.
  revert fuelU offset. induction fuelC as [|fuelC IH]; intros fuelU offset HU HC; [lia |].
  cbn [Checked.svcParams]. destruct (Nat.leb_spec (offset + 4) (length data)) as [Hle|Hgt].
  - rewrite (sub_in_range data offset (offset + 2)) by lia. cbn [Checked.bind].
    rewrite uint16_slice by lia. cbn [Checked.bind].
    replace (offset + 4) with (offset + 2 + 2) at 1 by lia.
    rewrite (sub_in_range data (offset + 2) (offset + 2 + 2)) by lia. cbn [Checked.bind].
    rewrite uint16_slice by lia. cbn [Checked.bind].
    destruct fuelU as [|fuelU]; [lia |]. cbn [svcParams].
    apply Nat.leb_le in Hle as Hle'. rewrite Hle'.
    destruct (Nat.ltb_spec (length data) (offset + 4 + Uint16 data (offset + 2))) as [H|H];
      [reflexivity |].
    rewrite sub_in_range by lia. cbn [Checked.bind].
    destruct (Uint16 data offset =? 5); [reflexivity |]. apply IH; lia.
  - destruct fuelU as [|fuelU]; [reflexivity |]. cbn [svcParams].
    apply Nat.leb_gt in Hgt. now rewrite Hgt.
Qed.

Lemma parseHTTPSRecord_checked (data : list byte) :
  Checked.parseHTTPSRecord data = Checked.Done (parseHTTPSRecord data).
Proof.
  unfold Checked.parseHTTPSRecord, parseHTTPSRecord.
  destruct (Nat.ltb_spec (length data) 2) as [Hlt|Hge]; [reflexivity |].
  destruct (Nat.ltb_spec 2 (length data)) as [H2|H2].
  - rewrite at_in_range by exact H2. cbn [Checked.bind andb].
    destruct (u8 data 2 =? 0).
    + cbn [Checked.bind]. apply svcParams_checked; lia.
    + rewrite (skipLabels_checked data _ (length data)) by lia. cbn [Checked.bind].
      apply svcParams_checked; lia.
  - cbn [andb]. rewrite (skipLabels_checked data _ (length data)) by lia. cbn [Checked.bind].
    apply svcParams_checked; lia.
Qed.

Lemma answers_checked (response : list byte) (count offset : nat) :
  Checked.answers response count offset = Checked.Done (answers response count offset).
Proof.
  revert offset. induction count as [|count IH]; intros offset; [reflexivity |].
  cbn [Checked.answers answers].
  destruct (Nat.leb_spec (length response) offset) as [Hle|Hgt]; [reflexivity |].
  rewrite at_in_range by exact Hgt. cbn [Checked.bind].
  set (offset1 := if Nat.land (u8 response offset) 192 =? 192 then offset + 2
                  else skipLabels response (length response) offset + 1).
  assert (H1 : (if Nat.land (u8 response offset) 192 =? 192 then Checked.Done (offset + 2)
                else Checked.bind (Checked.skipLabels response (S (length response)) offset)
                       (fun o => Checked.Done (o + 1)))
               = Checked.Done offset1).
  { subst offset1. destruct (Nat.land (u8 response offset) 192 =? 192); [reflexivity |].
    now rewrite (skipLabels_checked response _ (length response)) by lia. }
  rewrite H1. cbn [Checked.bind].
  destruct (Nat.ltb_spec (length response) (offset1 + 10)) as [H10|H10]; [reflexivity |].
  rewrite (sub_in_range response offset1 (offset1 + 2)) by lia. cbn [Checked.bind].
  rewrite uint16_slice by lia. cbn [Checked.bind].
  rewrite (sub_in_range response (offset1 + 8) (offset1 + 8 + 2)) by lia. cbn [Checked.bind].
  rewrite uint16_slice by lia. cbn [Checked.bind].
  destruct (Nat.ltb_spec (length response) (offset1 + 8 + 2 + Uint16 response (offset1 + 8)))
    as [Hd|Hd]; [reflexivity |].
  rewrite sub_in_range by lia. cbn [Checked.bind].
  destruct (Uint16 response offset1 =? typeHTTPS).
  - rewrite parseHTTPSRecord_checked. cbn [Checked.bind].
    destruct (negb (String.eqb _ "")); [reflexivity | apply IH].
  - cbn [Checked.bind String.eqb negb]. apply IH.
Qed.

(** X20: [parseDNSResponse] never indexes or slices out of range and
    always returns, whatever bytes the DoH server sends: with the
    bounds checks of the Go runtime written out, it ends without panic
    for every input, with the result that the model of the resolver
    computes; so does [parseHTTPSRecord] for every record data. *)
Theorem parseDNSResponse_never_panics (response data : list byte) :
  Checked.parseDNSResponse response = Checked.Done (parseDNSResponse response)
  /\ Checked.parseHTTPSRecord data = Checked.Done (parseHTTPSRecord data).
Proof.
  split; [| apply parseHTTPSRecord_checked].
  unfold Checked.parseDNSResponse, parseDNSResponse.
  destruct (Nat.ltb_spec (length response) 12) as [Hlt|Hge]; [reflexivity |].
  rewrite (sub_in_range response 6 8) by lia. cbn [Checked.bind].
  change (bytesSlice response 6 8) with (bytesSlice response 6 (6 + 2)).
  rewrite uint16_slice by lia. cbn [Checked.bind].
  destruct (Uint16 response 6 =? 0); [reflexivity |].
  rewrite (skipLabels_checked response _ (length response)) by lia. cbn [Checked.bind].
  now rewrite answers_checked.
Qed.

End CheckedFacts.
(** *** The UDP relay *)

Section UDPFacts.

Import IPAddr ECH DNSWire Checked UDPRelay.

Variable IPString : IP -> string.

Lemma destination_in_range (data : list byte) :
  10 <= length data ->
  exists r, destination IPString data = Done r
            /\ forall h p l, r = Some (h, p, l) -> l <= length data.
Proof.
  intros Hn. unfold destination.
  rewrite at_in_range by lia. cbn [bind].
  destruct (u8 data 3 =? 1).
  { destruct (Nat.ltb_spec (length data) 10) as [Hd|Hd]; [lia |].
    rewrite sub_in_range, !at_in_range by lia. cbn [bind].
    eexists. split; [reflexivity |]. intros h p l [= _ _ <-]. lia. }
  destruct (u8 data 3 =? 3).
  { destruct (Nat.ltb_spec (length data) 5) as [H5|H5]; [lia |].
    rewrite at_in_range by lia. cbn [bind].
    destruct (Nat.ltb_spec (length data) (7 + u8 data 4)) as [Hd|Hd].
    - eexists. split; [reflexivity |]. discriminate.
    - rewrite sub_in_range, !at_in_range by lia. cbn [bind].
      eexists. split; [reflexivity |]. intros h p l [= _ _ <-]. lia. }
  destruct (u8 data 3 =? 4).
  { destruct (Nat.ltb_spec (length data) 22) as [Hd|Hd].
    - eexists. split; [reflexivity |]. discriminate.
    - rewrite sub_in_range, !at_in_range by lia. cbn [bind].
      eexists. split; [reflexivity |]. intros h p l [= _ _ <-]. lia. }
  eexists. split; [reflexivity |]. discriminate.
Qed.

(** X21: the UDP relay never indexes or slices a datagram out of range:
    for every datagram a client sends to the relay socket, the body of
    the loop ends without panic, by dropping the datagram, by logging
    an unsupported target, or by starting a DNS query. *)
Theorem handleDatagram_never_panics (data : list byte) :
  exists d, handleDatagram IPString data = Done d.
Proof.
  unfold handleDatagram.
  destruct (Nat.ltb_spec (length data) 10) as [Hlt|Hge]; [eauto |].
  rewrite at_in_range by lia. cbn [bind].
  destruct (negb (u8 data 2 =? 0)); [eauto |].
  destruct (destination_in_range data Hge) as (r & -> & Hr). cbn [bind].
  destruct r as [[[h p] l]|]; [| eauto].
  specialize (Hr h p l eq_refl).
  rewrite sub_in_range by lia. cbn [bind].
  destruct (p =? 53); [| eauto].
  rewrite sub_in_range by lia. cbn [bind]. eauto.
Qed.

Lemma port_bytes (port : nat) :
  port < 256 * 256 ->
  256 * Byte.to_nat (byteOfNat (port / 256)) + Byte.to_nat (byteOfNat (port mod 256)) = port.
Proof.
  intros H. assert (port / 256 < 256) by (apply Nat.Div0.div_lt_upper_bound; lia).
  pose proof (Nat.mod_upper_bound port 256).
  rewrite !to_nat_byteOfNat by lia. pose proof (Nat.div_mod_eq port 256). lia.
Qed.

Lemma at_here (pre post : list byte) (b : byte) :
  at_ (pre ++ b :: post) (length pre) = Done (Byte.to_nat b).
Proof. unfold at_. now rewrite list_lookup_middle. Qed.

(** What the loop does behind a successful reading of the address. *)
Lemma handleDatagram_parsed (hdr payload : list byte) (h : string) (p : nat) :
  10 <= length (hdr ++ payload) ->
  at_ (hdr ++ payload) 2 = Done 0 ->
  destination IPString (hdr ++ payload) = Done (Some (h, p, length hdr)) ->
  handleDatagram IPString (hdr ++ payload)
  = Done (if p =? 53 then DNSQuery (h +:+ ":" +:+ pretty p) hdr payload
          else Unsupported (h +:+ ":" +:+ pretty p)).
Proof.
  intros Hlen H2 Hd. unfold handleDatagram.
  destruct (Nat.ltb_spec (length (hdr ++ payload)) 10) as [H|_]; [lia |].
  rewrite H2. cbn [bind Nat.eqb negb]. rewrite Hd. cbn [bind].
  rewrite sub_in_range by (rewrite ?length_app; lia). cbn [bind].
  assert (Hp : bytesSlice (hdr ++ payload) (length hdr) (length (hdr ++ payload)) = payload).
  { unfold bytesSlice. rewrite drop_app_length, length_app.
    apply take_ge. lia. }
  rewrite Hp. destruct (p =? 53); [| reflexivity].
  rewrite sub_in_range by (rewrite ?length_app; lia). cbn [bind].
  unfold bytesSlice. rewrite drop_0, Nat.sub_0_r, take_app_length. reflexivity.
Qed.

Lemma destination_domain (rsv0 rsv1 : byte) (name : string) (port : nat)
    (payload : list byte) :
  String.length name < 256 -> port < 256 * 256 ->
  destination IPString (udpHeader rsv0 rsv1 (SocksWire.Domain name) port ++ payload)
  = Done (Some (name, port, length (udpHeader rsv0 rsv1 (SocksWire.Domain name) port))).
Proof.
  intros Hname Hport.
  set (nm := list_byte_of_string name).
  assert (Hnm : length nm = String.length name) by apply length_list_byte_of_string.
  set (hi := byteOfNat (port / 256)). set (lo := byteOfNat (port mod 256)).
  set (pre := [rsv0; rsv1; x00; byteOfNat 3; byteOfNat (String.length name)]).
  assert (Hhead : udpHeader rsv0 rsv1 (SocksWire.Domain name) port = pre ++ nm ++ [hi; lo])
    by reflexivity.
  rewrite Hhead. clear Hhead.
  assert (Hlh : length (pre ++ nm ++ [hi; lo]) = 7 + String.length name).
  { rewrite !length_app. unfold pre. cbn [length]. lia. }
  rewrite Hlh.
  set (data := (pre ++ nm ++ [hi; lo]) ++ payload).
  assert (Hn : length data = 7 + String.length name + length payload).
  { subst data. rewrite length_app. lia. }
  unfold destination.
  change (at_ data 3) with (Done (Byte.to_nat (byteOfNat 3))). cbn [bind].
  rewrite (to_nat_byteOfNat 3) by lia. cbn [Nat.eqb].
  destruct (Nat.ltb_spec (length data) 5) as [H|_]; [lia |].
  change (at_ data 4) with (Done (Byte.to_nat (byteOfNat (String.length name)))). cbn [bind].
  rewrite (to_nat_byteOfNat _ Hname).
  destruct (Nat.ltb_spec (length data) (7 + String.length name)) as [H|_]; [lia |].
  assert (Hsub : sub data 5 (5 + String.length name) = Done nm).
  { rewrite sub_in_range by lia. f_equal. unfold bytesSlice. subst data pre.
    rewrite <- !app_assoc. cbn [drop app].
    replace (5 + String.length name - 5) with (length nm) by lia.
    apply take_app_length. }
  rewrite Hsub. cbn [bind].
  assert (Hhi : at_ data (5 + String.length name) = Done (Byte.to_nat hi)).
  { replace (5 + String.length name) with (length (pre ++ nm))
      by (rewrite length_app; unfold pre; cbn [length]; lia).
    subst data. replace ((pre ++ nm ++ [hi; lo]) ++ payload)
      with ((pre ++ nm) ++ hi :: lo :: payload) by (now rewrite <- !app_assoc).
    apply at_here. }
  assert (Hlo : at_ data (6 + String.length name) = Done (Byte.to_nat lo)).
  { replace (6 + String.length name) with (length (pre ++ nm ++ [hi]))
      by (rewrite !length_app; unfold pre; cbn [length]; lia).
    subst data. replace ((pre ++ nm ++ [hi; lo]) ++ payload)
      with ((pre ++ nm ++ [hi]) ++ lo :: payload) by (now rewrite <- !app_assoc).
    apply at_here. }
  rewrite Hhi, Hlo. cbn [bind]. subst hi lo nm.
  rewrite port_bytes by exact Hport. now rewrite string_of_list_byte_of_string.
Qed.

Lemma destination_ipv4 (rsv0 rsv1 : byte) (b : string) (port : nat) (payload : list byte) :
  String.length b = 4 -> port < 256 * 256 ->
  destination IPString (udpHeader rsv0 rsv1 (SocksWire.IPv4 b) port ++ payload)
  = Done (Some (IPString (list_byte_of_string b), port,
                length (udpHeader rsv0 rsv1 (SocksWire.IPv4 b) port))).
Proof.
  intros Hb Hport.
  destruct b as [|c0 [|c1 [|c2 [|c3 [|]]]]]; try discriminate.
  unfold destination.
  change (at_ _ 3) with (Done (Byte.to_nat (byteOfNat 1))). cbn [bind].
  rewrite (to_nat_byteOfNat 1) by lia. cbn [Nat.eqb].
  change (at_ _ 8) with (Done (Byte.to_nat (byteOfNat (port / 256)))).
  change (at_ _ 9) with (Done (Byte.to_nat (byteOfNat (port mod 256)))).
  change (sub _ 4 8) with (Done (list_byte_of_string (String c0 (String c1 (String c2
                                   (String c3 "")))))).
  change (length (udpHeader rsv0 rsv1 _ port ++ payload) <? 10) with false.
  cbn [bind]. rewrite port_bytes by exact Hport. reflexivity.
Qed.

Lemma destination_ipv6 (rsv0 rsv1 : byte) (b : string) (port : nat) (payload : list byte) :
  String.length b = 16 -> port < 256 * 256 ->
  destination IPString (udpHeader rsv0 rsv1 (SocksWire.IPv6 b) port ++ payload)
  = Done (Some (IPString (list_byte_of_string b), port,
                length (udpHeader rsv0 rsv1 (SocksWire.IPv6 b) port))).
Proof.
  intros Hb Hport.
  do 16 (destruct b as [|? b]; [discriminate |]). destruct b; [| discriminate].
  unfold destination.
  change (at_ _ 3) with (Done (Byte.to_nat (byteOfNat 4))). cbn [bind].
  rewrite (to_nat_byteOfNat 4) by lia. cbn [Nat.eqb].
  change (at_ _ 20) with (Done (Byte.to_nat (byteOfNat (port / 256)))).
  change (at_ _ 21) with (Done (Byte.to_nat (byteOfNat (port mod 256)))).
  match goal with
  | |- context [IPString (list_byte_of_string ?s)] =>
      change (sub _ 4 20) with (Done (list_byte_of_string s))
  end.
  change (length (udpHeader rsv0 rsv1 _ port ++ payload) <? 22) with false.
  cbn [bind]. rewrite port_bytes by exact Hport. reflexivity.
Qed.

(** X22: a SOCKS5 UDP request of at least ten bytes with fragment
    number 0 and a well-formed address is read back exactly: the target
    is the host and the port of the request; when the port is 53 the
    loop hands the header of the request and the data behind it, as
    they stand in the read buffer, to [handleDNSQuery]; for any other
    port the datagram is not relayed.  The two reserved bytes are not
    looked at. *)
Theorem handleDatagram_request
    (rsv0 rsv1 : byte) (a : SocksWire.Address) (port : nat) (payload : list byte) :
  SocksWire.wfAddress a = true -> port < 256 * 256 ->
  10 <= length (udpHeader rsv0 rsv1 a port ++ payload) ->
  handleDatagram IPString (udpHeader rsv0 rsv1 a port ++ payload)
  = Done (if port =? 53
          then DNSQuery (udpTarget IPString a port) (udpHeader rsv0 rsv1 a port) payload
          else Unsupported (udpTarget IPString a port)).
Proof.
  intros Ha Hport Hlen.
  assert (H2 : at_ (udpHeader rsv0 rsv1 a port ++ payload) 2 = Done 0) by reflexivity.
  destruct a as [b|name|b]; cbn [SocksWire.wfAddress] in Ha.
  - apply Nat.eqb_eq in Ha.
    exact (handleDatagram_parsed _ payload _ port Hlen H2
             (destination_ipv4 rsv0 rsv1 b port payload Ha Hport)).
  - apply Nat.ltb_lt in Ha.
    exact (handleDatagram_parsed _ payload _ port Hlen H2
             (destination_domain rsv0 rsv1 name port payload Ha Hport)).
  - apply Nat.eqb_eq in Ha.
    exact (handleDatagram_parsed _ payload _ port Hlen H2
             (destination_ipv6 rsv0 rsv1 b port payload Ha Hport)).
Qed.

End UDPFacts.

Section UDPExamples.

Import IPAddr ECH DNSWire Checked UDPRelay Fixtures.

(** A DNS query for 8.8.8.8:53, and a datagram for port 443. *)
Lemma handleDatagram_request_witness :
  let query := DNSQuery.buildDNSQuery "example.com" 1 in
  let header := udpHeader x00 x00 (SocksWire.IPv4 (Proxy.bytes [8; 8; 8; 8])) 53 in
  handleDatagram ipv4String (header ++ query)
  = Done (if 53 =? 53
          then DNSQuery (udpTarget ipv4String (SocksWire.IPv4 (Proxy.bytes [8; 8; 8; 8])) 53)
                 header query
          else Unsupported (udpTarget ipv4String (SocksWire.IPv4 (Proxy.bytes [8; 8; 8; 8])) 53)).
Proof.
  intros query header.
  apply (handleDatagram_request ipv4String x00 x00 (SocksWire.IPv4 (Proxy.bytes [8; 8; 8; 8]))
           53 query); [reflexivity | lia |].
  vm_compute. lia.
Defined.

Example udp_datagrams :
  handleDatagram ipv4String
    (udpHeader x00 x00 (SocksWire.Domain "dns.example") 53 ++ ECH.octets [1; 2; 3]%N)
  = Done (DNSQuery "dns.example:53"
            (udpHeader x00 x00 (SocksWire.Domain "dns.example") 53) (ECH.octets [1; 2; 3]%N))
  /\ handleDatagram ipv4String
       (udpHeader x00 x00 (SocksWire.IPv4 (Proxy.bytes [8; 8; 8; 8])) 443 ++ [x01])
     = Done (Unsupported "8.8.8.8:443")
  /\ handleDatagram ipv4String (udpHeader x00 x00 (SocksWire.Domain "a") 53)
     = Done Dropped.
Proof. vm_compute. repeat split. Qed.

End UDPExamples.

(** *** The life cycle of the client *)

Section LifecycleFacts.

Import IPAddr Client Checked Engine.

Variable ParseIP : string -> option IP.

Lemma loadChinaIPList_panic (file : ListFile) (current : list ipRange) :
  snd (loadChinaIPList ParseIP file current) = LoadPanic <-> file = StatFailed.
Proof.
  unfold loadChinaIPList. destruct file as [| |lines scanErr]; cbn; [easy | easy |].
  repeat case_match; cbn; easy.
Qed.

Lemma loadChinaIPV6List_panic (file : ListFile) (current : list ipRangeV6) :
  snd (loadChinaIPV6List ParseIP file current) = LoadPanic <-> file = StatFailed.
Proof.
  unfold loadChinaIPV6List. destruct file as [| |lines scanErr]; cbn; [easy | easy |].
  repeat case_match; cbn; easy.
Qed.

Lemma loadRoutingData_panic (v4 v6 : ListFile) (s : ProxyServer) :
  snd (loadRoutingData ParseIP v4 v6 s) = true
  <-> RoutingMode (config s) = RoutingModeBypassCN /\ (v4 = StatFailed \/ v6 = StatFailed).
Proof.
  unfold loadRoutingData.
  destruct (String.eqb (RoutingMode (config s)) RoutingModeBypassCN) eqn:Hm.
  - apply String.eqb_eq in Hm.
    pose proof (loadChinaIPList_panic v4 (chinaIPRanges s)) as H4.
    destruct (loadChinaIPList ParseIP v4 (chinaIPRanges s)) as [r e]. cbn [snd] in H4.
    assert (H6 : forall s', snd (loadChinaIPV6List ParseIP v6 (chinaIPV6Ranges s')) = LoadPanic
                            <-> v6 = StatFailed)
      by (intros s'; apply loadChinaIPV6List_panic).
    destruct e.
    + specialize (H6 (withRanges s r)).
      destruct (loadChinaIPV6List ParseIP v6 _) as [r6 e6]. cbn [snd] in H6.
      destruct e6; cbn; (split; [intros H | intros (_ & [H|H])]);
        try discriminate; try (apply H4 in H; discriminate); try (apply H6 in H; discriminate);
        try easy.
      split; [exact Hm | right; now apply H6].
    + specialize (H6 (withRanges s r)).
      destruct (loadChinaIPV6List ParseIP v6 _) as [r6 e6]. cbn [snd] in H6.
      destruct e6; cbn; (split; [intros H | intros (_ & [H|H])]);
        try discriminate; try (apply H4 in H; discriminate); try (apply H6 in H; discriminate);
        try easy.
      split; [exact Hm | right; now apply H6].
    + cbn. split; [intros _ | easy]. split; [exact Hm | left; now apply H4].
  - apply String.eqb_neq in Hm.
    repeat case_match; cbn; (split; [discriminate | intros (Hb & _); contradiction]).
Qed.

(** [Start] of the client ends in a panic exactly when it gets as far
    as the loaders, in mode [bypass_cn], and [os.Stat] fails on one of
    the two list files. *)
Lemma Start_panic (reply : ECH.DoHReply) (v4 v6 : ListFile) (listenOk : bool)
    (s : ProxyServer) :
  snd (Client.Start ParseIP reply v4 v6 listenOk s) = Some StartPanic
  <-> running s = false
      /\ snd (ECH.prepareECH reply (echList s)) = None
      /\ RoutingMode (config s) = RoutingModeBypassCN
      /\ (v4 = StatFailed \/ v6 = StatFailed).
Proof.
  unfold Client.Start.
  destruct (running s) eqn:Hr; [cbn; split; [discriminate | intros (H & _); discriminate] |].
  cbn [withRunning echList].
  destruct (ECH.prepareECH reply (echList s)) as [ech [err|]] eqn:He;
    [cbn; split; [discriminate | intros (_ & H & _); discriminate] |].
  match goal with
  | |- context [loadRoutingData ParseIP v4 v6 ?s1] =>
      pose proof (loadRoutingData_panic v4 v6 s1) as Hp;
      destruct (loadRoutingData ParseIP v4 v6 s1) as [s2 panics]
  end.
  cbn [snd config withEchList] in Hp.
  destruct panics.
  - cbn. split; [intros _ | reflexivity]. split; [reflexivity |]. split; [reflexivity |].
    now apply Hp.
  - destruct listenOk; cbn; (split; [discriminate |]); intros (_ & _ & H);
      apply Hp in H; discriminate.
Qed.










(** X27: [Start] panics exactly when the server is not running yet, the
    ECH configuration has been fetched, the routing mode is
    [bypass_cn], and [os.Stat] fails with an error other than "not
    exist" on the IPv4 or on the IPv6 list file: the loader then calls
    [info.Size()] on a nil [FileInfo].  In no other case does [Start]
    panic. *)
Theorem Start_panics_on_stat_failure (i : StartInput) (e : Engine) :
  Start ParseIP i e = Panic
  <-> IsRunning e = false
      /\ snd (ECH.prepareECH (reply i) (echList (server e))) = None
      /\ RoutingMode (config (server e)) = RoutingModeBypassCN
      /\ (v4 i = StatFailed \/ v6 i = StatFailed).
Proof.
  rewrite <- (Start_panic (reply i) (v4 i) (v6 i) (listenOk i) (server e)).
  unfold Start.
  destruct (Client.Start ParseIP (reply i) (v4 i) (v6 i) (listenOk i) (server e))
    as [s' [[]|]]; cbn; split; intros H; try discriminate; reflexivity.
Qed.

End LifecycleFacts.

Section LifecycleExamples.

Import IPAddr Client Checked Engine Fixtures EngineFixtures.



Example update_of_running_server :
  IsRunning startedEngine = true
  /\ (exists e, UpdateConfig parseIPv4 (defaultConfig "bypass_cn") 0%Z portTaken startedEngine
                = Done (e, Some (StartFailed ListenFailed))
                /\ IsRunning e = false)
  /\ (exists e, UpdateConfig parseIPv4 (defaultConfig "bypass_cn") 0%Z goodStart startedEngine
                = Done (e, None)
                /\ IsRunning e = true
                /\ RoutingMode (config (server e)) = "bypass_cn")
  /\ UpdateConfig parseIPv4 (defaultConfig "bypass_cn") 0%Z statFails startedEngine = Panic.
Proof.
  split; [vm_compute; reflexivity |].
  split; [eexists; (split; [vm_compute; reflexivity |]); vm_compute; auto |].
  split; [eexists; (split; [vm_compute; reflexivity |]); vm_compute; auto |].
  vm_compute. reflexivity.
Qed.

End LifecycleExamples.
(** *** The retry loop and the URL of the dial *)

Section DialRetryFacts.

Import IPAddr Client.

(** How a loop that has turns left ends when it fails: never by
    running out of turns, but with the missing ECH list, the error of
    the TLS configuration, or the error of a dial, which is the dial of
    the last turn or holds no "ECH". *)
Lemma dialLoop_failure (env : TLSEnv) (wsDial : nat -> DialAttempt -> option string)
    (doh : nat -> ECH.DoHReply) (host port path : string) (maxRetries : Z)
    (left attempt : nat) (s : ProxyServer) (f : DialFailure) :
  1 <= left -> (Z.of_nat left + Z.of_nat attempt = maxRetries + 1)%Z ->
  snd (dialLoop env wsDial doh host port path maxRetries left attempt s) = inr f ->
  f = ECHNotLoaded
  \/ (exists e, f = TLSConfigErr e)
  \/ (exists k a msg,
        attempt <= k /\ (Z.of_nat k <= maxRetries)%Z /\ wsDial k a = Some msg
        /\ f = DialErr msg
        /\ (Contains msg "ECH" = false \/ Z.of_nat k = maxRetries)).
Proof.
  revert attempt s. induction left as [|left IH]; intros attempt s Hl Hsum; [lia |].
  cbn [dialLoop].
  assert (Hnext : (Z.of_nat attempt <? maxRetries)%Z = true ->
                  forall s', snd (dialLoop env wsDial doh host port path maxRetries left
                                    (attempt + 1) s') = inr f ->
                  f = ECHNotLoaded
                  \/ (exists e, f = TLSConfigErr e)
                  \/ (exists k a msg,
                        attempt <= k /\ (Z.of_nat k <= maxRetries)%Z /\ wsDial k a = Some msg
                        /\ f = DialErr msg
                        /\ (Contains msg "ECH" = false \/ Z.of_nat k = maxRetries))).
  { intros E s' H. apply Z.ltb_lt in E.
    destruct (IH (attempt + 1) s') as [H1 | [H1 | (k & a & msg & Hk & H2)]];
      [lia | lia | exact H | auto | auto |].
    right. right. exists k, a, msg. split; [lia | exact H2]. }
  destruct (getECHList s) as [echBytes|].
  - destruct (buildTLSConfigWithECH env host echBytes) as [cfg|e].
    + destruct (wsDial attempt _) as [dialErr|] eqn:Ed; [| discriminate].
      destruct (Contains dialErr "ECH" && (Z.of_nat attempt <? maxRetries)%Z) eqn:E.
      * apply andb_true_iff in E. destruct E as [_ E]. now apply Hnext.
      * cbn [snd]. intros H. simplify_eq. right. right.
        eexists attempt, _, dialErr. split; [lia |]. split; [lia |].
        split; [exact Ed |]. split; [reflexivity |].
        apply andb_false_iff in E. destruct E as [E|E]; [now left |].
        right. apply Z.ltb_ge in E. lia.
    + cbn [snd]. intros H. simplify_eq. right. left. eauto.
  - destruct (Z.of_nat attempt <? maxRetries)%Z eqn:E; [now apply Hnext |].
    cbn [snd]. intros H. simplify_eq. now left.
Qed.

(** X25: with a server address that parses, the dial ends with the
    error "maximum number of retries reached" exactly when it is asked
    for no attempt (a [maxRetries] of zero or less).  Asked for one
    attempt or more, it fails with the missing ECH list, with the error
    of the TLS configuration, or with the error of a WebSocket dial:
    the dial of the last attempt, or an earlier one whose error does
    not hold "ECH". *)
Theorem dial_retries_exhausted (env : TLSEnv) (wsDial : nat -> DialAttempt -> option string)
    (doh : nat -> ECH.DoHReply) (maxRetries : Z) (s : ProxyServer)
    (host port path : string) :
  parseServerAddr s = inl (host, port, path) ->
  let result := snd (dialWebSocketWithECH env wsDial doh maxRetries s) in
  (result = inr RetriesExhausted <-> (maxRetries <= 0)%Z)
  /\ (forall f, (0 < maxRetries)%Z -> result = inr f ->
        f = ECHNotLoaded
        \/ (exists e, f = TLSConfigErr e)
        \/ (exists k a msg,
              1 <= k /\ (Z.of_nat k <= maxRetries)%Z /\ wsDial k a = Some msg
              /\ f = DialErr msg
              /\ (Contains msg "ECH" = false \/ Z.of_nat k = maxRetries))).
Proof.
  intros HP result. subst result. unfold dialWebSocketWithECH. rewrite HP.
  assert (Hpos : forall f, (0 < maxRetries)%Z ->
                   snd (dialLoop env wsDial doh host port path maxRetries
                          (Z.to_nat maxRetries) 1 s) = inr f ->
                   f = ECHNotLoaded
                   \/ (exists e, f = TLSConfigErr e)
                   \/ (exists k a msg,
                         1 <= k /\ (Z.of_nat k <= maxRetries)%Z /\ wsDial k a = Some msg
                         /\ f = DialErr msg
                         /\ (Contains msg "ECH" = false \/ Z.of_nat k = maxRetries))).
  { intros f Hm. apply dialLoop_failure; lia. }
  split; [| exact Hpos]. split.
  - intros H. destruct (Z.le_gt_cases maxRetries 0) as [Hle|Hgt]; [exact Hle |].
    destruct (Hpos _ Hgt H) as [H1 | [[e H1] | (k & a & msg & _ & _ & _ & H1 & _)]];
      discriminate.
  - intros Hle. replace (Z.to_nat maxRetries) with 0 by lia. reflexivity.
Qed.

Lemma ContainsByte_cons (x c : ascii) (s : string) :
  ContainsByte (String x s) c = false -> Ascii.eqb x c = false /\ ContainsByte s c = false.
Proof.
  unfold ContainsByte. cbn [IndexByte].
  destruct (Ascii.eqb x c); [discriminate |].
  now destruct (IndexByte s c).
Qed.

(** X26: for a server address [host:port] followed by nothing or by a
    path that begins with a slash, where the host and the port hold no
    colon, bracket or slash, the URL of every dial is [wss://] followed
    by the address, with the path [/] when the address has none. *)
Theorem dial_url (s : ProxyServer) (host port path : string) (echBytes : list byte) :
  (forall c : ascii, In c [":"; "["; "]"; "/"]%char ->
     ContainsByte host c = false /\ ContainsByte port c = false) ->
  path = "" \/ HasPrefix path "/" = true ->
  ServerAddr (config s) = host +:+ ":" +:+ port +:+ path ->
  let path' := if String.eqb path "" then "/" else path in
  parseServerAddr s = inl (host, port, path')
  /\ wsURL (dialAttempt (config s) host port path' echBytes)
     = "wss://" +:+ ServerAddr (config s) +:+ (if String.eqb path "" then "/" else "").
Proof.
  intros Hc Hpath Haddr path'. split.
  2: { unfold dialAttempt. cbn [wsURL]. rewrite Haddr. subst path'.
       destruct path as [|x rest]; cbn [String.eqb].
       - rewrite !append_nil_r, !append_assoc. reflexivity.
       - rewrite !append_nil_r. reflexivity. }
  destruct (Hc ":"%char) as [Hh1 Hp1]; [cbn; tauto |].
  destruct (Hc "["%char) as [Hh2 Hp2]; [cbn; tauto |].
  destruct (Hc "]"%char) as [Hh3 Hp3]; [cbn; tauto |].
  destruct (Hc "/"%char) as [Hh4 Hp4]; [cbn; tauto |].
  pose proof (SplitHostPort_urlHostPort host port Hh1 Hh2 Hh3 Hp1 Hp2 Hp3) as Hsplit.
  unfold urlHostPort in Hsplit.
  assert (Hhp : IndexByte (host +:+ ":" +:+ port) "/" = None).
  { apply IndexByte_None_append; [now apply ContainsByte_None |].
    apply IndexByte_None_append; [reflexivity | now apply ContainsByte_None]. }
  unfold parseServerAddr. rewrite Haddr.
  destruct Hpath as [-> | Hpre].
  - rewrite !append_nil_r. subst path'. cbn [String.eqb].
    rewrite Hhp, Hsplit. reflexivity.
  - destruct path as [|x rest]; [discriminate |].
    rewrite HasPrefix_byte in Hpre. apply Ascii.eqb_eq in Hpre. subst x.
    subst path'. cbn [String.eqb].
    replace (host +:+ ":" +:+ port +:+ String "/" rest)
      with ((host +:+ ":" +:+ port) +:+ String "/" rest)
      by (now rewrite !append_assoc).
    rewrite (IndexByte_append _ rest "/" Hhp), upto_append, from_append, Hsplit.
    reflexivity.
Qed.

End DialRetryFacts.

Section DialRetryExamples.

Import IPAddr Client Fixtures.

(** Two attempts whose dials fail with an ECH error: the error
    returned is the one of the second dial. *)
Lemma dial_retries_exhausted_witness :
  let result := snd (dialWebSocketWithECH (mkTLSEnv None true true)
                       (fun k _ => Some ("tls: ECH rejected, attempt " +:+ pretty k))
                       (fun _ => ECH.Reply 200 (Some echAnswer)) 2 cnServer) in
  (result = inr RetriesExhausted <-> (2 <= 0)%Z)
  /\ result = inr (DialErr "tls: ECH rejected, attempt 2").
Proof.
  intros result.
  destruct (dial_retries_exhausted (mkTLSEnv None true true)
              (fun k _ => Some ("tls: ECH rejected, attempt " +:+ pretty k))
              (fun _ => ECH.Reply 200 (Some echAnswer)) 2 cnServer "x.workers.dev" "443" "/"
              eq_refl) as [H _].
  split; [exact H |]. vm_compute. reflexivity.
Defined.

Lemma dial_url_witness :
  let s := newServer (mkConfig "127.0.0.1:30000" "relay.example:8443/tunnel" "" "t"
                        "dns.alidns.com/dns-query" "cloudflare-ech.com" "global" "") in
  let path' := if String.eqb "/tunnel" "" then "/" else "/tunnel" in
  parseServerAddr s = inl ("relay.example", "8443", path')
  /\ wsURL (dialAttempt (config s) "relay.example" "8443" path' echValue)
     = "wss://" +:+ ServerAddr (config s) +:+ (if String.eqb "/tunnel" "" then "/" else "").
Proof.
  intros s.
  apply (dial_url s "relay.example" "8443" "/tunnel" echValue).
  - intros c Hc. cbn in Hc.
    destruct Hc as [<- | [<- | [<- | [<- | []]]]]; split; reflexivity.
  - right. reflexivity.
  - reflexivity.
Defined.

End DialRetryExamples.

(** *** C1: the routing decision and the loaded lists *)

Section DatabaseFacts.

Import IPAddr IPv6Ranges CNDatabase.

Local Open Scope Z_scope.

Variable ParseIP : string -> option IP.


















(** What the loaders keep of the lines of a file. *)
Lemma parseRangeLineV6_kept (text : string) (r : ipRangeV6) :
  parseRangeLineV6 ParseIP text = Some r -> keptRangeV6 r.
Proof.
  unfold parseRangeLineV6, keptRangeV6. intros H.
  repeat case_match; simplify_eq. cbn [rstart6 rend6].
  rewrite !length_toArray16. repeat split. lia.
Qed.

Lemma omap_parseRangeLineV6_kept (lines : list string) :
  Forall keptRangeV6 (omap (parseRangeLineV6 ParseIP) lines).
Proof.
  induction lines as [|text lines IH]; simpl; [constructor |].
  destruct (parseRangeLineV6 ParseIP text) eqn:E; [| exact IH].
  constructor; [now apply parseRangeLineV6_kept in E | exact IH].
Qed.




End DatabaseFacts.

Section RoutingDecision.

Import IPAddr IPv6Ranges CNDatabase Client.

Variable ParseIP : string -> option IP.
Variable IPString : IP -> string.
Variable Resolver : Type.
Variable LookupIP : string -> Resolver -> option (list IP) * Resolver.



End RoutingDecision.

Section RoutingDecisionClaims.

Import IPAddr IPv6Ranges CNDatabase Client Fixtures.

Local Open Scope Z_scope.




End RoutingDecisionClaims.
